(** * Case lifecycle and reconciliation engine of the loan-recovery tracker

    A shallow embedding of the TypeScript sources
      - [customerCaseService]  (recordPayment, createBulkCases, assignCase,
        updateCase, addCallLog, deleteCase and the queries),
      - [excelUtils]  (parseExcelFile, validateExcelHeaders,
        validateCaseData, generateTemplate, exportCasesToExcel),
      - [CaseDetailsModal]  (handleStatusUpdateSubmit, fetchCallLogs),
      - [AssignCasesModal]  (handleBulkAssignment, handleReassignCase,
        handleDeleteCase, loadTeamCases),
    together with the properties of the specification that concern them
    and further properties of the code.

    Conventions of the embedding.
      - JavaScript strings are [string]s of 8-bit characters; [trim] and
        [toLowerCase] act on the ASCII range.
      - JavaScript numbers are exact rationals extended with NaN and the two
        infinities; binary64 rounding is not modelled.
      - The storage service (Supabase) is a record of tables.  Whether a
        storage call is accepted depends on constraints and connectivity that
        live outside the services, so every call takes its outcome from a
        schedule of faults carried in the store. *)

From Stdlib Require Import QArith Lqa Ascii Sorted.
From stdpp Require Import gmap strings list pretty.

Local Open Scope Z_scope.

(* ===================================================================== *)
(** * JavaScript values *)
(* ===================================================================== *)

Module JS.

(** ** Strings *)

(** [WhiteSpace] and [LineTerminator] code points of the ASCII range. *)
Definition is_whitespace (a : ascii) : bool := Ascii.is_space a.

Fixpoint trimStart (s : string) : string :=
  match s with
  | String a s' => if is_whitespace a then trimStart s' else s
  | EmptyString => EmptyString
  end.

Fixpoint trimEnd (s : string) : string :=
  match s with
  | String a s' =>
      match trimEnd s' with
      | EmptyString => if is_whitespace a then EmptyString
                       else String a EmptyString
      | t => String a t
      end
  | EmptyString => EmptyString
  end.

Definition trim (s : string) : string := trimEnd (trimStart s).

Definition lower_char (a : ascii) : ascii :=
  let n := N_of_ascii a in
  if ((65 <=? n) && (n <=? 90))%N then ascii_of_N (n + 32) else a.

Fixpoint toLowerCase (s : string) : string :=
  match s with
  | String a s' => String (lower_char a) (toLowerCase s')
  | EmptyString => EmptyString
  end.

(** ** Numbers *)

Inductive number : Type :=
| NaN
| NegInfinity
| Fin (q : Q)
| Infinity.

(** [x + y] *)
Definition add (x y : number) : number :=
  match x, y with
  | NaN, _ | _, NaN => NaN
  | Infinity, NegInfinity | NegInfinity, Infinity => NaN
  | Infinity, _ | _, Infinity => Infinity
  | NegInfinity, _ | _, NegInfinity => NegInfinity
  | Fin a, Fin b => Fin (a + b)
  end.

(** [x - y] *)
Definition sub (x y : number) : number :=
  match x, y with
  | NaN, _ | _, NaN => NaN
  | Infinity, Infinity | NegInfinity, NegInfinity => NaN
  | Infinity, _ | _, NegInfinity => Infinity
  | NegInfinity, _ | _, Infinity => NegInfinity
  | Fin a, Fin b => Fin (a - b)
  end.

(** [x <= y]; every comparison with NaN is false. *)
Definition le (x y : number) : bool :=
  match x, y with
  | NaN, _ | _, NaN => false
  | NegInfinity, _ | _, Infinity => true
  | Infinity, _ | _, NegInfinity => false
  | Fin a, Fin b => Qle_bool a b
  end.


(** ToBoolean on a number: [0] and [NaN] are falsy. *)
Definition number_truthy (x : number) : bool :=
  match x with
  | NaN => false
  | Fin a => negb (Qeq_bool a 0)
  | _ => true
  end.

(** ** [parseFloat]

    Leading white space is skipped, then the longest prefix that is a
    [StrDecimalLiteral] is read: an optional sign, then [Infinity] or
    digits with an optional fraction and an optional exponent.  When no
    such prefix exists the result is [NaN]. *)

Definition digit_of (a : ascii) : option Z :=
  let n := N_of_ascii a in
  if ((48 <=? n) && (n <=? 57))%N then Some (Z.of_N (n - 48)) else None.

(** Reads a run of digits: the accumulated value, how many were read and
    the rest of the input. *)
Fixpoint read_digits (s : string) (acc : Z) (count : nat)
  : Z * nat * string :=
  match s with
  | String a s' =>
      match digit_of a with
      | Some d => read_digits s' (10 * acc + d) (S count)
      | None => (acc, count, s)
      end
  | EmptyString => (acc, count, s)
  end.

Definition starts_with (p s : string) : bool := String.prefix p s.

(** The exponent part [e[+-]digits]; it counts only when a digit follows. *)
Definition read_exponent (s : string) : Z :=
  match s with
  | String c s' =>
      if (Ascii.eqb c "e" || Ascii.eqb c "E")%bool then
        let '(sgn, s'') :=
          match s' with
          | String "+" t => (1, t)
          | String "-" t => (-1, t)
          | _ => (1, s')
          end in
        let '(e, n, _) := read_digits s'' 0 0%nat in
        match n with O => 0 | S _ => sgn * e end
      else 0
  | EmptyString => 0
  end.

(** [m * 10 ^ e] as a rational *)
Definition scale10 (m e : Z) : Q :=
  if 0 <=? e then inject_Z (m * 10 ^ e)
  else (m # Z.to_pos (10 ^ (- e)))%Q.

Definition parseFloat (input : string) : number :=
  let s := trimStart input in
  let '(negative, s1) :=
    match s with
    | String "+" t => (false, t)
    | String "-" t => (true, t)
    | _ => (false, s)
    end in
  if starts_with "Infinity" s1 then
    if negative then NegInfinity else Infinity
  else
    let '(ip, ni, s2) := read_digits s1 0 0%nat in
    let '(m, nf, s3) :=
      match s2 with
      | String "." t => read_digits t ip 0%nat
      | _ => (ip, 0%nat, s2)
      end in
    match ni, nf with
    | O, O => NaN
    | _, _ =>
        let q := scale10 m (read_exponent s3 - Z.of_nat nf) in
        Fin (if negative then - q else q)%Q
    end.

(** ** Untyped values ([unknown]) as they occur in spreadsheet cells and in
    the [case_data] object.  Numeric values are integers. *)

Inductive value : Type :=
| Undefined
| Null
| Bool (b : bool)
| Num (z : Z)
| Str (s : string).

(** ToBoolean *)
Definition truthy (v : value) : bool :=
  match v with
  | Undefined | Null => false
  | Bool b => b
  | Num z => negb (z =? 0)
  | Str s => negb (String.eqb s "")
  end.

(** [String(v)], which is [v.toString()] when [v] is neither [undefined]
    nor [null]. *)
Definition toString (v : value) : string :=
  match v with
  | Undefined => "undefined"
  | Null => "null"
  | Bool true => "true"
  | Bool false => "false"
  | Num z => pretty z
  | Str s => s
  end.

(** [v || d] *)
Definition or_else (v d : value) : value := if truthy v then v else d.

(** [arr[i]], [undefined] out of range. *)
Definition index (arr : list value) (i : nat) : value :=
  default Undefined (arr !! i).

End JS.

(* ===================================================================== *)
(** * Promises *)
(* ===================================================================== *)

(** The settled state of a promise: resolved with a value or rejected with
    an error. *)
Inductive settled (E A : Type) : Type :=
| Resolved (a : A)
| Rejected (e : E).
Arguments Resolved {E A} a.
Arguments Rejected {E A} e.

(* ===================================================================== *)
(** * excelUtils *)
(* ===================================================================== *)

Module excelUtils.

Record ColumnConfiguration : Type := {
  column_name : string;
  display_name : string;
  is_active : bool
}.

(** [ExcelRow]: an object with string keys.  Keys keep the order in which
    they were first assigned; assigning an existing key overwrites it in
    place.  Every value [parseExcelFile] stores is a string. *)
Definition ExcelRow : Type := list (string * string).

Fixpoint assign (key val : string) (o : ExcelRow) : ExcelRow :=
  match o with
  | [] => [(key, val)]
  | (k, v) :: o' =>
      if String.eqb k key then (k, val) :: o' else (k, v) :: assign key val o'
  end.

(** The errors [parseExcelFile] rejects with:
    - [EmptyFile]: Excel file is empty or has no data rows;
    - [EmpIdColumnNotFound]: EMPID column not found in Excel file. Please
      ensure the first column is named EMPID (case insensitive);
    - [NoColumnsMatched]: No columns in the Excel file match your product's
      column configuration. *)
Inductive ParseError : Type :=
| EmptyFile
| EmpIdColumnNotFound
| NoColumnsMatched.

(** [arr.findIndex(p)], [None] for [-1]. *)
Fixpoint findIndex {A} (p : A -> bool) (arr : list A) : option nat :=
  match arr with
  | [] => None
  | x :: arr' => if p x then Some O else S <$> findIndex p arr'
  end.

(** [String(h || '').toLowerCase().trim() === 'empid'] *)
Definition is_empid_header (h : JS.value) : bool :=
  String.eqb
    (JS.trim (JS.toLowerCase (JS.toString (JS.or_else h (JS.Str "")))))
    "empid".

(** [columns.find(col => col.display_name.toLowerCase().trim() ===
    headerStr.toLowerCase().trim())] *)
Definition find_column (columns : list ColumnConfiguration)
    (headerStr : string) : option ColumnConfiguration :=
  List.find
    (fun col =>
       String.eqb (JS.trim (JS.toLowerCase (display_name col)))
                  (JS.trim (JS.toLowerCase headerStr)))
    columns.

(** The first [headers.forEach]: the headers that map to a configured
    column and those that do not.  [index] is the position of the head of
    [headers] in the header row. *)
Fixpoint classify_headers (columns : list ColumnConfiguration)
    (empIdIndex : nat) (headers : list JS.value) (index : nat)
    (mappedColumns unmappedHeaders : list string)
  : list string * list string :=
  match headers with
  | [] => (mappedColumns, unmappedHeaders)
  | header :: headers' =>
      if negb (index =? empIdIndex)%nat && JS.truthy header then
        let headerStr := JS.toString header in
        match find_column columns headerStr with
        | Some columnConfig =>
            classify_headers columns empIdIndex headers' (S index)
              (mappedColumns ++
                 [headerStr +:+ " -> " +:+ column_name columnConfig])
              unmappedHeaders
        | None =>
            classify_headers columns empIdIndex headers' (S index)
              mappedColumns (unmappedHeaders ++ [headerStr])
        end
      else
        classify_headers columns empIdIndex headers' (S index)
          mappedColumns unmappedHeaders
  end.

(** The filter on data rows: [row && row.length > 0 && row[empIdIndex]]. *)
Definition row_kept (empIdIndex : nat) (row : list JS.value) : bool :=
  (0 <? length row)%nat && JS.truthy (JS.index row empIdIndex).

(** The inner [headers.forEach] that fills one [rowData]. *)
Fixpoint fill_row (columns : list ColumnConfiguration) (empIdIndex : nat)
    (row : list JS.value) (headers : list JS.value) (index : nat)
    (rowData : ExcelRow) : ExcelRow :=
  match headers with
  | [] => rowData
  | header :: headers' =>
      if negb (index =? empIdIndex)%nat && JS.truthy header then
        let headerStr := JS.toString header in
        match find_column columns headerStr with
        | Some columnConfig =>
            let value := JS.index row index in
            let cell :=
              match value with
              | JS.Undefined | JS.Null => ""
              | _ => JS.trim (JS.toString value)
              end in
            fill_row columns empIdIndex row headers' (S index)
              (assign (column_name columnConfig) cell rowData)
        | None =>
            fill_row columns empIdIndex row headers' (S index) rowData
        end
      else fill_row columns empIdIndex row headers' (S index) rowData
  end.

Definition parse_row (columns : list ColumnConfiguration)
    (headers : list JS.value) (empIdIndex : nat) (row : list JS.value)
  : ExcelRow :=
  fill_row columns empIdIndex row headers O
    [("EMPID", JS.trim (JS.toString (JS.index row empIdIndex)))].

(** [parseExcelFile], from the rows of the first sheet as
    [XLSX.utils.sheet_to_json(worksheet, { header: 1 })] returns them. *)
Definition parseExcelFile (jsonData : list (list JS.value))
    (columns : list ColumnConfiguration)
  : settled ParseError (list ExcelRow) :=
  match jsonData with
  | [] | [_] => Rejected EmptyFile
  | headers :: rows =>
      match findIndex is_empid_header headers with
      | None => Rejected EmpIdColumnNotFound
      | Some empIdIndex =>
          let '(mappedColumns, unmappedHeaders) :=
            classify_headers columns empIdIndex headers O [] [] in
          match mappedColumns with
          | [] => Rejected NoColumnsMatched
          | _ =>
              Resolved
                (parse_row columns headers empIdIndex
                   <$> filter (fun row => row_kept empIdIndex row) rows)
          end
      end
  end.

End excelUtils.

(* ===================================================================== *)
(** * Tables *)
(* ===================================================================== *)

(** A row of [customer_cases], with the columns the case lifecycle reads or
    writes.  [None] is SQL [NULL]. *)
Module CustomerCase.

(** [status?: 'new' | 'assigned' | 'in_progress' | 'closed'] *)
Inductive Status : Type := new | assigned | in_progress | closed.

Record t : Type := {
  id : string;
  tenant_id : string;
  loan_id : string;
  customer_name : option string;
  outstanding_amount : option string;
  case_data : option (gmap string JS.value);
  team_id : option string;
  telecaller_id : option string;
  assigned_employee_id : option string;
  status : option Status;
  case_status : option string;
  total_collected_amount : option Q;
  updated_at : option string
}.

End CustomerCase.

(** [Partial<CustomerCase>], the payload of an update or an upsert.  The outer
    [None] is a key that is absent from the object (the column is left as it
    is); for a nullable column [Some None] sends [null]. *)
Module Partial.

Record t : Type := {
  tenant_id : option string;
  loan_id : option string;
  customer_name : option (option string);
  outstanding_amount : option (option string);
  case_data : option (option (gmap string JS.value));
  team_id : option (option string);
  telecaller_id : option (option string);
  assigned_employee_id : option (option string);
  status : option (option CustomerCase.Status);
  case_status : option (option string);
  total_collected_amount : option JS.number;
  updated_at : option (option string)
}.

(** The empty object [{}]. *)
Definition empty : t :=
  {| tenant_id := None; loan_id := None; customer_name := None;
     outstanding_amount := None; case_data := None; team_id := None;
     telecaller_id := None; assigned_employee_id := None; status := None;
     case_status := None; total_collected_amount := None;
     updated_at := None |}.

(** Assignments [o.key = v] to the keys the services assign. *)
Definition set_telecaller_id (v : option string) (o : t) : t :=
  {| tenant_id := tenant_id o; loan_id := loan_id o;
     customer_name := customer_name o;
     outstanding_amount := outstanding_amount o; case_data := case_data o;
     team_id := team_id o; telecaller_id := Some v;
     assigned_employee_id := assigned_employee_id o; status := status o;
     case_status := case_status o;
     total_collected_amount := total_collected_amount o;
     updated_at := updated_at o |}.

Definition set_assigned_employee_id (v : option string) (o : t) : t :=
  {| tenant_id := tenant_id o; loan_id := loan_id o;
     customer_name := customer_name o;
     outstanding_amount := outstanding_amount o; case_data := case_data o;
     team_id := team_id o; telecaller_id := telecaller_id o;
     assigned_employee_id := Some v; status := status o;
     case_status := case_status o;
     total_collected_amount := total_collected_amount o;
     updated_at := updated_at o |}.

Definition set_status (v : CustomerCase.Status) (o : t) : t :=
  {| tenant_id := tenant_id o; loan_id := loan_id o;
     customer_name := customer_name o;
     outstanding_amount := outstanding_amount o; case_data := case_data o;
     team_id := team_id o; telecaller_id := telecaller_id o;
     assigned_employee_id := assigned_employee_id o;
     status := Some (Some v); case_status := case_status o;
     total_collected_amount := total_collected_amount o;
     updated_at := updated_at o |}.

Definition set_case_status (v : string) (o : t) : t :=
  {| tenant_id := tenant_id o; loan_id := loan_id o;
     customer_name := customer_name o;
     outstanding_amount := outstanding_amount o; case_data := case_data o;
     team_id := team_id o; telecaller_id := telecaller_id o;
     assigned_employee_id := assigned_employee_id o; status := status o;
     case_status := Some (Some v);
     total_collected_amount := total_collected_amount o;
     updated_at := updated_at o |}.

Definition set_total_collected_amount (v : JS.number) (o : t) : t :=
  {| tenant_id := tenant_id o; loan_id := loan_id o;
     customer_name := customer_name o;
     outstanding_amount := outstanding_amount o; case_data := case_data o;
     team_id := team_id o; telecaller_id := telecaller_id o;
     assigned_employee_id := assigned_employee_id o; status := status o;
     case_status := case_status o; total_collected_amount := Some v;
     updated_at := updated_at o |}.

Definition set_updated_at (v : string) (o : t) : t :=
  {| tenant_id := tenant_id o; loan_id := loan_id o;
     customer_name := customer_name o;
     outstanding_amount := outstanding_amount o; case_data := case_data o;
     team_id := team_id o; telecaller_id := telecaller_id o;
     assigned_employee_id := assigned_employee_id o; status := status o;
     case_status := case_status o;
     total_collected_amount := total_collected_amount o;
     updated_at := Some (Some v) |}.

(** A number as JSON carries it into a [numeric] column: [NaN] and the
    infinities are serialised as [null]. *)
Definition json_number (n : JS.number) : option Q :=
  match n with JS.Fin q => Some q | _ => None end.

(** [UPDATE ... SET] of the keys present in [o] on one row. *)
Definition apply (o : t) (c : CustomerCase.t) : CustomerCase.t :=
  {| CustomerCase.id := CustomerCase.id c;
     CustomerCase.tenant_id :=
       default (CustomerCase.tenant_id c) (tenant_id o);
     CustomerCase.loan_id := default (CustomerCase.loan_id c) (loan_id o);
     CustomerCase.customer_name :=
       default (CustomerCase.customer_name c) (customer_name o);
     CustomerCase.outstanding_amount :=
       default (CustomerCase.outstanding_amount c) (outstanding_amount o);
     CustomerCase.case_data :=
       default (CustomerCase.case_data c) (case_data o);
     CustomerCase.team_id := default (CustomerCase.team_id c) (team_id o);
     CustomerCase.telecaller_id :=
       default (CustomerCase.telecaller_id c) (telecaller_id o);
     CustomerCase.assigned_employee_id :=
       default (CustomerCase.assigned_employee_id c)
               (assigned_employee_id o);
     CustomerCase.status := default (CustomerCase.status c) (status o);
     CustomerCase.case_status :=
       default (CustomerCase.case_status c) (case_status o);
     CustomerCase.total_collected_amount :=
       match total_collected_amount o with
       | Some n => json_number n
       | None => CustomerCase.total_collected_amount c
       end;
     CustomerCase.updated_at :=
       default (CustomerCase.updated_at c) (updated_at o) |}.

(** [INSERT] of [o] under a generated [id]; absent keys take the column
    defaults of the schema. *)
Definition insert_row (new_id tenant loan : string) (o : t)
  : CustomerCase.t :=
  apply o
    {| CustomerCase.id := new_id;
       CustomerCase.tenant_id := tenant;
       CustomerCase.loan_id := loan;
       CustomerCase.customer_name := None;
       CustomerCase.outstanding_amount := None;
       CustomerCase.case_data := Some ∅;
       CustomerCase.team_id := None;
       CustomerCase.telecaller_id := None;
       CustomerCase.assigned_employee_id := None;
       CustomerCase.status := None;
       CustomerCase.case_status := Some "pending";
       CustomerCase.total_collected_amount := Some 0%Q;
       CustomerCase.updated_at := None |}.

End Partial.

(** A row of [employees]. *)
Module Employee.
Record t : Type := {
  id : string;
  tenant_id : string;
  name : string;
  emp_id : string;
  role : string;
  status : string
}.
End Employee.

(** A row of [case_call_logs].  [amount_collected] is held as the number that
    the [numeric] column stores; callers send its [String] rendering. *)
Module CallLog.
Record t : Type := {
  case_id : string;
  employee_id : string;
  call_status : string;
  ptp_date : option string;
  call_notes : option string;
  call_duration : option Z;
  amount_collected : option JS.number
}.
End CallLog.

(* ===================================================================== *)
(** * The storage service *)
(* ===================================================================== *)

(** The outcome the storage service has in store for one call: it accepts
    the call, answers with an error object, or the call itself throws. *)
Inductive Fault : Type :=
| Accept
| Refuse (message : string)
| Crash (message : string).

Record Db : Type := {
  customer_cases : list CustomerCase.t;
  case_call_logs : list CallLog.t;
  employees : list Employee.t;
  (** outcomes of the coming storage calls, in call order; a call beyond the
      end of the schedule is accepted *)
  faults : list Fault;
  (** the next identifier [gen_random_uuid()] hands out *)
  next_uuid : nat;
  (** [new Date().toISOString()] *)
  now : string
}.

Definition with_customer_cases (rows : list CustomerCase.t) (db : Db) : Db :=
  {| customer_cases := rows; case_call_logs := case_call_logs db;
     employees := employees db; faults := faults db;
     next_uuid := next_uuid db; now := now db |}.

Definition with_case_call_logs (rows : list CallLog.t) (db : Db) : Db :=
  {| customer_cases := customer_cases db; case_call_logs := rows;
     employees := employees db; faults := faults db;
     next_uuid := next_uuid db; now := now db |}.

Definition with_faults (fs : list Fault) (db : Db) : Db :=
  {| customer_cases := customer_cases db;
     case_call_logs := case_call_logs db;
     employees := employees db; faults := fs;
     next_uuid := next_uuid db; now := now db |}.

Definition with_next_uuid (n : nat) (db : Db) : Db :=
  {| customer_cases := customer_cases db;
     case_call_logs := case_call_logs db;
     employees := employees db; faults := faults db;
     next_uuid := n; now := now db |}.

(** ** Asynchronous service code: a computation over the store that resolves
    or rejects with the message of the thrown [Error]. *)

Definition Service (A : Type) : Type := Db -> settled string A * Db.

Definition ret {A} (a : A) : Service A := fun db => (Resolved a, db).

Definition throw {A} (message : string) : Service A :=
  fun db => (Rejected message, db).

Definition bind {A B} (m : Service A) (k : A -> Service B) : Service B :=
  fun db =>
    match m db with
    | (Resolved a, db') => k a db'
    | (Rejected e, db') => (Rejected e, db')
    end.

(** [try { m } catch (error) { handler (error.message) }] *)
Definition try_catch {A} (m : Service A) (handler : string -> Service A)
  : Service A :=
  fun db =>
    match m db with
    | (Resolved a, db') => (Resolved a, db')
    | (Rejected e, db') => handler e db'
    end.

Definition get_db : Service Db := fun db => (Resolved db, db).
Definition modify_db (f : Db -> Db) : Service unit :=
  fun db => (Resolved tt, f db).

Declare Scope service_scope.
Delimit Scope service_scope with service.
Notation "x <~ m ;; k" := (bind m (fun x => k))
  (at level 100, m at next level, right associativity) : service_scope.
Notation "m ;;; k" := (bind m (fun _ => k))
  (at level 100, right associativity) : service_scope.
Local Open Scope service_scope.

(** The [{ data, error }] object a storage call answers with. *)
Record Response (A : Type) : Type := {
  data : option A;
  error : option string
}.
Arguments data {A} r.
Arguments error {A} r.

Definition answer {A} (a : A) : Response A :=
  {| data := Some a; error := None |}.
Definition failure {A} (message : string) : Response A :=
  {| data := None; error := Some message |}.

Module supabase.

(** Every storage call starts by taking its outcome from the schedule. *)
Definition next_fault : Service Fault :=
  fun db =>
    (Resolved (default Accept (head (faults db))),
     with_faults (tail (faults db)) db).

(** Runs [run] when the call is accepted. *)
Definition call {A} (run : Service (Response A)) : Service (Response A) :=
  f <~ next_fault ;;
  match f with
  | Accept => run
  | Refuse message => ret (failure message)
  | Crash message => throw message
  end.

(** [.single()]: exactly one row, or an error. *)
Definition single {A} (rows : list A) : Response A :=
  match rows with
  | [row] => answer row
  | _ => failure "JSON object requested, multiple (or no) rows returned"
  end.

Definition has_id (caseId : string) (c : CustomerCase.t) : bool :=
  String.eqb (CustomerCase.id c) caseId.

(** [from(CUSTOMER_CASE_TABLE).select(...).eq('id', caseId).single()] *)
Definition select_case_single (caseId : string)
  : Service (Response CustomerCase.t) :=
  call (db <~ get_db ;;
        ret (single (filter (fun c => has_id caseId c) (customer_cases db)))).

Definition update_rows (caseId : string) (o : Partial.t)
    (rows : list CustomerCase.t) : list CustomerCase.t :=
  (fun c => if has_id caseId c then Partial.apply o c else c) <$> rows.

(** [from(CUSTOMER_CASE_TABLE).update(o).eq('id', caseId)] *)
Definition update_case (caseId : string) (o : Partial.t)
  : Service (Response unit) :=
  call (modify_db (fun db =>
          with_customer_cases (update_rows caseId o (customer_cases db)) db)
        ;;; ret (answer tt)).

(** [from(CUSTOMER_CASE_TABLE).update(o).eq('id', caseId).select().single()]:
    a statement that does not return exactly one row is an error, and the
    rows stay as they were. *)
Definition update_case_single (caseId : string) (o : Partial.t)
  : Service (Response CustomerCase.t) :=
  call (db <~ get_db ;;
        match filter (fun c => has_id caseId c) (customer_cases db) with
        | [c] =>
            modify_db (with_customer_cases
                         (update_rows caseId o (customer_cases db))) ;;;
            ret (answer (Partial.apply o c))
        | rows => ret (single rows)
        end).

Definition same_key (tenant loan : string) (c : CustomerCase.t) : bool :=
  String.eqb (CustomerCase.tenant_id c) tenant
  && String.eqb (CustomerCase.loan_id c) loan.

Definition gen_random_uuid (n : nat) : string := "case-" +:+ pretty n.

(** [from(CUSTOMER_CASE_TABLE).upsert([o], { onConflict:
    'tenant_id,loan_id', ignoreDuplicates: false })]: the row with the same
    key takes the columns of [o], or a row is inserted.  Of the
    constraints of the table only the presence of the two key columns is
    enforced here; any other refusal comes from the schedule. *)
Definition upsert_case (o : Partial.t) : Service (Response unit) :=
  call (db <~ get_db ;;
        match Partial.tenant_id o, Partial.loan_id o with
        | Some tenant, Some loan =>
            if existsb (same_key tenant loan) (customer_cases db) then
              modify_db (with_customer_cases
                ((fun c => if same_key tenant loan c
                           then Partial.apply o c else c)
                   <$> customer_cases db)) ;;;
              ret (answer tt)
            else
              modify_db (fun db =>
                with_next_uuid (S (next_uuid db))
                  (with_customer_cases
                     (customer_cases db ++
                        [Partial.insert_row
                           (gen_random_uuid (next_uuid db)) tenant loan o])
                     db)) ;;;
              ret (answer tt)
        | _, _ =>
            ret (failure
                   "null value in column violates not-null constraint")
        end).

(** [from(CASE_CALL_LOG_TABLE).insert(entry)], which answers with the row
    when followed by [.select().single()]. *)
Definition insert_call_log (entry : CallLog.t) : Service (Response CallLog.t) :=
  call (modify_db (fun db =>
          with_case_call_logs (case_call_logs db ++ [entry]) db) ;;;
        ret (answer entry)).

(** [from(EMPLOYEE_TABLE).select('id, emp_id').eq('tenant_id', tenant)
    .eq('role', 'Telecaller').eq('status', 'active')] *)
Definition select_telecallers (tenant : option string)
  : Service (Response (list Employee.t)) :=
  call (db <~ get_db ;;
        ret (answer
               (filter
                  (fun e =>
                     match tenant with
                     | Some t => String.eqb (Employee.tenant_id e) t
                     | None => false
                     end
                     && String.eqb (Employee.role e) "Telecaller"
                     && String.eqb (Employee.status e) "active")
                  (employees db)))).

(** [from(EMPLOYEE_TABLE).select('emp_id').eq('id', employeeId).single()] *)
Definition select_employee_single (employeeId : string)
  : Service (Response Employee.t) :=
  call (db <~ get_db ;;
        ret (single
               (filter (fun e => String.eqb (Employee.id e) employeeId)
                  (employees db)))).

End supabase.

(* ===================================================================== *)
(** * customerCaseService *)
(* ===================================================================== *)

(** One entry of [CaseUploadResult.errors]. *)
Record UploadError : Type := {
  row : nat;
  error_message : string;
  row_data : Partial.t
}.

Record CaseUploadResult : Type := {
  totalUploaded : nat;
  autoAssigned : nat;
  unassigned : nat;
  errors : list UploadError
}.

(** [CaseAssignment]; [telecallerId] is [null] for an unassignment. *)
Record CaseAssignment : Type := {
  caseId : string;
  telecallerId : option string;
  assignedBy : string
}.

Module customerCaseService.

(** ** updateCase *)
Definition updateCase (caseId : string) (updates : Partial.t)
  : Service CustomerCase.t :=
  r <~ supabase.update_case_single caseId updates ;;
  match error r, data r with
  | None, Some row => ret row
  | _, _ => throw "Failed to update case"
  end.

(** ** addCallLog *)
Definition addCallLog (callLog : CallLog.t) : Service CallLog.t :=
  r <~ supabase.insert_call_log callLog ;;
  match error r, data r with
  | None, Some row => ret row
  | _, _ => throw "Failed to add call log"
  end.

(** ** createBulkCases *)

(** [telecallers?.forEach(tel => telecallerMap.set(tel.emp_id, tel.id))] *)
Definition build_telecallerMap (telecallers : option (list Employee.t))
  : gmap string string :=
  match telecallers with
  | Some tels =>
      foldl (fun m tel => <[Employee.emp_id tel := Employee.id tel]> m)
            ∅ tels
  | None => ∅
  end.

(** [caseData.case_data?.EMPID], [undefined] when the object or the key is
    missing. *)
Definition EMPID_of (caseData : Partial.t) : JS.value :=
  match Partial.case_data caseData with
  | Some (Some fields) => default JS.Undefined (fields !! "EMPID")
  | _ => JS.Undefined
  end.

(** The branch at the head of the loop body: the row after the assignment
    decision, and whether it counted as auto-assigned. *)
Definition auto_assign (telecallerMap : gmap string string)
    (caseData : Partial.t) : Partial.t * bool :=
  let EMPID := EMPID_of caseData in
  match JS.truthy EMPID, telecallerMap !! JS.toString EMPID with
  | true, Some tel_id =>
      (Partial.set_status CustomerCase.assigned
         (Partial.set_assigned_employee_id (Some (JS.toString EMPID))
            (Partial.set_telecaller_id (Some tel_id) caseData)),
       true)
  | _, _ =>
      (Partial.set_status CustomerCase.new
         (Partial.set_assigned_employee_id None
            (Partial.set_telecaller_id None caseData)),
       false)
  end.

Definition count_assignment (assigned : bool) (acc : CaseUploadResult)
  : CaseUploadResult :=
  {| totalUploaded := totalUploaded acc;
     autoAssigned := if assigned then S (autoAssigned acc)
                     else autoAssigned acc;
     unassigned := if assigned then unassigned acc
                   else S (unassigned acc);
     errors := errors acc |}.

Definition count_uploaded (acc : CaseUploadResult) : CaseUploadResult :=
  {| totalUploaded := S (totalUploaded acc);
     autoAssigned := autoAssigned acc;
     unassigned := unassigned acc;
     errors := errors acc |}.

Definition push_error (e : UploadError) (acc : CaseUploadResult)
  : CaseUploadResult :=
  {| totalUploaded := totalUploaded acc;
     autoAssigned := autoAssigned acc;
     unassigned := unassigned acc;
     errors := errors acc ++ [e] |}.

(** One iteration of the [for] loop, for the row at index [i].  The
    counters are variables outside the [try]: what was counted before a
    throw stays counted, and the row handed to [catch] is the row object
    as the iteration left it. *)
Definition process_row (telecallerMap : gmap string string) (i : nat)
    (row0 : Partial.t) (acc : CaseUploadResult) : Service CaseUploadResult :=
  let rowNumber := S i in
  let '(caseData, assigned) := auto_assign telecallerMap row0 in
  let acc1 := count_assignment assigned acc in
  try_catch
    (r <~ supabase.upsert_case caseData ;;
     match error r with
     | Some message =>
         ret (push_error {| row := rowNumber; error_message := message;
                            row_data := caseData |} acc1)
     | None => ret (count_uploaded acc1)
     end)
    (fun message =>
       ret (push_error {| row := S i; error_message := message;
                          row_data := caseData |} acc1)).

Fixpoint process_rows (telecallerMap : gmap string string) (i : nat)
    (cases : list Partial.t) (acc : CaseUploadResult)
  : Service CaseUploadResult :=
  match cases with
  | [] => ret acc
  | caseData :: cases' =>
      acc' <~ process_row telecallerMap i caseData acc ;;
      process_rows telecallerMap (S i) cases' acc'
  end.

Definition createBulkCases (cases : list Partial.t)
  : Service CaseUploadResult :=
  r <~ supabase.select_telecallers (head cases ≫= Partial.tenant_id) ;;
  let telecallerMap := build_telecallerMap (data r) in
  process_rows telecallerMap 0 cases
    {| totalUploaded := 0; autoAssigned := 0; unassigned := 0;
       errors := [] |}.

(** ** assignCase *)
Definition assignCase (caseId : string) (assignment : CaseAssignment)
  : Service unit :=
  db <~ get_db ;;
  let updateData :=
    Partial.set_updated_at (now db)
      (Partial.set_telecaller_id (telecallerId assignment) Partial.empty) in
  updateData <~
    match telecallerId assignment with
    | Some tel_id =>
        if negb (String.eqb tel_id "") then
          r <~ supabase.select_employee_single tel_id ;;
          match error r, data r with
          | None, Some telecaller =>
              let emp := Employee.emp_id telecaller in
              ret (Partial.set_status CustomerCase.assigned
                     (Partial.set_assigned_employee_id
                        (if String.eqb emp "" then None else Some emp)
                        updateData))
          | _, _ => throw "Failed to find telecaller details"
          end
        else
          ret (Partial.set_status CustomerCase.new
                 (Partial.set_assigned_employee_id None updateData))
    | None =>
        ret (Partial.set_status CustomerCase.new
               (Partial.set_assigned_employee_id None updateData))
    end ;;
  r <~ supabase.update_case caseId updateData ;;
  match error r with
  | Some _ => throw "Failed to update case assignment"
  | None => ret tt
  end.

(** ** recordPayment *)

(** [currentCase.total_collected_amount || 0] *)
Definition currentCollected (currentCase : CustomerCase.t) : JS.number :=
  match CustomerCase.total_collected_amount currentCase with
  | Some q => if JS.number_truthy (JS.Fin q) then JS.Fin q else JS.Fin 0
  | None => JS.Fin 0
  end.

(** [parseFloat(currentCase.outstanding_amount || '0')] *)
Definition outstandingAmount (currentCase : CustomerCase.t) : JS.number :=
  JS.parseFloat
    match CustomerCase.outstanding_amount currentCase with
    | Some s => if String.eqb s "" then "0" else s
    | None => "0"
    end.

Definition recordPayment (caseId employeeId : string) (amount : JS.number)
    (notes : string) : Service CustomerCase.t :=
  fetched <~ supabase.select_case_single caseId ;;
  match error fetched, data fetched with
  | None, Some currentCase =>
      let newTotalCollected :=
        JS.add (currentCollected currentCase) amount in
      let remainingAmount :=
        JS.sub (outstandingAmount currentCase) newTotalCollected in
      let shouldCloseCase := JS.le remainingAmount (JS.Fin 0) in
      logged <~ supabase.insert_call_log
        {| CallLog.case_id := caseId;
           CallLog.employee_id := employeeId;
           CallLog.call_status := "PAYMENT_RECEIVED";
           CallLog.ptp_date := None;
           CallLog.call_notes := Some notes;
           CallLog.call_duration := None;
           CallLog.amount_collected := Some amount |} ;;
      match error logged with
      | Some _ => throw "Failed to record payment log"
      | None =>
          db <~ get_db ;;
          let updateData :=
            Partial.set_updated_at (now db)
              (Partial.set_total_collected_amount newTotalCollected
                 Partial.empty) in
          let updateData :=
            if shouldCloseCase
            then Partial.set_status CustomerCase.closed
                   (Partial.set_case_status "closed" updateData)
            else updateData in
          updated <~ supabase.update_case_single caseId updateData ;;
          match error updated, data updated with
          | None, Some updatedCase => ret updatedCase
          | _, _ => throw "Failed to update case"
          end
      end
  | _, _ => throw "Failed to fetch case details"
  end.

End customerCaseService.

(* ===================================================================== *)
(** * CaseDetailsModal *)
(* ===================================================================== *)

Module CaseDetailsModal.

(** What [showNotification] is called with. *)
Inductive Notification : Type :=
| error_notification (title message : string)
| success_notification (title message : string).

(** The state of the log-call form. *)
Record Form : Type := {
  callStatus : string;
  ptpDate : string;
  ptpTime : string;
  remarks : string
}.

Definition non_empty (s : string) : bool := negb (String.eqb s "").

(** [customerCaseService.getCallLogsWithEmployeeDetails] *)
Definition getCallLogsWithEmployeeDetails (caseId : string)
  : Service (list (CallLog.t * string)) :=
  r <~ supabase.call (db <~ get_db ;;
         ret (answer
                (rev (filter
                        (fun l => String.eqb (CallLog.case_id l) caseId)
                        (case_call_logs db))))) ;;
  match error r, data r with
  | Some _, _ => throw "Failed to fetch call logs"
  | None, None | None, Some [] => ret []
  | None, Some logs =>
      let employeeIds := remove_dups (CallLog.employee_id <$> logs) in
      e <~ supabase.call (db <~ get_db ;;
             ret (answer
                    (filter
                       (fun emp =>
                          existsb (String.eqb (Employee.id emp)) employeeIds)
                       (employees db)))) ;;
      match error e with
      | Some _ => ret ((fun l => (l, "Unknown")) <$> logs)
      | None =>
          let employeeMap : gmap string string :=
            foldl (fun m emp => <[Employee.id emp := Employee.name emp]> m)
                  ∅ (default [] (data e)) in
          ret ((fun l =>
                  (l, match employeeMap !! CallLog.employee_id l with
                      | Some n => if non_empty n then n else "Unknown"
                      | None => "Unknown"
                      end)) <$> logs)
      end
  end.

(** [fetchCallLogs]: the five latest entries for the list of the modal, or
    nothing when the read failed. *)
Definition fetchCallLogs (caseId : string)
  : Service (option (list (CallLog.t * string))) :=
  try_catch
    (logs <~ getCallLogsWithEmployeeDetails caseId ;; ret (Some (take 5 logs)))
    (fun _ => ret None).

Definition handleStatusUpdateSubmit (caseData : option CustomerCase.t)
    (user_id : option string) (form : Form) : Service Notification :=
  match caseData, user_id with
  | Some case_, Some uid =>
      if negb (non_empty (CustomerCase.id case_)) || negb (non_empty uid)
      then ret (error_notification "Error"
                  "Missing case or user information")
      else if negb (non_empty (callStatus form))
              || negb (non_empty (JS.trim (remarks form)))
      then ret (error_notification "Validation Error"
                  "Please fill in all required fields")
      else if (String.eqb (callStatus form) "PTP"
               || String.eqb (callStatus form) "FUTURE_PTP")
              && negb (non_empty (ptpDate form))
      then ret (error_notification "Validation Error"
                  "PTP Date is required for Promise to Pay")
      else
        try_catch
          (let ptpDateTime :=
             if non_empty (ptpDate form) && non_empty (ptpTime form)
             then Some (ptpDate form +:+ "T" +:+ ptpTime form +:+ ":00")
             else if non_empty (ptpDate form)
                  then Some (ptpDate form +:+ "T00:00:00")
                  else None in
           customerCaseService.addCallLog
             {| CallLog.case_id := CustomerCase.id case_;
                CallLog.employee_id := uid;
                CallLog.call_status := callStatus form;
                CallLog.ptp_date := ptpDateTime;
                CallLog.call_notes := Some (remarks form);
                CallLog.call_duration := None;
                CallLog.amount_collected := None |} ;;;
           db <~ get_db ;;
           customerCaseService.updateCase (CustomerCase.id case_)
             (Partial.set_updated_at (now db)
                (Partial.set_status CustomerCase.in_progress
                   Partial.empty)) ;;;
           fetchCallLogs (CustomerCase.id case_) ;;;
           ret (success_notification "Success"
                  "Status update saved successfully"))
          (fun _ =>
             ret (error_notification "Error"
                    "Failed to save status update"))
  | _, _ =>
      ret (error_notification "Error" "Missing case or user information")
  end.

End CaseDetailsModal.

(* ===================================================================== *)
(** * Further JavaScript text functions *)
(* ===================================================================== *)

Module JSText.

(** The double quote character, for messages that quote a word. *)
Definition quote : string := String "034"%char "".

(** [arr.join(sep)] on an array of strings. *)
Fixpoint join (sep : string) (arr : list string) : string :=
  match arr with
  | [] => ""
  | [x] => x
  | x :: rest => x +:+ sep +:+ join sep rest
  end.

(** How [join] renders an element of an [unknown[]]: [undefined] and [null]
    as the empty string. *)
Definition join_item (v : JS.value) : string :=
  match v with
  | JS.Undefined | JS.Null => ""
  | _ => JS.toString v
  end.

(** [s.replace(/\D/g, '')]: the decimal digits of [s]. *)
Fixpoint digits_only (s : string) : string :=
  match s with
  | String a s' =>
      match JS.digit_of a with
      | Some _ => String a (digits_only s')
      | None => digits_only s'
      end
  | EmptyString => EmptyString
  end.

(** [/^\d+$/]-style scan: every character is a decimal digit. *)
Fixpoint all_digits (s : string) : bool :=
  match s with
  | String a s' =>
      match JS.digit_of a with
      | Some _ => all_digits s'
      | None => false
      end
  | EmptyString => true
  end.

(** [/^\d{10}$/.test(s)] *)
Definition ten_digits (s : string) : bool :=
  (String.length s =? 10)%nat && all_digits s.

Definition hex_digit_of (a : ascii) : option Z :=
  let n := N_of_ascii a in
  if ((48 <=? n) && (n <=? 57))%N then Some (Z.of_N (n - 48))
  else if ((97 <=? n) && (n <=? 102))%N then Some (Z.of_N (n - 87))
  else if ((65 <=? n) && (n <=? 70))%N then Some (Z.of_N (n - 55))
  else None.

(** Reads the digits of the radix at the head of [s]: their value and how
    many there were. *)
Fixpoint read_radix (digit : ascii -> option Z) (radix : Z) (s : string)
    (acc : Z) (count : nat) : Z * nat :=
  match s with
  | String a s' =>
      match digit a with
      | Some d => read_radix digit radix s' (radix * acc + d) (S count)
      | None => (acc, count)
      end
  | EmptyString => (acc, count)
  end.

(** [parseInt(s)] without a radix: leading white space and a sign are
    skipped, a [0x] prefix selects radix 16, and the result is [NaN] when
    no digit follows. *)
Definition parseInt (input : string) : JS.number :=
  let s := JS.trimStart input in
  let '(sign, s1) :=
    match s with
    | String "+" t => (1, t)
    | String "-" t => (-1, t)
    | _ => (1, s)
    end in
  let '(n, count) :=
    if String.prefix "0x" s1 || String.prefix "0X" s1
    then read_radix hex_digit_of 16 (String.substring 2 (String.length s1) s1)
           0 0%nat
    else read_radix JS.digit_of 10 s1 0 0%nat in
  match count with
  | O => JS.NaN
  | S _ => JS.Fin (inject_Z (sign * n))
  end.

(** [isNaN(x)] on a number. *)
Definition isNaN (x : JS.number) : bool :=
  match x with JS.NaN => true | _ => false end.

End JSText.

(* ===================================================================== *)
(** * excelUtils: the checks *)
(* ===================================================================== *)

(** The result of [validateExcelHeaders]. *)
Module HeaderValidation.
Record t : Type := { valid : bool; message : string }.
End HeaderValidation.

(** The result of [validateCaseData]. *)
Module RowValidation.
Record t : Type := { valid : bool; errors : list string }.
End RowValidation.

Module excelChecks.

Import excelUtils.

(** The [headers.forEach] of [validateExcelHeaders]: how many headers map
    to a configured column, and the headers that do not. *)
Fixpoint count_headers (columns : list ColumnConfiguration)
    (empIdIndex : nat) (headers : list JS.value) (index : nat)
    (mappedCount : nat) (unmappedHeaders : list string)
  : nat * list string :=
  match headers with
  | [] => (mappedCount, unmappedHeaders)
  | header :: headers' =>
      if negb (index =? empIdIndex)%nat && JS.truthy header then
        let headerStr := JS.toString header in
        match find_column columns headerStr with
        | Some _ =>
            count_headers columns empIdIndex headers' (S index)
              (S mappedCount) unmappedHeaders
        | None =>
            count_headers columns empIdIndex headers' (S index)
              mappedCount (unmappedHeaders ++ [headerStr])
        end
      else
        count_headers columns empIdIndex headers' (S index)
          mappedCount unmappedHeaders
  end.

(** [validateExcelHeaders], from the rows of the first sheet. *)
Definition validateExcelHeaders (jsonData : list (list JS.value))
    (columns : list ColumnConfiguration) : HeaderValidation.t :=
  match jsonData with
  | [] =>
      {| HeaderValidation.valid := false;
         HeaderValidation.message := "Excel file appears to be empty" |}
  | headers :: _ =>
      match findIndex is_empid_header headers with
      | None =>
          {| HeaderValidation.valid := false;
             HeaderValidation.message :=
               "EMPID column not found. The first column must be named "
               +:+ JSText.quote +:+ "EMPID" +:+ JSText.quote
               +:+ " (case insensitive)." |}
      | Some empIdIndex =>
          let '(mappedCount, unmappedHeaders) :=
            count_headers columns empIdIndex headers O O [] in
          match mappedCount with
          | O =>
              {| HeaderValidation.valid := false;
                 HeaderValidation.message :=
                   "No columns in your Excel file match the configured columns for this product. Expected columns: "
                   +:+ JSText.join ", " (display_name <$> columns)
                   +:+ ". Found headers: "
                   +:+ JSText.join ", " (JSText.join_item <$> headers)
                   +:+ ". Please download a fresh template." |}
          | S _ =>
              {| HeaderValidation.valid := true;
                 HeaderValidation.message :=
                   "Headers validated successfully. "
                   +:+ pretty mappedCount +:+ " columns matched, "
                   +:+ pretty (length unmappedHeaders)
                   +:+ " headers will be ignored." |}
          end
      end
  end.

(** [row[key]], [None] for [undefined]. *)
Definition get (key : string) (row : ExcelRow) : option string :=
  snd <$> List.find (fun kv => String.eqb (fst kv) key) row.

(** [!row[key] || String(row[key]).trim() === ''] *)
Definition blank (key : string) (row : ExcelRow) : bool :=
  match get key row with
  | Some v => String.eqb v "" || String.eqb (JS.trim v) ""
  | None => true
  end.

(** The [requiredColumns.forEach] of [validateCaseData]. *)
Fixpoint check_required (row : ExcelRow) (columns : list ColumnConfiguration)
    (requiredColumns : list string) (errors : list string) : list string :=
  match requiredColumns with
  | [] => errors
  | colName :: rest =>
      if blank colName row then
        let displayName :=
          match List.find (fun c => String.eqb (column_name c) colName)
                  columns with
          | Some c => if String.eqb (display_name c) "" then colName
                      else display_name c
          | None => colName
          end in
        check_required row columns rest
          (errors ++ [displayName +:+ " is required"])
      else check_required row columns rest errors
  end.

Definition validateCaseData (row : ExcelRow)
    (columns : list ColumnConfiguration) : RowValidation.t :=
  let errors := if blank "EMPID" row then ["EMPID is required"] else [] in
  let errors := check_required row columns ["customerName"; "loanId"] errors in
  let errors :=
    match get "mobileNo" row with
    | Some v =>
        if negb (String.eqb v "")
           && negb (JSText.ten_digits (JSText.digits_only v))
        then errors ++ ["Invalid mobile number format"] else errors
    | None => errors
    end in
  let errors :=
    match get "dpd" row with
    | Some v =>
        if negb (String.eqb v "") && JSText.isNaN (JSText.parseInt v)
        then errors ++ ["DPD must be a number"] else errors
    | None => errors
    end in
  {| RowValidation.valid := (length errors =? 0)%nat;
     RowValidation.errors := errors |}.

End excelChecks.

(* ===================================================================== *)
(** * excelUtils: the sheets it writes *)
(* ===================================================================== *)

Module excelSheets.

Import excelUtils.

(** The [switch] on [col.column_name] for the first sample row. *)
Definition sample_row_1 : list (string * string) :=
  [ ("customerName", "Rajesh Kumar"); ("loanId", "LN001234567");
    ("loanAmount", "500000"); ("mobileNo", "9876543210"); ("dpd", "45");
    ("outstandingAmount", "450000"); ("posAmount", "50000");
    ("emiAmount", "15000"); ("pendingDues", "75000");
    ("address", "123 MG Road, Sector 15, Gurgaon");
    ("sanctionDate", "2023-01-15"); ("lastPaidAmount", "15000");
    ("lastPaidDate", "2024-11-15");
    ("paymentLink", "https://pay.company.com/LN001234567");
    ("branchName", "Gurgaon Branch"); ("loanType", "Personal Loan");
    ("remarks", "Cooperative customer") ].

(** The [switch] for the second sample row. *)
Definition sample_row_2 : list (string * string) :=
  [ ("customerName", "Sunita Sharma"); ("loanId", "LN002345678");
    ("loanAmount", "350000"); ("mobileNo", "9876543220"); ("dpd", "30");
    ("outstandingAmount", "195000"); ("posAmount", "155000");
    ("emiAmount", "12000"); ("pendingDues", "36000");
    ("address", "456 Park Street, Mumbai");
    ("sanctionDate", "2023-09-20"); ("lastPaidAmount", "12000");
    ("lastPaidDate", "2024-02-10");
    ("paymentLink", "https://pay.company.com/LN002345678");
    ("branchName", "Mumbai Branch"); ("loanType", "Home Loan");
    ("remarks", "Needs follow-up") ].

(** One [case]: the value of the switch, [n/a] by default. *)
Definition sample (cases : list (string * string)) (name : string) : string :=
  default "n/a"
    (snd <$> List.find (fun kv => String.eqb (fst kv) name) cases).

(** [generateTemplate]: the array of rows it hands to
    [XLSX.utils.aoa_to_sheet], or the error it throws when the configuration
    lacks a required column. *)
Definition generateTemplate (columns : list ColumnConfiguration)
  : settled string (list (list JS.value)) :=
  let hasCustomerName :=
    existsb (fun col => String.eqb (column_name col) "customerName") columns in
  let hasLoanId :=
    existsb (fun col => String.eqb (column_name col) "loanId") columns in
  if negb hasCustomerName || negb hasLoanId then
    Rejected
      "Template generation failed: Required columns (Customer Name, Loan ID) are missing from configuration"
  else
    let headers := JS.Str "EMPID" :: (JS.Str ∘ display_name <$> columns) in
    let sampleData :=
      [ JS.Str "EMP001"
          :: ((fun col => JS.Str (sample sample_row_1 (column_name col)))
                <$> columns);
        JS.Str "EMP002"
          :: ((fun col => JS.Str (sample sample_row_2 (column_name col)))
                <$> columns) ] in
    Resolved (headers :: sampleData).

(** [exportCasesToExcel]: the array of rows it hands to
    [XLSX.utils.aoa_to_sheet]. *)
Definition exportCasesToExcel (cases : list (gmap string JS.value))
    (columns : list ColumnConfiguration) : list (list JS.value) :=
  let headers := JS.Str ∘ display_name <$> columns in
  let rows :=
    (fun case_ =>
       (fun col =>
          match case_ !! column_name col with
          | Some JS.Undefined | Some JS.Null | None => JS.Str ""
          | Some value => value
          end) <$> columns) <$> cases in
  headers :: rows.

End excelSheets.

(* ===================================================================== *)
(** * customerCaseService: the queries, and deleteCase *)
(* ===================================================================== *)

(** The counts [getTelecallerCaseStats] returns. *)
Module CaseStats.
Record t : Type := {
  total : nat;
  new : nat;
  assigned : nat;
  inProgress : nat;
  closed : nat
}.
End CaseStats.

(** The [id, name, emp_id] columns of a telecaller, as [getTeamCases]
    attaches them to a case. *)
Module TelecallerInfo.
Record t : Type := { id : string; name : string; emp_id : string }.
End TelecallerInfo.

Module caseQueries.

(** [.maybeSingle()]: no row is [null] without an error, several rows are an
    error. *)
Definition maybeSingle {A} (rows : list A) : Response A :=
  match rows with
  | [] => {| data := None; error := None |}
  | [row] => answer row
  | _ => failure "JSON object requested, multiple (or no) rows returned"
  end.

(** [from(CUSTOMER_CASE_TABLE).select(...)] with the [eq]/[is] filters [p]
    and [.order('created_at', { ascending: false })].  The table holds its
    rows in the order of their creation. *)
Definition select_cases_newest_first (p : CustomerCase.t -> bool)
  : Service (Response (list CustomerCase.t)) :=
  supabase.call
    (db <~ get_db ;;
     ret (answer (rev (filter (fun c => p c) (customer_cases db))))).

Definition eq_opt (column : option string) (v : string) : bool :=
  match column with
  | Some x => String.eqb x v
  | None => false
  end.

Definition getCasesByEmployee (tenantId employeeId : string)
  : Service (list CustomerCase.t) :=
  r <~ select_cases_newest_first
         (fun c => String.eqb (CustomerCase.tenant_id c) tenantId
                   && eq_opt (CustomerCase.assigned_employee_id c) employeeId) ;;
  match error r with
  | Some _ => throw "Failed to fetch customer cases"
  | None => ret (default [] (data r))
  end.

Definition getAllCases (tenantId : string) : Service (list CustomerCase.t) :=
  r <~ select_cases_newest_first
         (fun c => String.eqb (CustomerCase.tenant_id c) tenantId) ;;
  match error r with
  | Some _ => throw "Failed to fetch all cases"
  | None => ret (default [] (data r))
  end.

Definition getUnassignedTeamCases (tenantId teamId : string)
  : Service (list CustomerCase.t) :=
  r <~ select_cases_newest_first
         (fun c => String.eqb (CustomerCase.tenant_id c) tenantId
                   && eq_opt (CustomerCase.team_id c) teamId
                   && bool_decide (CustomerCase.telecaller_id c = None)) ;;
  match error r with
  | Some _ => throw "Failed to fetch unassigned cases"
  | None => ret (default [] (data r))
  end.

(** [c.status === s] *)
Definition status_is (s : CustomerCase.Status)
    (x : option CustomerCase.Status) : bool :=
  match x, s with
  | Some CustomerCase.new, CustomerCase.new
  | Some CustomerCase.assigned, CustomerCase.assigned
  | Some CustomerCase.in_progress, CustomerCase.in_progress
  | Some CustomerCase.closed, CustomerCase.closed => true
  | _, _ => false
  end.

(** [cases.filter(c => c.status === s).length] *)
Definition count_status (s : CustomerCase.Status)
    (statuses : list (option CustomerCase.Status)) : nat :=
  length (filter (fun x => status_is s x) statuses).

Definition getTelecallerCaseStats (tenantId telecallerId : string)
  : Service CaseStats.t :=
  r <~ supabase.call
         (db <~ get_db ;;
          ret (answer
                 (CustomerCase.status
                    <$> filter
                          (fun c =>
                             String.eqb (CustomerCase.tenant_id c) tenantId
                             && eq_opt (CustomerCase.telecaller_id c)
                                       telecallerId)
                          (customer_cases db)))) ;;
  match error r with
  | Some _ => throw "Failed to fetch telecaller case stats"
  | None =>
      let cases := default [] (data r) in
      ret {| CaseStats.total := length cases;
             CaseStats.new := count_status CustomerCase.new cases;
             CaseStats.assigned := count_status CustomerCase.assigned cases;
             CaseStats.inProgress :=
               count_status CustomerCase.in_progress cases;
             CaseStats.closed := count_status CustomerCase.closed cases |}
  end.

Definition getCasesByTelecaller (tenantId empId : string)
  : Service (list CustomerCase.t) :=
  try_catch
    (found <~ supabase.call
       (db <~ get_db ;;
        ret (maybeSingle
               (filter
                  (fun e => String.eqb (Employee.tenant_id e) tenantId
                            && String.eqb (Employee.emp_id e) empId
                            && String.eqb (Employee.role e) "Telecaller"
                            && String.eqb (Employee.status e) "active")
                  (employees db)))) ;;
     match error found, data found with
     | Some _, _ => ret []
     | None, None => ret []
     | None, Some employee =>
         byId <~ select_cases_newest_first
           (fun c => String.eqb (CustomerCase.tenant_id c) tenantId
                     && eq_opt (CustomerCase.telecaller_id c)
                               (Employee.id employee)) ;;
         match data byId with
         | None | Some [] =>
             byEmpId <~ select_cases_newest_first
               (fun c => String.eqb (CustomerCase.tenant_id c) tenantId
                         && eq_opt (CustomerCase.assigned_employee_id c)
                                   empId) ;;
             match error byEmpId with
             | Some _ => ret []
             | None => ret (default [] (data byEmpId))
             end
         | Some casesByTelecallerId => ret casesByTelecallerId
         end
     end)
    (fun _ => ret []).

Definition truthy_id (column : option string) : bool :=
  match column with
  | Some x => negb (String.eqb x "")
  | None => false
  end.

Definition getTeamCases (tenantId teamId : string)
  : Service (list (CustomerCase.t * option TelecallerInfo.t)) :=
  try_catch
    (fetched <~ select_cases_newest_first
       (fun c => String.eqb (CustomerCase.tenant_id c) tenantId
                 && eq_opt (CustomerCase.team_id c) teamId) ;;
     match error fetched, data fetched with
     | Some _, _ => throw "Failed to fetch team cases"
     | None, None | None, Some [] => ret []
     | None, Some cases =>
         let telecallerIds :=
           remove_dups
             (omap CustomerCase.telecaller_id
                (filter (fun c => truthy_id (CustomerCase.telecaller_id c))
                   cases)) in
         match telecallerIds with
         | [] => ret ((fun c => (c, None)) <$> cases)
         | _ =>
             tels <~ supabase.call
               (db <~ get_db ;;
                ret (answer
                       ((fun e =>
                           {| TelecallerInfo.id := Employee.id e;
                              TelecallerInfo.name := Employee.name e;
                              TelecallerInfo.emp_id := Employee.emp_id e |})
                          <$> filter
                                (fun e =>
                                   String.eqb (Employee.tenant_id e) tenantId
                                   && existsb (String.eqb (Employee.id e))
                                        telecallerIds)
                                (employees db)))) ;;
             match error tels with
             | Some _ => ret ((fun c => (c, None)) <$> cases)
             | None =>
                 let telecallerMap : gmap string TelecallerInfo.t :=
                   foldl (fun m t => <[TelecallerInfo.id t := t]> m) ∅
                         (default [] (data tels)) in
                 ret ((fun c =>
                         (c,
                          match CustomerCase.telecaller_id c with
                          | Some tel_id =>
                              if truthy_id (Some tel_id)
                              then telecallerMap !! tel_id else None
                          | None => None
                          end)) <$> cases)
             end
         end
     end)
    (fun message => throw message).

(** [from(CUSTOMER_CASE_TABLE).delete().eq('id', caseId)]; the call log
    refers to the case [ON DELETE CASCADE]. *)
Definition deleteCase (caseId : string) : Service unit :=
  r <~ supabase.call
         (modify_db (fun db =>
            with_case_call_logs
              (filter (fun l => negb (String.eqb (CallLog.case_id l) caseId))
                 (case_call_logs db))
              (with_customer_cases
                 (filter (fun c => negb (supabase.has_id caseId c))
                    (customer_cases db))
                 db)) ;;;
          ret (answer tt)) ;;
  match error r with
  | Some _ => throw "Failed to delete case"
  | None => ret tt
  end.

End caseQueries.

(* ===================================================================== *)
(** * AssignCasesModal *)
(* ===================================================================== *)

Module ErrorDetail.
Record t : Type := { caseId : string; error : string }.
End ErrorDetail.

Module AssignmentResult.
Record t : Type := {
  total : nat;
  success : nat;
  errors : nat;
  errorDetails : list ErrorDetail.t;
  action : string
}.
End AssignmentResult.

Module AssignCasesModal.

Inductive ActionType : Type := assign | unassign | change_team.

(** The string value of the action type. *)
Definition action_name (actionType : ActionType) : string :=
  match actionType with
  | assign => "assign"
  | unassign => "unassign"
  | change_team => "change_team"
  end.

Inductive Notification : Type :=
| error_notification (title message : string)
| success_notification (title message : string)
| warning_notification (title message : string).

(** The props and state the handlers read. *)
Record State : Type := {
  user_id : string;
  tenantId : option string;
  selectedTeam : string;
  selectedTelecaller : string;
  (** the selected case ids, in the order of their selection *)
  selectedCases : list string;
  actionType : ActionType
}.

(** [loadTeamCases]: the notification it shows when the read fails. *)
Definition loadTeamCases (st : State) (teamId : string)
  : Service (list Notification) :=
  match tenantId st with
  | Some tenant =>
      if String.eqb tenant "" then ret []
      else
        try_catch
          (caseQueries.getTeamCases tenant teamId ;;; ret [])
          (fun message =>
             ret [error_notification "Error"
                    (if String.eqb message ""
                     then "Failed to load team cases" else message)])
  | None => ret []
  end.

(** The body of the [try] for one case id. *)
Definition apply_action (st : State) (case_id : string) : Service unit :=
  match actionType st with
  | assign =>
      customerCaseService.assignCase case_id
        {| caseId := case_id;
           telecallerId := Some (selectedTelecaller st);
           assignedBy := user_id st |}
  | unassign =>
      customerCaseService.assignCase case_id
        {| caseId := case_id; telecallerId := None;
           assignedBy := user_id st |}
  | change_team =>
      customerCaseService.updateCase case_id
        {| Partial.tenant_id := None; Partial.loan_id := None;
           Partial.customer_name := None;
           Partial.outstanding_amount := None; Partial.case_data := None;
           Partial.team_id := Some (Some (selectedTelecaller st));
           Partial.telecaller_id := None;
           Partial.assigned_employee_id := None; Partial.status := None;
           Partial.case_status := None;
           Partial.total_collected_amount := None;
           Partial.updated_at := None |} ;;;
      ret tt
  end.

(** The [for] loop over the selected case ids, with its two counters and
    the list of errors. *)
Fixpoint run_cases (st : State) (selectedCaseIds : list string)
    (successCount errorCount : nat) (errors : list ErrorDetail.t)
  : Service (nat * nat * list ErrorDetail.t) :=
  match selectedCaseIds with
  | [] => ret (successCount, errorCount, errors)
  | case_id :: rest =>
      counted <~ try_catch
        (apply_action st case_id ;;;
         ret (S successCount, errorCount, errors))
        (fun message =>
           ret (successCount, S errorCount,
                errors ++ [ {| ErrorDetail.caseId :=
                                 String.substring 0 8 case_id;
                               ErrorDetail.error := message |} ])) ;;
      let '(successCount, errorCount, errors) := counted in
      run_cases st rest successCount errorCount errors
  end.

(** The three checks at the head of [handleBulkAssignment]. *)
Definition missing_data (st : State) : option Notification :=
  let none_selected := (length (selectedCases st) =? 0)%nat in
  let no_target := String.eqb (selectedTelecaller st) "" in
  match actionType st with
  | assign =>
      if no_target || none_selected
      then Some (error_notification "Missing Data"
                   "Please select a telecaller and at least one case")
      else None
  | unassign =>
      if none_selected
      then Some (error_notification "Missing Data"
                   "Please select at least one case to unassign")
      else None
  | change_team =>
      if no_target || none_selected
      then Some (error_notification "Missing Data"
                   "Please select a new team and at least one case")
      else None
  end.

(** [handleBulkAssignment]: the notifications it shows and the
    [assignmentResult] it sets. *)
Definition handleBulkAssignment (st : State)
  : Service (list Notification * option AssignmentResult.t) :=
  match missing_data st with
  | Some notification => ret ([notification], None)
  | None =>
      try_catch
        (counted <~ run_cases st (selectedCases st) 0 0 [] ;;
         let '(successCount, errorCount, errors) := counted in
         let result :=
           {| AssignmentResult.total := length (selectedCases st);
              AssignmentResult.success := successCount;
              AssignmentResult.errors := errorCount;
              AssignmentResult.errorDetails := errors;
              AssignmentResult.action := action_name (actionType st) |} in
         shown <~
           (if (0 <? successCount)%nat then
              let actionText :=
                match actionType st with
                | assign => "assigned"
                | unassign => "unassigned"
                | change_team => "moved"
                end in
              reload <~ loadTeamCases st (selectedTeam st) ;;
              ret (success_notification "Operation Complete"
                     ("Successfully " +:+ actionText +:+ " "
                      +:+ pretty successCount +:+ " cases") :: reload)
            else ret []) ;;
         let warned :=
           if (0 <? errorCount)%nat
           then [warning_notification "Operation Completed with Errors"
                   (pretty errorCount +:+ " cases failed to "
                    +:+ action_name (actionType st))]
           else [] in
         ret (shown ++ warned, Some result))
        (fun message =>
           ret ([error_notification "Operation Failed"
                   (if String.eqb message ""
                    then "Failed to " +:+ action_name (actionType st)
                         +:+ " cases"
                    else message)], None))
  end.

(** [handleReassignCase] *)
Definition handleReassignCase (st : State) (case_id newTelecallerId : string)
  : Service (list Notification) :=
  try_catch
    (customerCaseService.assignCase case_id
       {| caseId := case_id; telecallerId := Some newTelecallerId;
          assignedBy := user_id st |} ;;;
     reload <~ loadTeamCases st (selectedTeam st) ;;
     ret (success_notification "Case Reassigned"
            "Case has been reassigned successfully" :: reload))
    (fun message =>
       ret [error_notification "Reassignment Failed"
              (if String.eqb message "" then "Failed to reassign case"
               else message)]).

(** [handleDeleteCase] *)
Definition handleDeleteCase (st : State) (case_id : string)
  : Service (list Notification) :=
  try_catch
    (caseQueries.deleteCase case_id ;;;
     reload <~ loadTeamCases st (selectedTeam st) ;;
     ret (success_notification "Case Deleted"
            "Case has been successfully deleted" :: reload))
    (fun message =>
       ret [error_notification "Delete Failed"
              (if String.eqb message "" then "Failed to delete case"
               else message)]).

End AssignCasesModal.


(* ===================================================================== *)
(** * Vocabulary of the statements, and sample data *)
(* ===================================================================== *)

(** A data row whose EMPID cell is missing ([undefined], [null], or beyond
    the end of the row) or the empty string. *)
Definition empid_cell_blank (empIdIndex : nat) (row : list JS.value) : bool :=
  match JS.index row empIdIndex with
  | JS.Undefined | JS.Null => true
  | JS.Str s => String.eqb s ""
  | _ => false
  end.


Definition sample_columns : list excelUtils.ColumnConfiguration :=
  [ {| excelUtils.column_name := "customerName";
       excelUtils.display_name := "Customer Name";
       excelUtils.is_active := true |};
    {| excelUtils.column_name := "loanId";
       excelUtils.display_name := "Loan ID";
       excelUtils.is_active := true |} ].



(** A sheet with three data rows, one of them without an EMPID cell. *)
Definition sheet_with_blank_empid : list (list JS.value) :=
  [ [JS.Str "EMPID"; JS.Str "Customer Name"; JS.Str "Loan ID"];
    [JS.Str "E1"; JS.Str "Asha"; JS.Str "LN1"];
    [JS.Str ""; JS.Str "Ravi"; JS.Str "LN2"];
    [JS.Str "E3"; JS.Str "Mala"; JS.Str "LN3"] ].

(** The entry recordPayment appends to the call log. *)
Definition payment_entry (caseId employeeId : string) (amount : JS.number)
    (notes : string) : CallLog.t :=
  {| CallLog.case_id := caseId;
     CallLog.employee_id := employeeId;
     CallLog.call_status := "PAYMENT_RECEIVED";
     CallLog.ptp_date := None;
     CallLog.call_notes := Some notes;
     CallLog.call_duration := None;
     CallLog.amount_collected := Some amount |}.

(** The rows of [customer_cases] with a given id. *)
Definition rows_with_id (caseId : string) (db : Db) : list CustomerCase.t :=
  filter (fun c => supabase.has_id caseId c) (customer_cases db).

(** The storage service accepts the next [n] calls. *)
Definition accepts (n : nat) (db : Db) : Prop :=
  Forall (fun f => f = Accept) (take n (faults db)).

(** The update recordPayment sends for the case [c] it fetched. *)
Definition payment_update (timestamp : string) (c : CustomerCase.t)
    (amount : JS.number) : Partial.t :=
  let newTotalCollected :=
    JS.add (customerCaseService.currentCollected c) amount in
  let updateData :=
    Partial.set_updated_at timestamp
      (Partial.set_total_collected_amount newTotalCollected Partial.empty) in
  if JS.le (JS.sub (customerCaseService.outstandingAmount c)
                   newTotalCollected) (JS.Fin 0)
  then Partial.set_status CustomerCase.closed
         (Partial.set_case_status "closed" updateData)
  else updateData.







(** Sample rows and stores. *)
Definition case_row (case_id : string) (outstanding : option string)
    (total : option Q) (working : CustomerCase.Status) (lifecycle : string)
  : CustomerCase.t :=
  {| CustomerCase.id := case_id;
     CustomerCase.tenant_id := "t1";
     CustomerCase.loan_id := "LN-" +:+ case_id;
     CustomerCase.customer_name := Some "Asha";
     CustomerCase.outstanding_amount := outstanding;
     CustomerCase.case_data := None;
     CustomerCase.team_id := Some "team1";
     CustomerCase.telecaller_id := Some "u1";
     CustomerCase.assigned_employee_id := Some "E1";
     CustomerCase.status := Some working;
     CustomerCase.case_status := Some lifecycle;
     CustomerCase.total_collected_amount := total;
     CustomerCase.updated_at := None |}.

Definition telecaller (uuid emp : string) : Employee.t :=
  {| Employee.id := uuid; Employee.tenant_id := "t1"; Employee.name := emp;
     Employee.emp_id := emp; Employee.role := "Telecaller";
     Employee.status := "active" |}.

Definition store (rows : list CustomerCase.t) (fs : list Fault) : Db :=
  {| customer_cases := rows; case_call_logs := [];
     employees := [telecaller "u1" "E1"; telecaller "u2" "E2"];
     faults := fs; next_uuid := 0; now := "2025-11-24T10:00:00.000Z" |}.

(** The case of the scenarios: outstanding 1000, collected 800. *)
Definition case_1000_800 : CustomerCase.t :=
  case_row "c1" (Some "1000") (Some (800 # 1)) CustomerCase.in_progress
    "in_progress".



(** An assignment proper, as opposed to an unassignment: [telecallerId] is
    truthy. *)
Definition is_assignment (assignment : CaseAssignment) : bool :=
  match telecallerId assignment with
  | Some tel_id => negb (String.eqb tel_id "")
  | None => false
  end.

(** The employees with a given id. *)
Definition employees_with_id (employeeId : string) (db : Db)
  : list Employee.t :=
  filter (fun e => String.eqb (Employee.id e) employeeId) (employees db).

(** A case that was fully collected and closed. *)
Definition closed_case : CustomerCase.t :=
  case_row "c4" (Some "1000") (Some (1000 # 1)) CustomerCase.closed "closed".

Definition unassign (case_id : string) : CaseAssignment :=
  {| caseId := case_id; telecallerId := None; assignedBy := "lead1" |}.

Definition assign_to (case_id tel_id : string) : CaseAssignment :=
  {| caseId := case_id; telecallerId := Some tel_id; assignedBy := "lead1" |}.

(** A log-call form that passes the checks of the modal: a call status,
    remarks that are not blank, and a date when the status is a promise to
    pay. *)
Definition form_is_valid (form : CaseDetailsModal.Form) : Prop :=
  CaseDetailsModal.callStatus form <> ""
  /\ JS.trim (CaseDetailsModal.remarks form) <> ""
  /\ (CaseDetailsModal.callStatus form = "PTP"
      \/ CaseDetailsModal.callStatus form = "FUTURE_PTP" ->
      CaseDetailsModal.ptpDate form <> "").



(** A case that was assigned and not yet contacted. *)
Definition assigned_case : CustomerCase.t :=
  case_row "c5" (Some "5000") (Some 0%Q) CustomerCase.assigned "pending".


(** An upload row as the upload screen builds it. *)
Definition upload_row (loan : option string) (EMPID : JS.value) : Partial.t :=
  {| Partial.tenant_id := Some "t1";
     Partial.loan_id := loan;
     Partial.customer_name := Some (Some "Asha");
     Partial.outstanding_amount := Some (Some "1000");
     Partial.case_data := Some (Some {[ "EMPID" := EMPID ]});
     Partial.team_id := Some (Some "team1");
     Partial.telecaller_id := None;
     Partial.assigned_employee_id := None;
     Partial.status := None;
     Partial.case_status := None;
     Partial.total_collected_amount := None;
     Partial.updated_at := None |}.


Definition empty_result : CaseUploadResult :=
  {| totalUploaded := 0; autoAssigned := 0; unassigned := 0; errors := [] |}.



(* ===================================================================== *)
(** * Vocabulary of the further statements *)
(* ===================================================================== *)



(** A display name as the header match normalises it. *)
Definition normalised (s : string) : string := JS.trim (JS.toLowerCase s).

(** A string that is empty or starts with a character that is not white
    space. *)
Definition starts_clean (s : string) : Prop :=
  match s with
  | String a _ => JS.is_whitespace a = false
  | EmptyString => True
  end.

(** What a cell of a parsed template row may hold under the key [k]: the
    sample value of the column of that name, or the sample employee id. *)
Definition template_value (samples : list (string * string)) (empid : string)
    (k v : string) : Prop :=
  v = JS.trim (excelSheets.sample samples k)
  \/ (k = "EMPID" /\ v = JS.trim empid).

(** The sample values the checks of validateCaseData look at. *)
Definition samples_pass_checks (samples : list (string * string))
    (empid : string) : Prop :=
  JS.trim empid <> ""
  /\ (forall k, JS.trim (excelSheets.sample samples k) <> "")
  /\ JSText.ten_digits
       (JSText.digits_only (JS.trim (excelSheets.sample samples "mobileNo")))
     = true
  /\ JSText.isNaN
       (JSText.parseInt (JS.trim (excelSheets.sample samples "dpd")))
     = false.

(** The cases of a telecaller in a tenant, as getTelecallerCaseStats selects
    them. *)
Definition cases_of_telecaller (tenantId telecallerId : string) (db : Db)
  : list CustomerCase.t :=
  filter (fun c => String.eqb (CustomerCase.tenant_id c) tenantId
                   && caseQueries.eq_opt (CustomerCase.telecaller_id c)
                        telecallerId)
         (customer_cases db).

(** An active telecaller of the tenant with the given employee id. *)
Definition active_telecaller (tenantId empId : string) (e : Employee.t)
  : bool :=
  String.eqb (Employee.tenant_id e) tenantId
  && String.eqb (Employee.emp_id e) empId
  && String.eqb (Employee.role e) "Telecaller"
  && String.eqb (Employee.status e) "active".

(** The two tables the services write are the same in both stores. *)
Definition same_tables (db db' : Db) : Prop :=
  customer_cases db' = customer_cases db
  /\ case_call_logs db' = case_call_logs db.

(** The call-log entries of a case, oldest first. *)
Definition logs_of_case (case_id : string) (db : Db) : list CallLog.t :=
  filter (fun l => String.eqb (CallLog.case_id l) case_id)
         (case_call_logs db).

(** A store whose call log holds two payments of case c1, by a known and
    by an unknown employee, around an entry of another case. *)
Definition store_with_call_logs : Db :=
  with_case_call_logs
    [payment_entry "c1" "u1" (JS.Fin (100 # 1)) "first";
     payment_entry "c9" "u2" (JS.Fin (5 # 1)) "other case";
     payment_entry "c1" "nobody" (JS.Fin (50 # 1)) "second"]
    (store [case_1000_800] []).

(** Two versions of a row that differ at most in the columns an assignment
    writes: telecaller_id, assigned_employee_id, status and updated_at. *)
Definition assignment_columns_only (c c' : CustomerCase.t) : Prop :=
  CustomerCase.id c' = CustomerCase.id c
  /\ CustomerCase.tenant_id c' = CustomerCase.tenant_id c
  /\ CustomerCase.loan_id c' = CustomerCase.loan_id c
  /\ CustomerCase.customer_name c' = CustomerCase.customer_name c
  /\ CustomerCase.outstanding_amount c' = CustomerCase.outstanding_amount c
  /\ CustomerCase.case_data c' = CustomerCase.case_data c
  /\ CustomerCase.team_id c' = CustomerCase.team_id c
  /\ CustomerCase.case_status c' = CustomerCase.case_status c
  /\ CustomerCase.total_collected_amount c'
     = CustomerCase.total_collected_amount c.





(** A row after some operations: the same case (identity, key, customer,
    outstanding amount, data and team untouched) whose case_status is what
    it was, or closed. *)
Definition case_kept (c c' : CustomerCase.t) : Prop :=
  CustomerCase.id c' = CustomerCase.id c
  /\ CustomerCase.tenant_id c' = CustomerCase.tenant_id c
  /\ CustomerCase.loan_id c' = CustomerCase.loan_id c
  /\ CustomerCase.customer_name c' = CustomerCase.customer_name c
  /\ CustomerCase.outstanding_amount c' = CustomerCase.outstanding_amount c
  /\ CustomerCase.case_data c' = CustomerCase.case_data c
  /\ CustomerCase.team_id c' = CustomerCase.team_id c
  /\ (CustomerCase.case_status c' = CustomerCase.case_status c
      \/ CustomerCase.case_status c' = Some "closed").

(** The operations a telecaller or a team lead performs on stored cases. *)
Inductive Operation : Type :=
| RecordPayment (caseId employeeId : string) (amount : JS.number)
    (notes : string)
| AssignCase (caseId : string) (assignment : CaseAssignment)
| LogCall (caseData : option CustomerCase.t) (user_id : option string)
    (form : CaseDetailsModal.Form).

(** The store after an operation, whatever the operation returned. *)
Definition perform (op : Operation) (db : Db) : Db :=
  match op with
  | RecordPayment caseId employeeId amount notes =>
      snd (customerCaseService.recordPayment caseId employeeId amount notes db)
  | AssignCase caseId assignment =>
      snd (customerCaseService.assignCase caseId assignment db)
  | LogCall caseData user_id form =>
      snd (CaseDetailsModal.handleStatusUpdateSubmit caseData user_id form db)
  end.

Definition perform_all (ops : list Operation) (db : Db) : Db :=
  foldl (fun db op => perform op db) db ops.

(** A row that carries no assignment: no telecaller, no assigned employee,
    working status new. *)
Definition left_unassigned (c : CustomerCase.t) : Prop :=
  CustomerCase.telecaller_id c = None
  /\ CustomerCase.assigned_employee_id c = None
  /\ CustomerCase.status c = Some CustomerCase.new.

(** The cases of a team in a tenant, in the order of the table. *)
Definition cases_of_team (tenantId teamId : string) (db : Db)
  : list CustomerCase.t :=
  filter (fun c => String.eqb (CustomerCase.tenant_id c) tenantId
                   && caseQueries.eq_opt (CustomerCase.team_id c) teamId)
         (customer_cases db).

(** The telecaller details attached to a case are those of an employee of
    the tenant whose id is the case's telecaller_id. *)
Definition telecaller_of (tenantId : string) (db : Db)
    (entry : CustomerCase.t * option TelecallerInfo.t) : Prop :=
  forall info,
    snd entry = Some info ->
    CustomerCase.telecaller_id (fst entry) = Some (TelecallerInfo.id info)
    /\ exists e,
         e ∈ employees db
         /\ Employee.tenant_id e = tenantId
         /\ Employee.id e = TelecallerInfo.id info
         /\ Employee.name e = TelecallerInfo.name info
         /\ Employee.emp_id e = TelecallerInfo.emp_id info.

(** Two versions of a row that agree on everything but the columns the
    team lead's operations write (team, telecaller, assigned employee,
    working status, time of update). *)
Definition administrative_change (c c' : CustomerCase.t) : Prop :=
  CustomerCase.id c' = CustomerCase.id c
  /\ CustomerCase.tenant_id c' = CustomerCase.tenant_id c
  /\ CustomerCase.loan_id c' = CustomerCase.loan_id c
  /\ CustomerCase.customer_name c' = CustomerCase.customer_name c
  /\ CustomerCase.outstanding_amount c' = CustomerCase.outstanding_amount c
  /\ CustomerCase.case_data c' = CustomerCase.case_data c
  /\ CustomerCase.case_status c' = CustomerCase.case_status c
  /\ CustomerCase.total_collected_amount c'
     = CustomerCase.total_collected_amount c.

(** A notification of success, and a warning. *)
Definition is_success (n : AssignCasesModal.Notification) : bool :=
  match n with
  | AssignCasesModal.success_notification _ _ => true
  | _ => false
  end.

Definition is_warning (n : AssignCasesModal.Notification) : bool :=
  match n with
  | AssignCasesModal.warning_notification _ _ => true
  | _ => false
  end.

(** The state of the modal of a team lead who selected two cases to
    unassign. *)
Definition bulk_unassign_two : AssignCasesModal.State :=
  {| AssignCasesModal.user_id := "lead1";
     AssignCasesModal.tenantId := Some "t1";
     AssignCasesModal.selectedTeam := "team1";
     AssignCasesModal.selectedTelecaller := "";
     AssignCasesModal.selectedCases := ["c1"; "c4"];
     AssignCasesModal.actionType := AssignCasesModal.unassign |}.



Example parseFloat_samples :
  JS.parseFloat "1000" = JS.Fin (1000 # 1) /\
  JS.parseFloat "  450000.50 INR" = JS.Fin (45000050 # 100) /\
  JS.parseFloat "-1.5e2" = JS.Fin (- (150 # 1)) /\
  JS.parseFloat ".5" = JS.Fin (5 # 10) /\
  JS.parseFloat "N/A" = JS.NaN /\
  JS.parseFloat "." = JS.NaN /\
  JS.parseFloat "" = JS.NaN /\
  JS.parseFloat "12e" = JS.Fin (12 # 1) /\
  JS.parseFloat "-Infinity" = JS.NegInfinity.
Proof. vm_compute. repeat split. Qed.

Example string_samples :
  JS.trim (JS.toLowerCase "  EmpId ") = "empid" /\
  JS.toString (JS.Num 42) = "42" /\
  JS.toString (JS.Num (-7)) = "-7" /\
  JS.trim "   " = "".
Proof. vm_compute. repeat split. Qed.

Example parseExcelFile_sample :
  excelUtils.parseExcelFile
    [ [JS.Str "EMPID"; JS.Str "customer name "; JS.Str "Branch"; JS.Str "Loan Id"];
      [JS.Str " E1 "; JS.Str "Asha"; JS.Str "Pune"; JS.Num 77];
      [JS.Undefined; JS.Str "Ravi"; JS.Str "Goa"; JS.Str "LN2"];
      [];
      [JS.Str "E3"; JS.Str "Mala"] ]
    sample_columns
  = Resolved
      [ [("EMPID", "E1"); ("customerName", "Asha"); ("loanId", "77")];
        [("EMPID", "E3"); ("customerName", "Mala"); ("loanId", "")] ].
Proof. vm_compute. reflexivity. Qed.

(* ===================================================================== *)
(** * Properties of parseExcelFile *)
(* ===================================================================== *)

Section ParseExcelFile.

Import excelUtils.

Lemma findIndex_None {A} (p : A -> bool) (arr : list A) :
  findIndex p arr = None <-> Forall (fun x => p x = false) arr.
Proof.
  induction arr as [|x arr IH]; simpl.
  - split; auto.
  - destruct (p x) eqn:Hp.
    + split; [discriminate|].
      intros H. inversion H as [|? ? Hx Hrest]. congruence.
    + destruct (findIndex p arr); simpl.
      * split; [discriminate|].
        intros H. inversion H as [|? ? Hx Hrest]. apply IH in Hrest.
        discriminate.
      * split; auto. intros _. constructor; [assumption|]. now apply IH.
Qed.

Lemma findIndex_Some {A} (p : A -> bool) (arr : list A) (i : nat) :
  findIndex p arr = Some i ->
  exists x, arr !! i = Some x /\ p x = true
            /\ Forall (fun y => p y = false) (take i arr).
Proof.
  revert i. induction arr as [|x arr IH]; intros i; simpl; [discriminate|].
  destruct (p x) eqn:Hp.
  - intros [= <-]. exists x. simpl. auto.
  - destruct (findIndex p arr) as [j|] eqn:Hj; simpl; [|discriminate].
    intros [= <-]. destruct (IH j eq_refl) as (y & Hy & Hpy & Hbefore).
    exists y. simpl. auto.
Qed.

Lemma blank_row_not_kept (empIdIndex : nat) (row : list JS.value) :
  empid_cell_blank empIdIndex row = true -> row_kept empIdIndex row = false.
Proof.
  unfold empid_cell_blank, row_kept.
  destruct (JS.index row empIdIndex) as [| |b|z|s]; simpl; try discriminate;
    intros H; rewrite ?H; apply andb_false_r.
Qed.

Lemma kept_and_blank_rows (empIdIndex : nat) (rows : list (list JS.value)) :
  (length (filter (fun row => row_kept empIdIndex row) rows)
   + length (filter (fun row => empid_cell_blank empIdIndex row) rows)
   <= length rows)%nat.
Proof.
  induction rows as [|row rows IH]; simpl; [lia|].
  rewrite !filter_cons.
  destruct (empid_cell_blank empIdIndex row) eqn:Hb.
  - rewrite (blank_row_not_kept _ _ Hb). simpl. lia.
  - destruct (row_kept empIdIndex row); simpl; lia.
Qed.

Lemma parseExcelFile_resolved (jsonData : list (list JS.value))
    (columns : list ColumnConfiguration) (parsed : list ExcelRow) :
  parseExcelFile jsonData columns = Resolved parsed ->
  exists headers rows empIdIndex,
    jsonData = headers :: rows
    /\ findIndex is_empid_header headers = Some empIdIndex
    /\ parsed = parse_row columns headers empIdIndex
                  <$> filter (fun row => row_kept empIdIndex row) rows.
Proof.
  unfold parseExcelFile.
  destruct jsonData as [|headers [|row rows]]; try discriminate.
  destruct (findIndex is_empid_header headers) as [i|] eqn:Hi;
    [|discriminate].
  destruct (classify_headers columns i headers 0 [] []) as [[|m ms] u];
    [discriminate|].
  intros [= <-]. exists headers, (row :: rows), i. auto.
Qed.

End ParseExcelFile.




(** C10.  Whenever parseExcelFile resolves, the rows it returns are the
    images of the data rows that pass the filter; a data row whose EMPID
    cell is empty or missing never passes it, so the rows returned and the
    rows with a blank EMPID cell together are at most the data rows (the
    resolved value carries no report about the dropped ones).  For some
    sheets strictly fewer rows are returned than the sheet has data rows. *)
Theorem parseExcelFile_drops_rows_without_empid :
  (forall jsonData columns parsed,
      excelUtils.parseExcelFile jsonData columns = Resolved parsed ->
      exists headers rows empIdIndex,
        jsonData = headers :: rows
        /\ excelUtils.findIndex excelUtils.is_empid_header headers
           = Some empIdIndex
        /\ parsed
           = excelUtils.parse_row columns headers empIdIndex
               <$> filter (fun row => excelUtils.row_kept empIdIndex row) rows
        /\ (forall row, empid_cell_blank empIdIndex row = true ->
                        excelUtils.row_kept empIdIndex row = false)
        /\ (length parsed
            + length (filter (fun row => empid_cell_blank empIdIndex row) rows)
            <= length rows)%nat)
  /\ (exists jsonData columns parsed,
         excelUtils.parseExcelFile jsonData columns = Resolved parsed
         /\ (length parsed < length (tail jsonData))%nat).
Proof.
  split.
  - intros jsonData columns parsed H.
    destruct (parseExcelFile_resolved _ _ _ H)
      as (headers & rows & i & -> & Hi & ->).
    exists headers, rows, i. repeat split; try assumption.
    + apply blank_row_not_kept.
    + rewrite length_fmap. apply kept_and_blank_rows.
  - exists sheet_with_blank_empid, sample_columns.
    eexists. split; [vm_compute; reflexivity|]. simpl. lia.
Qed.

Lemma parseExcelFile_drops_rows_without_empid_witness :
  exists parsed,
    excelUtils.parseExcelFile sheet_with_blank_empid sample_columns
    = Resolved parsed
    /\ (length parsed + 1 <= 3)%nat.
Proof.
  eexists. split; [vm_compute; reflexivity|].
  destruct parseExcelFile_drops_rows_without_empid as [H _].
  destruct (H sheet_with_blank_empid sample_columns _ eq_refl)
    as (headers & rows & i & Hsheet & Hi & _ & _ & Hlen).
  injection Hsheet as <- <-.
  vm_compute in Hi. injection Hi as <-.
  exact Hlen.
Defined.

(* ===================================================================== *)
(** * Properties of the storage model *)
(* ===================================================================== *)

Section Storage.

Lemma accepts_next (n : nat) (db : Db) :
  accepts (S n) db ->
  default Accept (head (faults db)) = Accept
  /\ accepts n (with_faults (tail (faults db)) db).
Proof.
  unfold accepts. destruct (faults db) as [|f fs]; simpl.
  - intros _. split; [reflexivity|]. rewrite take_nil. constructor.
  - intros H. inversion H; subst. auto.
Qed.


Lemma apply_id (o : Partial.t) (c : CustomerCase.t) :
  CustomerCase.id (Partial.apply o c) = CustomerCase.id c.
Proof. reflexivity. Qed.

(** An update by id touches the rows with that id, and only their
    columns. *)
Lemma filter_update_rows (caseId : string) (o : Partial.t)
    (rows : list CustomerCase.t) :
  filter (fun c => supabase.has_id caseId c)
         (supabase.update_rows caseId o rows)
  = Partial.apply o <$> filter (fun c => supabase.has_id caseId c) rows.
Proof.
  unfold supabase.update_rows.
  induction rows as [|c rows IH]; [reflexivity|].
  rewrite fmap_cons. destruct (supabase.has_id caseId c) eqn:Hc.
  - rewrite (filter_cons_True _ (Partial.apply o c))
      by (change (Is_true (supabase.has_id caseId c)); now rewrite Hc).
    rewrite (filter_cons_True _ c rows) by now rewrite Hc.
    now rewrite fmap_cons, IH.
  - rewrite !filter_cons_False by now rewrite Hc.
    exact IH.
Qed.

End Storage.

Ltac service_cbv :=
  cbv beta iota zeta delta
    [bind ret throw try_catch get_db modify_db answer failure error data
     supabase.call supabase.next_fault supabase.single
     supabase.select_case_single supabase.insert_call_log
     supabase.update_case_single supabase.update_case supabase.upsert_case
     supabase.select_telecallers supabase.select_employee_single].

Ltac service_cbv_in H :=
  cbv beta iota zeta delta
    [bind ret throw try_catch get_db modify_db answer failure error data
     supabase.call supabase.next_fault supabase.single
     supabase.select_case_single supabase.insert_call_log
     supabase.update_case_single supabase.update_case supabase.upsert_case
     supabase.select_telecallers supabase.select_employee_single] in H.

Ltac store_simpl :=
  cbn [customer_cases case_call_logs employees faults next_uuid now
       with_customer_cases with_case_call_logs with_faults with_next_uuid].

Section RecordPayment.

Import customerCaseService.




End RecordPayment.

Ltac store_simpl_in_all :=
  repeat match goal with
    | H : _ |- _ =>
        progress
          cbn [customer_cases case_call_logs employees faults next_uuid now
               with_customer_cases with_case_call_logs with_faults
               with_next_uuid] in H
    end;
  store_simpl.

Section RecordPaymentOutcomes.

Import customerCaseService.


Lemma recordPayment_resolved (db : Db) (caseId employeeId : string)
    (amount : JS.number) (notes : string) (c' : CustomerCase.t) (db' : Db) :
  recordPayment caseId employeeId amount notes db = (Resolved c', db') ->
  exists c,
    rows_with_id caseId db = [c]
    /\ c' = Partial.apply (payment_update (now db) c amount) c
    /\ customer_cases db'
       = supabase.update_rows caseId (payment_update (now db) c amount)
           (customer_cases db)
    /\ case_call_logs db'
       = case_call_logs db ++ [payment_entry caseId employeeId amount notes].
Proof.
  unfold recordPayment, rows_with_id. intros H. service_cbv_in H.
  repeat (case_match; try discriminate).
  all: simplify_eq.
  all: store_simpl_in_all.
  all: match goal with
       | H1 : ?l = [?a], H2 : ?l = [?b] |- _ =>
           rewrite H1 in H2; injection H2 as <-
       end.
  all: eexists; split; [eassumption|]; unfold payment_update.
  all: match goal with Hle : JS.le _ _ = _ |- _ => rewrite Hle end.
  all: repeat split.
Qed.

Lemma recordPayment_rejected (db : Db) (caseId employeeId : string)
    (amount : JS.number) (notes e : string) (db' : Db) :
  recordPayment caseId employeeId amount notes db = (Rejected e, db') ->
  customer_cases db' = customer_cases db
  /\ (case_call_logs db' = case_call_logs db
      \/ case_call_logs db'
         = case_call_logs db
             ++ [payment_entry caseId employeeId amount notes]).
Proof.
  unfold recordPayment. intros H. service_cbv_in H.
  repeat case_match; try discriminate; simplify_eq; simpl; auto.
Qed.

(** Scenarios of the specification: 200 on the case with outstanding 1000
    and 800 collected closes it at 1000; 100 leaves it open at 900. *)
Example recordPayment_scenario_closing :
  exists c' db',
    recordPayment "c1" "u1" (JS.Fin (200 # 1)) "paid in full"
      (store [case_1000_800] []) = (Resolved c', db')
    /\ customer_cases db' = [c']
    /\ CustomerCase.total_collected_amount c' = Some (1000 # 1)
    /\ CustomerCase.case_status c' = Some "closed"
    /\ CustomerCase.status c' = Some CustomerCase.closed.
Proof. do 2 eexists. vm_compute. repeat split. Qed.

Example recordPayment_scenario_partial :
  exists c' db',
    recordPayment "c1" "u1" (JS.Fin (100 # 1)) "part payment"
      (store [case_1000_800] []) = (Resolved c', db')
    /\ customer_cases db' = [c']
    /\ CustomerCase.total_collected_amount c' = Some (900 # 1)
    /\ CustomerCase.case_status c' = Some "in_progress"
    /\ CustomerCase.status c' = Some CustomerCase.in_progress.
Proof. do 2 eexists. vm_compute. repeat split. Qed.

End RecordPaymentOutcomes.



Section Monotonicity.

Import customerCaseService.






End Monotonicity.



(** C5 (as stated, refuted).  When the case update is refused after the log
    entry was appended, recordPayment rejects, the case keeps its old total,
    and the PAYMENT_RECEIVED entry stays in the call log. *)
Lemma recordPayment_log_entry_survives_failed_update :
  exists db',
    customerCaseService.recordPayment "c1" "u1" (JS.Fin (200 # 1)) "paid"
      (store [case_1000_800] [Accept; Accept; Refuse "connection reset"])
    = (Rejected "Failed to update case", db')
    /\ customer_cases db' = [case_1000_800]
    /\ case_call_logs db'
       = [payment_entry "c1" "u1" (JS.Fin (200 # 1)) "paid"].
Proof. eexists. vm_compute. repeat split. Qed.

(** C5 (amended).  When recordPayment rejects, no row of customer_cases has
    changed, and the call log is either as before (the fetch or the log
    append failed) or longer by exactly the PAYMENT_RECEIVED entry of this
    payment (the case update failed after the append). *)
Theorem recordPayment_failure_effect
    (db db' : Db) (caseId employeeId notes e : string) (amount : JS.number) :
  customerCaseService.recordPayment caseId employeeId amount notes db
  = (Rejected e, db') ->
  customer_cases db' = customer_cases db
  /\ (case_call_logs db' = case_call_logs db
      \/ case_call_logs db'
         = case_call_logs db
             ++ [payment_entry caseId employeeId amount notes]).
Proof. apply recordPayment_rejected. Qed.

Lemma recordPayment_failure_effect_witness :
  exists db',
    customer_cases db' = [case_1000_800]
    /\ (case_call_logs db' = []
        \/ case_call_logs db'
           = [] ++ [payment_entry "c1" "u1" (JS.Fin (200 # 1)) "paid"]).
Proof.
  eexists.
  apply (recordPayment_failure_effect
           (store [case_1000_800] [Accept; Refuse "log table locked"])
           _ "c1" "u1" "paid" "Failed to record payment log"
           (JS.Fin (200 # 1))).
  vm_compute. reflexivity.
Defined.




(* ===================================================================== *)
(** * Properties of assignCase *)
(* ===================================================================== *)

(** C3 (as stated, refuted).  On a closed case an unassignment and an
    assignment both resolve and rewrite the row: the telecaller is cleared
    or replaced and the working status becomes new or assigned. *)
Lemma assignCase_rewrites_closed_case :
  (exists db',
      customerCaseService.assignCase "c4" (unassign "c4")
        (store [closed_case] []) = (Resolved tt, db')
      /\ CustomerCase.status <$> customer_cases db'
         = [Some CustomerCase.new]
      /\ CustomerCase.telecaller_id <$> customer_cases db' = [None])
  /\ (exists db',
         customerCaseService.assignCase "c4" (assign_to "c4" "u2")
           (store [closed_case] []) = (Resolved tt, db')
         /\ CustomerCase.status <$> customer_cases db'
            = [Some CustomerCase.assigned]
         /\ CustomerCase.telecaller_id <$> customer_cases db' = [Some "u2"]
         /\ CustomerCase.assigned_employee_id <$> customer_cases db'
            = [Some "E2"]).
Proof. split; eexists; vm_compute; repeat split. Qed.

(** C3 (amended).  assignCase does not look at case_status.  On a case
    whose case_status is closed, an unassignment, and an assignment whose
    telecaller is found, resolve when the storage service accepts the calls:
    the row then carries the telecaller_id of the request, working status
    new (unassignment) or assigned (assignment), and case_status closed as
    before. *)
Theorem assignCase_on_closed_case
    (db : Db) (case_id : string) (assignment : CaseAssignment)
    (c : CustomerCase.t) :
  rows_with_id case_id db = [c] ->
  CustomerCase.case_status c = Some "closed" ->
  accepts 2 db ->
  (forall tel_id, telecallerId assignment = Some tel_id ->
                  exists tel, employees_with_id tel_id db = [tel]) ->
  exists c' db',
    customerCaseService.assignCase case_id assignment db = (Resolved tt, db')
    /\ rows_with_id case_id db' = [c']
    /\ CustomerCase.case_status c' = Some "closed"
    /\ CustomerCase.telecaller_id c' = telecallerId assignment
    /\ CustomerCase.status c'
       = Some (if is_assignment assignment then CustomerCase.assigned
               else CustomerCase.new)
    /\ (is_assignment assignment = false ->
        CustomerCase.assigned_employee_id c' = None).
Proof.
  intros Hrows Hclosed Hacc Htel.
  destruct (accepts_next _ _ Hacc) as [H1 Hacc1].
  destruct (accepts_next _ _ Hacc1) as [H2 _]. store_simpl_in_all.
  unfold rows_with_id, employees_with_id, is_assignment in *.
  unfold customerCaseService.assignCase.
  destruct (telecallerId assignment) as [tel_id|] eqn:Hid.
  - destruct (Htel tel_id eq_refl) as [tel Hfound].
    destruct (String.eqb tel_id "") eqn:Hempty; simpl negb; cbv iota.
    + service_cbv. store_simpl. rewrite H1. store_simpl.
      do 2 eexists. split; [reflexivity|]. store_simpl.
      rewrite filter_update_rows, Hrows. split; [reflexivity|].
      simpl. rewrite Hclosed. repeat split.
    + service_cbv.
      repeat (store_simpl; first [rewrite H1 | rewrite H2 | rewrite Hfound]).
      do 2 eexists. split; [reflexivity|]. store_simpl.
      rewrite filter_update_rows, Hrows. split; [reflexivity|].
      simpl. rewrite Hclosed. repeat split. discriminate.
  - service_cbv. store_simpl. rewrite H1. store_simpl.
    do 2 eexists. split; [reflexivity|]. store_simpl.
    rewrite filter_update_rows, Hrows. split; [reflexivity|].
    simpl. rewrite Hclosed. repeat split.
Qed.

Lemma assignCase_on_closed_case_witness :
  exists c' db',
    customerCaseService.assignCase "c4" (unassign "c4")
      (store [closed_case] []) = (Resolved tt, db')
    /\ rows_with_id "c4" db' = [c']
    /\ CustomerCase.case_status c' = Some "closed"
    /\ CustomerCase.status c' = Some CustomerCase.new.
Proof.
  destruct (assignCase_on_closed_case (store [closed_case] []) "c4"
              (unassign "c4") closed_case)
    as (c' & db' & Hrun & Hrows & Hclosed & _ & Hstatus & _).
  - reflexivity.
  - reflexivity.
  - constructor.
  - intros tel_id Hid. discriminate Hid.
  - exists c', db'. auto.
Defined.

(* ===================================================================== *)
(** * Properties of handleStatusUpdateSubmit *)
(* ===================================================================== *)

Section LogCall.

Import CaseDetailsModal.

(** Reading the call log for the modal changes no table. *)
Lemma fetchCallLogs_tables (case_id : string) (db : Db) :
  exists logs db',
    fetchCallLogs case_id db = (Resolved logs, db')
    /\ customer_cases db' = customer_cases db
    /\ case_call_logs db' = case_call_logs db.
Proof.
  unfold fetchCallLogs, getCallLogsWithEmployeeDetails. service_cbv.
  repeat case_match; simplify_eq; do 2 eexists; split;
    try reflexivity; split; reflexivity.
Qed.



End LogCall.




(* ===================================================================== *)
(** * Properties of createBulkCases *)
(* ===================================================================== *)

Section BulkUpload.

Import customerCaseService.







(** Every iteration resolves, and counts the row once as uploaded or
    failed and once as auto-assigned or unassigned. *)
Lemma process_row_counts (m : gmap string string) (i : nat)
    (row0 : Partial.t) (acc : CaseUploadResult) (db : Db) :
  exists acc' db',
    process_row m i row0 acc db = (Resolved acc', db')
    /\ (totalUploaded acc' + length (errors acc')
        = S (totalUploaded acc + length (errors acc)))%nat
    /\ (autoAssigned acc' + unassigned acc'
        = S (autoAssigned acc + unassigned acc))%nat.
Proof.
  unfold process_row.
  destruct (auto_assign m row0) as [caseData assigned].
  unfold supabase.upsert_case. service_cbv.
  repeat case_match; simplify_eq; do 2 eexists;
    (split; [reflexivity|]); simpl; rewrite ?length_app; simpl;
    destruct assigned; split; lia.
Qed.

Lemma process_rows_counts (m : gmap string string)
    (cases : list Partial.t) (i : nat) (acc : CaseUploadResult) (db : Db) :
  exists acc' db',
    process_rows m i cases acc db = (Resolved acc', db')
    /\ (totalUploaded acc' + length (errors acc')
        = totalUploaded acc + length (errors acc) + length cases)%nat
    /\ (autoAssigned acc' + unassigned acc'
        = autoAssigned acc + unassigned acc + length cases)%nat.
Proof.
  revert i acc db. induction cases as [|row0 cases IH]; intros i acc db.
  - exists acc, db. simpl. repeat split; lia.
  - destruct (process_row_counts m i row0 acc db)
      as (acc1 & db1 & Hrow & Hup & Has).
    destruct (IH (S i) acc1 db1) as (acc' & db' & Hrows & Hup' & Has').
    exists acc', db'. simpl. unfold bind at 1. rewrite Hrow.
    split; [exact Hrows|]. split; lia.
Qed.

(** The counters of a run that resolves: every row is counted as uploaded
    or failed, and every row, uploaded or not, is counted as auto-assigned
    or unassigned. *)
Lemma createBulkCases_counters (cases : list Partial.t) (db db' : Db)
    (r : CaseUploadResult) :
  createBulkCases cases db = (Resolved r, db') ->
  (totalUploaded r + length (errors r) = length cases)%nat
  /\ (autoAssigned r + unassigned r = length cases)%nat.
Proof.
  unfold createBulkCases. unfold bind at 1.
  destruct (supabase.select_telecallers _ db) as [[resp|e] db1];
    [|discriminate].
  destruct (process_rows_counts (build_telecallerMap (data resp)) cases
              0 empty_result db1) as (acc' & db2 & Hrun & Hup & Has).
  unfold empty_result in Hrun. rewrite Hrun. intros [= <- <-].
  simpl in Hup, Has. split; lia.
Qed.


End BulkUpload.




(** C2.  The summary of a one-row upload whose upsert the store refuses (the
    row has no loan id): nothing was uploaded and nothing stored, one error
    is reported, and still the row is counted as unassigned, so that
    autoAssigned + unassigned differs from totalUploaded.  The second run
    has a row that matches a telecaller and an upsert refused by the storage
    service: the row is counted as auto-assigned though it was not
    uploaded.  In both runs totalUploaded + length(errors) is the number of
    rows. *)
Theorem createBulkCases_counts_rows_that_failed :
  (exists r db',
      customerCaseService.createBulkCases
        [upload_row None (JS.Str "E9")] (store [] [])
      = (Resolved r, db')
      /\ customer_cases db' = []
      /\ totalUploaded r = 0%nat /\ length (errors r) = 1%nat
      /\ autoAssigned r = 0%nat /\ unassigned r = 1%nat
      /\ (autoAssigned r + unassigned r)%nat <> totalUploaded r)
  /\ (exists r db',
         customerCaseService.createBulkCases
           [upload_row (Some "LN1") (JS.Str "E1")]
           (store [] [Accept; Refuse "canceling statement due to timeout"])
         = (Resolved r, db')
         /\ customer_cases db' = []
         /\ totalUploaded r = 0%nat /\ length (errors r) = 1%nat
         /\ autoAssigned r = 1%nat /\ unassigned r = 0%nat
         /\ (autoAssigned r + unassigned r)%nat <> totalUploaded r).
Proof.
  split; do 2 eexists; (split; [vm_compute; reflexivity|]);
    simpl; repeat split; discriminate.
Qed.

(** A run in which every upsert succeeds, for comparison: two rows, one
    matching a telecaller. *)
Example createBulkCases_all_uploaded :
  exists r db',
    customerCaseService.createBulkCases
      [upload_row (Some "LN1") (JS.Str "E1");
       upload_row (Some "LN2") (JS.Str "E9")] (store [] [])
    = (Resolved r, db')
    /\ totalUploaded r = 2%nat /\ autoAssigned r = 1%nat
    /\ unassigned r = 1%nat /\ errors r = []
    /\ CustomerCase.telecaller_id <$> customer_cases db' = [Some "u1"; None]
    /\ CustomerCase.status <$> customer_cases db'
       = [Some CustomerCase.assigned; Some CustomerCase.new].
Proof. do 2 eexists. split; [vm_compute; reflexivity|]. repeat split. Qed.

(* ===================================================================== *)
(** * Further properties of excelUtils *)
(* ===================================================================== *)

Section Trim.

Lemma trimStart_starts_clean (s : string) : starts_clean (JS.trimStart s).
Proof.
  induction s as [|a s IH]; simpl; [exact I|].
  destruct (JS.is_whitespace a) eqn:Ha; [exact IH|exact Ha].
Qed.

Lemma trimStart_clean (s : string) : starts_clean s -> JS.trimStart s = s.
Proof. destruct s as [|a s]; simpl; [reflexivity|]. now intros ->. Qed.

Lemma trimEnd_starts_clean (s : string) :
  starts_clean s -> starts_clean (JS.trimEnd s).
Proof.
  destruct s as [|a s]; simpl; [trivial|]. intros Ha.
  destruct (JS.trimEnd s); rewrite ?Ha; exact Ha.
Qed.

Lemma trimEnd_idempotent (s : string) :
  JS.trimEnd (JS.trimEnd s) = JS.trimEnd s.
Proof.
  induction s as [|a s IH]; simpl; [reflexivity|].
  destruct (JS.trimEnd s) as [|b r] eqn:Hr.
  - destruct (JS.is_whitespace a) eqn:Ha; simpl; [reflexivity|].
    now rewrite Ha.
  - change (JS.trimEnd (String a (String b r))) with
      (match JS.trimEnd (String b r) with
       | EmptyString => if JS.is_whitespace a then EmptyString
                        else String a EmptyString
       | t => String a t
       end).
    now rewrite IH.
Qed.

Lemma trim_idempotent (s : string) : JS.trim (JS.trim s) = JS.trim s.
Proof.
  unfold JS.trim.
  rewrite (trimStart_clean (JS.trimEnd (JS.trimStart s))).
  - apply trimEnd_idempotent.
  - apply trimEnd_starts_clean, trimStart_starts_clean.
Qed.

End Trim.

Section HeaderChecks.

Import excelUtils.

Lemma count_headers_classify (columns : list ColumnConfiguration)
    (empIdIndex : nat) (headers : list JS.value) (index : nat)
    (mapped unmapped unmapped' : list string) :
  fst (excelChecks.count_headers columns empIdIndex headers index
         (length mapped) unmapped)
  = length (fst (classify_headers columns empIdIndex headers index
                   mapped unmapped')).
Proof.
  revert index mapped unmapped unmapped'.
  induction headers as [|h headers IH]; intros index mapped u u';
    [reflexivity|].
  simpl. destruct (negb (index =? empIdIndex)%nat && JS.truthy h);
    [|apply IH].
  destruct (find_column columns (JS.toString h)) as [col|]; [|apply IH].
  specialize (IH (S index)
                (mapped ++ [JS.toString h +:+ " -> " +:+ column_name col])
                u u').
  rewrite length_app in IH. simpl in IH. rewrite Nat.add_1_r in IH. exact IH.
Qed.

End HeaderChecks.

(** X1.  On a sheet with at least one row below the header row,
    validateExcelHeaders answers valid exactly when parseExcelFile resolves:
    the check and the parser agree on the headers. *)
Theorem validateExcelHeaders_agrees_with_parseExcelFile
    (jsonData : list (list JS.value))
    (columns : list excelUtils.ColumnConfiguration) :
  (2 <= length jsonData)%nat ->
  HeaderValidation.valid (excelChecks.validateExcelHeaders jsonData columns)
  = true
  <-> exists parsed,
        excelUtils.parseExcelFile jsonData columns = Resolved parsed.
Proof.
  intros Hlen. destruct jsonData as [|headers [|row rows]];
    simpl in Hlen; try lia.
  unfold excelChecks.validateExcelHeaders, excelUtils.parseExcelFile.
  destruct (excelUtils.findIndex excelUtils.is_empid_header headers) as [i|].
  - pose proof (count_headers_classify columns i headers 0 [] [] []) as Hc.
    cbn [length] in Hc.
    destruct (excelChecks.count_headers columns i headers 0 0 [])
      as [mappedCount unmappedHeaders].
    destruct (excelUtils.classify_headers columns i headers 0 [] [])
      as [mapped unmapped]. simpl in Hc. subst mappedCount.
    destruct mapped as [|m ms]; simpl.
    + split; [discriminate|]. intros [parsed H]. discriminate H.
    + split; [eauto|reflexivity].
  - simpl. split; [discriminate|]. intros [parsed H]. discriminate H.
Qed.

Lemma validateExcelHeaders_agrees_with_parseExcelFile_witness :
  exists parsed,
    excelUtils.parseExcelFile sheet_with_blank_empid sample_columns
    = Resolved parsed.
Proof.
  apply (validateExcelHeaders_agrees_with_parseExcelFile
           sheet_with_blank_empid sample_columns).
  - vm_compute. lia.
  - vm_compute. reflexivity.
Defined.

Section RowShape.

Import excelUtils.








End RowShape.



(** X3.  A sheet written by exportCasesToExcel has one cell per configured
    column in every row, and parseExcelFile refuses it: with at least one
    case and no column whose display name resolves to empid, the import
    rejects the export for its missing EMPID column; an export without
    cases is rejected as empty. *)
Theorem exportCasesToExcel_is_not_importable
    (cases : list (gmap string JS.value))
    (columns : list excelUtils.ColumnConfiguration) :
  Forall (fun col => excelUtils.is_empid_header
                       (JS.Str (excelUtils.display_name col)) = false)
         columns ->
  Forall (fun row => length row = length columns)
         (excelSheets.exportCasesToExcel cases columns)
  /\ excelUtils.parseExcelFile (excelSheets.exportCasesToExcel cases columns)
       columns
     = Rejected (match cases with
                 | [] => excelUtils.EmptyFile
                 | _ => excelUtils.EmpIdColumnNotFound
                 end).
Proof.
  intros Hcols. split.
  - unfold excelSheets.exportCasesToExcel. constructor.
    + now rewrite length_fmap.
    + apply Forall_fmap, Forall_forall. intros case_ _. simpl.
      now rewrite length_fmap.
  - destruct cases as [|case_ cases]; [reflexivity|].
    unfold excelSheets.exportCasesToExcel, excelUtils.parseExcelFile.
    rewrite fmap_cons.
    assert (excelUtils.findIndex excelUtils.is_empid_header
              (JS.Str ∘ excelUtils.display_name <$> columns) = None) as ->.
    { apply findIndex_None. apply Forall_fmap.
      eapply Forall_impl; [exact Hcols|]. intros col Hcol. exact Hcol. }
    reflexivity.
Qed.

Lemma exportCasesToExcel_is_not_importable_witness :
  excelUtils.parseExcelFile
    (excelSheets.exportCasesToExcel
       [ {[ "customerName" := JS.Str "Asha"; "loanId" := JS.Str "LN1" ]} ]
       sample_columns)
    sample_columns
  = Rejected excelUtils.EmpIdColumnNotFound.
Proof.
  apply (exportCasesToExcel_is_not_importable
           [ {[ "customerName" := JS.Str "Asha"; "loanId" := JS.Str "LN1" ]} ]
           sample_columns).
  repeat constructor.
Defined.

Section Template.

Import excelUtils.

Lemma get_assign (k key val : string) (o : ExcelRow) :
  excelChecks.get k (assign key val o)
  = if String.eqb key k then Some val else excelChecks.get k o.
Proof.
  unfold excelChecks.get. induction o as [|[k0 v0] o IH]; simpl.
  - now destruct (String.eqb key k).
  - destruct (String.eqb k0 key) eqn:H0; simpl.
    + apply String.eqb_eq in H0 as ->. now destruct (String.eqb key k).
    + destruct (String.eqb k0 k) eqn:H1; simpl.
      * apply String.eqb_eq in H1 as ->. now rewrite String.eqb_sym, H0.
      * exact IH.
Qed.

Lemma find_column_self (columns : list ColumnConfiguration)
    (col : ColumnConfiguration) :
  NoDup (normalised ∘ display_name <$> columns) -> col ∈ columns ->
  find_column columns (display_name col) = Some col.
Proof.
  unfold find_column. induction columns as [|c columns IH]; intros Hnd Hin.
  - now apply elem_of_nil in Hin.
  - rewrite fmap_cons in Hnd. apply NoDup_cons in Hnd as [Hfresh Hnd].
    simpl. destruct (String.eqb _ _) eqn:Heq.
    + apply String.eqb_eq in Heq.
      apply elem_of_cons in Hin as [-> | Hin]; [reflexivity|].
      exfalso. apply Hfresh. apply list_elem_of_fmap. exists col.
      split; [exact Heq|exact Hin].
    + apply elem_of_cons in Hin as [-> | Hin].
      * now rewrite String.eqb_refl in Heq.
      * now apply IH.
Qed.

Lemma classify_headers_mono (columns : list ColumnConfiguration)
    (empIdIndex : nat) (headers : list JS.value) (index : nat)
    (mapped unmapped : list string) :
  (length mapped
   <= length (fst (classify_headers columns empIdIndex headers index
                     mapped unmapped)))%nat.
Proof.
  revert index mapped unmapped.
  induction headers as [|h headers IH]; intros index mapped unmapped;
    [simpl; lia|].
  simpl. destruct (negb (index =? empIdIndex)%nat && JS.truthy h);
    [|apply IH].
  destruct (find_column columns (JS.toString h)) as [col|]; [|apply IH].
  etransitivity; [|apply IH]. rewrite length_app. simpl. lia.
Qed.

Lemma truthy_Str (s : string) : s <> "" -> JS.truthy (JS.Str s) = true.
Proof. intros H. simpl. apply String.eqb_neq in H. now rewrite H. Qed.

Lemma fill_row_template (columns : list ColumnConfiguration)
    (samples : list (string * string)) (empid : string)
    (cols : list ColumnConfiguration) (pre : list JS.value)
    (rowData : ExcelRow) :
  (0 < length pre)%nat ->
  (forall col, col ∈ cols ->
               find_column columns (display_name col) = Some col
               /\ display_name col <> "") ->
  (forall k v, excelChecks.get k rowData = Some v ->
               template_value samples empid k v) ->
  let row :=
    pre ++ ((fun col => JS.Str (excelSheets.sample samples (column_name col)))
              <$> cols) in
  let result :=
    fill_row columns 0 row (JS.Str ∘ display_name <$> cols) (length pre)
      rowData in
  (forall k v, excelChecks.get k result = Some v ->
               template_value samples empid k v)
  /\ (forall k, is_Some (excelChecks.get k rowData)
                \/ (exists col, col ∈ cols /\ column_name col = k) ->
                is_Some (excelChecks.get k result)).
Proof.
  revert pre rowData. induction cols as [|col cols IH];
    intros pre rowData Hpre Hcols Hgood.
  - split; [exact Hgood|]. intros k [Hk | (col & Hin & _)]; [exact Hk|].
    now apply elem_of_nil in Hin.
  - destruct (Hcols col (list_elem_of_here _ _)) as [Hfind Hname].
    set (sampled :=
           fun col => JS.Str (excelSheets.sample samples (column_name col)))
      in *.
    rewrite !fmap_cons.
    assert (JS.index (pre ++ sampled col :: (sampled <$> cols)) (length pre)
            = sampled col) as Hidx.
    { unfold JS.index. now rewrite list_lookup_middle. }
    assert ((length pre =? 0)%nat = false) as Hzero
      by (apply Nat.eqb_neq; lia).
    cbn [fill_row]. rewrite Hzero.
    change ((JS.Str ∘ display_name) col) with (JS.Str (display_name col)).
    rewrite (truthy_Str _ Hname). cbn [negb andb JS.toString].
    rewrite Hfind, Hidx.
    change (sampled col)
      with (JS.Str (excelSheets.sample samples (column_name col))) at 1 2.
    cbn beta iota. cbn [JS.toString].
    specialize (IH (pre ++ [sampled col])
                  (assign (column_name col)
                     (JS.trim (excelSheets.sample samples (column_name col)))
                     rowData)).
    rewrite length_app, Nat.add_1_r, <- app_assoc in IH.
    destruct IH as [IHgood IHsome].
    + lia.
    + intros c Hc. apply Hcols. now apply list_elem_of_further.
    + intros k v. rewrite get_assign.
      destruct (String.eqb (column_name col) k) eqn:Hk.
      * apply String.eqb_eq in Hk as <-. intros [= <-]. now left.
      * apply Hgood.
    + split; [exact IHgood|].
      intros k Hk. apply IHsome. rewrite get_assign.
      destruct (String.eqb (column_name col) k) eqn:Hck.
      * left. eexists. reflexivity.
      * destruct Hk as [Hk | (c & Hin & Hc)]; [now left|].
        apply elem_of_cons in Hin as [-> | Hin].
        -- apply String.eqb_neq in Hck. contradiction.
        -- right. eauto.
Qed.

Lemma validateCaseData_passes (row : ExcelRow)
    (columns : list ColumnConfiguration) :
  excelChecks.blank "EMPID" row = false ->
  excelChecks.blank "customerName" row = false ->
  excelChecks.blank "loanId" row = false ->
  (forall v, excelChecks.get "mobileNo" row = Some v ->
             JSText.ten_digits (JSText.digits_only v) = true) ->
  (forall v, excelChecks.get "dpd" row = Some v ->
             JSText.isNaN (JSText.parseInt v) = false) ->
  RowValidation.valid (excelChecks.validateCaseData row columns) = true.
Proof.
  intros He Hc Hl Hm Hd. unfold excelChecks.validateCaseData.
  rewrite He. simpl. rewrite Hc, Hl.
  destruct (excelChecks.get "mobileNo" row) as [m|];
    [rewrite (Hm m eq_refl), andb_false_r|];
    (destruct (excelChecks.get "dpd" row) as [d|];
     [rewrite (Hd d eq_refl), andb_false_r|]); reflexivity.
Qed.

(** A sample row of the template, parsed and checked. *)
Lemma template_row_valid (columns : list ColumnConfiguration)
    (samples : list (string * string)) (empid : string) :
  samples_pass_checks samples empid ->
  NoDup (normalised ∘ display_name <$> columns) ->
  Forall (fun col => display_name col <> "") columns ->
  existsb (fun col => String.eqb (column_name col) "customerName") columns
  = true ->
  existsb (fun col => String.eqb (column_name col) "loanId") columns = true ->
  let headers := JS.Str "EMPID" :: (JS.Str ∘ display_name <$> columns) in
  let row :=
    JS.Str empid
      :: ((fun col => JS.Str (excelSheets.sample samples (column_name col)))
            <$> columns) in
  RowValidation.valid
    (excelChecks.validateCaseData (parse_row columns headers 0 row) columns)
  = true.
Proof.
  intros (Hempid & Hsample & Hmobile & Hdpd) Hnd Hnames Hcust Hloan
    headers row.
  destruct (fill_row_template columns samples empid columns [JS.Str empid]
              [("EMPID", JS.trim empid)]) as [Hgood Hsome].
  { simpl. lia. }
  { intros col Hin. split; [now apply find_column_self|].
    rewrite Forall_forall in Hnames. now apply Hnames. }
  { intros k v.
    change [("EMPID", JS.trim empid)]
      with (assign "EMPID" (JS.trim empid) []).
    rewrite get_assign.
    destruct (String.eqb "EMPID" k) eqn:Hk; [|discriminate].
    apply String.eqb_eq in Hk as <-. intros [= <-]. now right. }
  change (fill_row columns 0
            ([JS.Str empid]
               ++ ((fun col => JS.Str (excelSheets.sample samples
                                         (column_name col))) <$> columns))
            (JS.Str ∘ display_name <$> columns) (length [JS.Str empid])
            [("EMPID", JS.trim empid)])
    with (parse_row columns headers 0 row) in Hgood, Hsome.
  assert (forall k, is_Some (excelChecks.get k (parse_row columns headers 0 row))
                    -> excelChecks.blank k (parse_row columns headers 0 row)
                       = false) as Hblank.
  { intros k [v Hv]. unfold excelChecks.blank. rewrite Hv.
    assert (JS.trim v = v /\ v <> "") as [-> Hne].
    { destruct (Hgood k v Hv) as [-> | [_ ->]];
        (split; [apply trim_idempotent|]); auto. }
    apply String.eqb_neq in Hne. now rewrite Hne. }
  assert (forall name,
             existsb (fun col => String.eqb (column_name col) name) columns
             = true ->
             exists col, col ∈ columns /\ column_name col = name) as Hcol.
  { intros name Hex. apply existsb_exists in Hex as (col & Hin & Hname).
    exists col. split; [now apply list_elem_of_In|].
    now apply String.eqb_eq. }
  apply validateCaseData_passes.
  - apply Hblank, Hsome. left. eexists. unfold excelChecks.get. reflexivity.
  - apply Hblank, Hsome. right. now apply Hcol.
  - apply Hblank, Hsome. right. now apply Hcol.
  - intros v Hv. destruct (Hgood _ _ Hv) as [-> | [Hk _]];
      [exact Hmobile|discriminate Hk].
  - intros v Hv. destruct (Hgood _ _ Hv) as [-> | [Hk _]];
      [exact Hdpd|discriminate Hk].
Qed.

End Template.

Section TemplateSamples.

Lemma sample_in_table (samples : list (string * string)) (k : string) :
  excelSheets.sample samples k ∈ "n/a" :: (snd <$> samples).
Proof.
  unfold excelSheets.sample.
  destruct (List.find (fun kv => String.eqb (fst kv) k) samples)
    as [kv|] eqn:Hfind; simpl.
  - apply find_some in Hfind as [Hin _]. apply list_elem_of_further.
    apply list_elem_of_fmap. exists kv. split; [reflexivity|].
    now apply list_elem_of_In.
  - apply list_elem_of_here.
Qed.

Lemma samples_pass (samples : list (string * string)) (empid : string) :
  JS.trim empid <> "" ->
  Forall (fun v => JS.trim v <> "") ("n/a" :: (snd <$> samples)) ->
  JSText.ten_digits
    (JSText.digits_only (JS.trim (excelSheets.sample samples "mobileNo")))
  = true ->
  JSText.isNaN (JSText.parseInt (JS.trim (excelSheets.sample samples "dpd")))
  = false ->
  samples_pass_checks samples empid.
Proof.
  intros He Hall Hm Hd. repeat split; try assumption.
  intros k. rewrite Forall_forall in Hall. apply Hall, sample_in_table.
Qed.

Lemma sample_row_1_passes :
  samples_pass_checks excelSheets.sample_row_1 "EMP001".
Proof.
  apply samples_pass; [discriminate| |reflexivity|reflexivity].
  repeat constructor; discriminate.
Qed.

Lemma sample_row_2_passes :
  samples_pass_checks excelSheets.sample_row_2 "EMP002".
Proof.
  apply samples_pass; [discriminate| |reflexivity|reflexivity].
  repeat constructor; discriminate.
Qed.

End TemplateSamples.

(** X4.  The template is accepted by the import it is made for.  When the
    configured display names are not empty and are pairwise different after
    lower-casing and trimming, the rows generateTemplate writes are parsed
    by parseExcelFile into exactly two rows, the two samples, and both pass
    validateCaseData. *)
Theorem generateTemplate_round_trip
    (columns : list excelUtils.ColumnConfiguration)
    (sheet : list (list JS.value)) :
  excelSheets.generateTemplate columns = Resolved sheet ->
  NoDup (normalised ∘ excelUtils.display_name <$> columns) ->
  Forall (fun col => excelUtils.display_name col <> "") columns ->
  exists row1 row2,
    excelUtils.parseExcelFile sheet columns = Resolved [row1; row2]
    /\ RowValidation.valid (excelChecks.validateCaseData row1 columns) = true
    /\ RowValidation.valid (excelChecks.validateCaseData row2 columns) = true.
Proof.
  unfold excelSheets.generateTemplate. intros Hgen Hnd Hnames.
  destruct (existsb (fun col => String.eqb (excelUtils.column_name col)
                                  "customerName") columns) eqn:Hcust;
    [|discriminate].
  destruct (existsb (fun col => String.eqb (excelUtils.column_name col)
                                  "loanId") columns) eqn:Hloan;
    [|discriminate].
  simpl in Hgen. injection Hgen as <-.
  set (headers := JS.Str "EMPID"
                    :: (JS.Str ∘ excelUtils.display_name <$> columns)).
  set (row1 := JS.Str "EMP001" :: _). set (row2 := JS.Str "EMP002" :: _).
  exists (excelUtils.parse_row columns headers 0 row1),
         (excelUtils.parse_row columns headers 0 row2).
  split; [|split].
  - unfold excelUtils.parseExcelFile.
    assert (excelUtils.findIndex excelUtils.is_empid_header headers = Some 0%nat)
      as -> by reflexivity.
    destruct columns as [|col0 cols]; [discriminate Hcust|].
    assert (excelUtils.find_column (col0 :: cols)
              (excelUtils.display_name col0) = Some col0) as Hfind
      by (apply find_column_self; [assumption|apply list_elem_of_here]).
    assert (excelUtils.display_name col0 <> "") as Hname0
      by now inversion Hnames.
    pose proof (classify_headers_mono (col0 :: cols) 0
                  (JS.Str ∘ excelUtils.display_name <$> cols) 2
                  ([] ++ [JS.toString (JS.Str (excelUtils.display_name col0))
                          +:+ " -> " +:+ excelUtils.column_name col0]) [])
      as Hmono.
    assert (excelUtils.classify_headers (col0 :: cols) 0 headers 0 [] []
            = excelUtils.classify_headers (col0 :: cols) 0
                (JS.Str ∘ excelUtils.display_name <$> cols) 2
                ([] ++ [JS.toString (JS.Str (excelUtils.display_name col0))
                        +:+ " -> " +:+ excelUtils.column_name col0]) [])
      as ->.
    { subst headers. rewrite fmap_cons.
      change ((JS.Str ∘ excelUtils.display_name) col0)
        with (JS.Str (excelUtils.display_name col0)).
      cbn [excelUtils.classify_headers Nat.eqb negb andb].
      rewrite (truthy_Str _ Hname0). cbn [JS.toString]. now rewrite Hfind. }
    destruct (excelUtils.classify_headers _ _ _ _ _ _) as [[|m ms] u];
      [simpl in Hmono; lia|].
    rewrite !filter_cons_True, filter_nil by reflexivity. reflexivity.
  - apply template_row_valid; try assumption. apply sample_row_1_passes.
  - apply template_row_valid; try assumption. apply sample_row_2_passes.
Qed.

Lemma generateTemplate_round_trip_witness :
  exists sheet row1 row2,
    excelSheets.generateTemplate sample_columns = Resolved sheet
    /\ excelUtils.parseExcelFile sheet sample_columns = Resolved [row1; row2]
    /\ RowValidation.valid (excelChecks.validateCaseData row1 sample_columns)
       = true.
Proof.
  eexists.
  destruct (generateTemplate_round_trip sample_columns _ eq_refl)
    as (row1 & row2 & Hparse & Hvalid & _).
  - apply NoDup_cons_2; [|apply NoDup_singleton].
    intros Hin. apply list_elem_of_singleton in Hin. discriminate Hin.
  - repeat constructor; discriminate.
  - exists row1, row2. split; [reflexivity|]. split; assumption.
Defined.

(* ===================================================================== *)
(** * Further properties of customerCaseService: the queries *)
(* ===================================================================== *)

Section Queries.

Import caseQueries.

Lemma status_counts (statuses : list (option CustomerCase.Status)) :
  (count_status CustomerCase.new statuses
   + count_status CustomerCase.assigned statuses
   + count_status CustomerCase.in_progress statuses
   + count_status CustomerCase.closed statuses
   + length (filter (fun x => x = None) statuses)
   = length statuses)%nat.
Proof.
  unfold count_status. induction statuses as [|x statuses IH]; [reflexivity|].
  rewrite !filter_cons. destruct x as [[]|]; simpl; lia.
Qed.

Lemma Forall_rev_filter {A} (p : A -> bool) (P : A -> Prop) (l : list A) :
  (forall x, x ∈ l -> p x = true -> P x) ->
  Forall P (rev (filter (fun x => p x) l)).
Proof.
  intros H. apply Forall_forall. intros x Hx.
  apply list_elem_of_In, in_rev, list_elem_of_In in Hx.
  apply list_elem_of_filter in Hx as [Hp Hx].
  apply H; [assumption|]. now destruct (p x).
Qed.

End Queries.

(** X5.  The counts of getTelecallerCaseStats: total is the number of cases
    of the telecaller in the tenant, and the four status counts together
    with the cases that have no working status add up to it; the four
    counts alone never exceed the total.  The query changes no table. *)
Theorem getTelecallerCaseStats_counts
    (tenantId telecallerId : string) (db db' : Db) (s : CaseStats.t) :
  caseQueries.getTelecallerCaseStats tenantId telecallerId db
  = (Resolved s, db') ->
  let mine := cases_of_telecaller tenantId telecallerId db in
  CaseStats.total s = length mine
  /\ (CaseStats.new s + CaseStats.assigned s + CaseStats.inProgress s
      + CaseStats.closed s
      + length (filter (fun c => CustomerCase.status c = None) mine)
      = CaseStats.total s)%nat
  /\ same_tables db db'.
Proof.
  intros H mine. unfold caseQueries.getTelecallerCaseStats in H.
  service_cbv_in H.
  repeat (case_match; try discriminate); simplify_eq.
  fold (cases_of_telecaller tenantId telecallerId db). fold mine.
  cbn [default CaseStats.total CaseStats.new CaseStats.assigned
       CaseStats.inProgress CaseStats.closed].
  unfold id. split; [now rewrite length_fmap|]. split; [|split; reflexivity].
  rewrite <- (status_counts (CustomerCase.status <$> mine)).
  f_equal. clear. induction mine as [|c mine IH]; [reflexivity|].
  rewrite fmap_cons, !filter_cons. simpl.
  destruct (CustomerCase.status c); simpl; now rewrite IH.
Qed.

Lemma getTelecallerCaseStats_counts_witness :
  exists s db',
    caseQueries.getTelecallerCaseStats "t1" "u1"
      (store [case_1000_800; closed_case; assigned_case] [])
    = (Resolved s, db')
    /\ CaseStats.total s = 3%nat
    /\ (CaseStats.new s + CaseStats.assigned s + CaseStats.inProgress s
        + CaseStats.closed s + 0 = CaseStats.total s)%nat.
Proof.
  do 2 eexists. split; [vm_compute; reflexivity|].
  destruct (getTelecallerCaseStats_counts "t1" "u1"
              (store [case_1000_800; closed_case; assigned_case] [])
              _ _ eq_refl) as (Htotal & Hsum & _).
  split; [exact Htotal|exact Hsum].
Defined.

Lemma fst_paired {A B : Type} (f : A -> B) (l : list A) :
  fst <$> ((fun x => (x, f x)) <$> l) = l.
Proof.
  induction l as [|x l IH]; csimpl; [reflexivity|]. now rewrite IH.
Qed.

(** What getCallLogsWithEmployeeDetails returns when it resolves. *)
Lemma getCallLogsWithEmployeeDetails_resolved
    (case_id : string) (db db' : Db) (r : list (CallLog.t * string)) :
  CaseDetailsModal.getCallLogsWithEmployeeDetails case_id db
  = (Resolved r, db') ->
  fst <$> r = rev (logs_of_case case_id db)
  /\ Forall (fun entry => snd entry <> "") r
  /\ same_tables db db'.
Proof.
  intros H. unfold CaseDetailsModal.getCallLogsWithEmployeeDetails in H.
  unfold logs_of_case. service_cbv_in H.
  repeat (case_match; try discriminate); simplify_eq; store_simpl_in_all.
  all: repeat match goal with
         | Heq : rev _ = _ |- _ => rewrite Heq
         end.
  all: split; [|split; [|split; reflexivity]].
  all: try reflexivity; try (constructor; fail).
  all: try (rewrite <- list_fmap_compose; apply list_fmap_id).
  all: try (simpl; f_equal; apply fst_paired).
  all: apply Forall_cons; split;
    [|apply Forall_fmap, Forall_forall; intros l _]; simpl;
    try discriminate.
  all: repeat case_match; try discriminate.
  all: unfold CaseDetailsModal.non_empty in *.
  all: match goal with
       | Hn : negb (String.eqb ?n "") = true |- ?n <> "" =>
           intros ->; discriminate Hn
       end.
Qed.

(** X6.  getCallLogsWithEmployeeDetails, when it resolves, returns exactly
    the call-log entries of the case, the most recent first, each with an
    employee name that is never empty (the name of the employee, or
    Unknown); it changes no table. *)
Theorem getCallLogsWithEmployeeDetails_newest_first
    (case_id : string) (db db' : Db) (r : list (CallLog.t * string)) :
  CaseDetailsModal.getCallLogsWithEmployeeDetails case_id db
  = (Resolved r, db') ->
  fst <$> r = rev (logs_of_case case_id db)
  /\ Forall (fun entry => snd entry <> "") r
  /\ same_tables db db'.
Proof. apply getCallLogsWithEmployeeDetails_resolved. Qed.

Lemma getCallLogsWithEmployeeDetails_newest_first_witness :
  exists r db',
    CaseDetailsModal.getCallLogsWithEmployeeDetails "c1" store_with_call_logs
    = (Resolved r, db')
    /\ r = [(payment_entry "c1" "nobody" (JS.Fin (50 # 1)) "second", "Unknown");
            (payment_entry "c1" "u1" (JS.Fin (100 # 1)) "first", "E1")]
    /\ fst <$> r = rev (logs_of_case "c1" store_with_call_logs).
Proof.
  do 2 eexists. split; [vm_compute; reflexivity|]. split; [reflexivity|].
  eapply (getCallLogsWithEmployeeDetails_newest_first "c1" store_with_call_logs).
  vm_compute. reflexivity.
Defined.

Lemma filter_singleton {A} (p : A -> bool) (l : list A) (x : A) :
  filter (fun y => p y) l = [x] -> x ∈ l /\ p x = true.
Proof.
  intros H. assert (Hx : x ∈ filter (fun y => p y) l) by (rewrite H; left).
  apply list_elem_of_filter in Hx as [Hp Hx]. split; [assumption|].
  now destruct (p x).
Qed.

Lemma eq_opt_true (column : option string) (v : string) :
  caseQueries.eq_opt column v = true -> column = Some v.
Proof.
  destruct column as [x|]; simpl; [|discriminate].
  now intros ->%String.eqb_eq.
Qed.

(** X7.  getCasesByTelecaller never rejects: whatever the storage answers,
    it resolves, changes no table, and every case it returns is a stored
    case of the tenant for which an active telecaller of the tenant with
    the given employee id exists, the case carrying that telecaller's
    identifier or the employee id itself. *)
Theorem getCasesByTelecaller_never_rejects (tenantId empId : string) (db : Db) :
  exists r db',
    caseQueries.getCasesByTelecaller tenantId empId db = (Resolved r, db')
    /\ same_tables db db'
    /\ Forall
         (fun c =>
            c ∈ customer_cases db
            /\ CustomerCase.tenant_id c = tenantId
            /\ exists e,
                 e ∈ employees db
                 /\ active_telecaller tenantId empId e = true
                 /\ (CustomerCase.telecaller_id c = Some (Employee.id e)
                     \/ CustomerCase.assigned_employee_id c = Some empId))
         r.
Proof.
  unfold caseQueries.getCasesByTelecaller, caseQueries.select_cases_newest_first,
    caseQueries.maybeSingle.
  service_cbv.
  repeat (case_match; try discriminate); simplify_eq; store_simpl_in_all.
  all: do 2 eexists; split; [reflexivity|]; split; [split; reflexivity|].
  all: try (constructor; fail).
  all: match goal with
       | Hf : filter _ (employees _) = [_] |- _ =>
           apply filter_singleton in Hf as [He Hact]
       end.
  all: try match goal with
         | Heq : rev _ = ?l |- Forall _ ?l => rewrite <- Heq
         end.
  all: cbn [default]; unfold id; apply Forall_rev_filter.
  all: intros c Hc [Htenant Hcol%eq_opt_true]%andb_prop.
  all: apply String.eqb_eq in Htenant.
  all: split; [assumption|]; split; [assumption|].
  all: exists t; split; [assumption|]; split; [assumption|].
  all: first [left; assumption | right; assumption].
Qed.

Section UpdateRows.

Lemma update_rows_Forall2 (P : CustomerCase.t -> CustomerCase.t -> Prop)
    (caseId : string) (o : Partial.t) (rows : list CustomerCase.t) :
  (forall c, supabase.has_id caseId c = false -> P c c) ->
  (forall c, supabase.has_id caseId c = true -> P c (Partial.apply o c)) ->
  Forall2 P rows (supabase.update_rows caseId o rows).
Proof.
  intros Hother Hsame. unfold supabase.update_rows.
  induction rows as [|c rows IH]; csimpl; constructor; [|exact IH].
  destruct (supabase.has_id caseId c) eqn:Hc; auto.
Qed.

Lemma Forall2_same (P : CustomerCase.t -> CustomerCase.t -> Prop)
    (rows : list CustomerCase.t) :
  (forall c, P c c) -> Forall2 P rows rows.
Proof. intros H. induction rows; constructor; auto. Qed.

Lemma update_rows_none (caseId : string) (o : Partial.t)
    (rows : list CustomerCase.t) :
  filter (fun c => supabase.has_id caseId c) rows = [] ->
  supabase.update_rows caseId o rows = rows.
Proof.
  unfold supabase.update_rows.
  induction rows as [|c rows IH]; [reflexivity|].
  csimpl. destruct (supabase.has_id caseId c) eqn:Hc.
  - rewrite filter_cons_True by now rewrite Hc. discriminate.
  - rewrite filter_cons_False by now rewrite Hc.
    intros H. now rewrite (IH H).
Qed.

End UpdateRows.

(** What assignCase may change, whatever its outcome. *)
Lemma assignCase_changes
    (case_id : string) (assignment : CaseAssignment) (db db' : Db)
    (outcome : settled string unit) :
  customerCaseService.assignCase case_id assignment db = (outcome, db') ->
  case_call_logs db' = case_call_logs db
  /\ employees db' = employees db
  /\ Forall2
       (fun c c' =>
          assignment_columns_only c c'
          /\ (CustomerCase.id c <> case_id -> c' = c))
       (customer_cases db) (customer_cases db')
  /\ (forall e, outcome = Rejected e ->
                customer_cases db' = customer_cases db).
Proof.
  intros H. unfold customerCaseService.assignCase in H. service_cbv_in H.
  repeat (case_match; try discriminate); simplify_eq; store_simpl_in_all.
  all: split; [reflexivity|]; split; [reflexivity|].
  all: split; [|intros msg Hmsg; try discriminate Hmsg; reflexivity].
  all: first
    [ apply Forall2_same; intros c; split; [repeat split|reflexivity]
    | apply update_rows_Forall2; intros c Hc;
      (split; [repeat split|]);
      unfold supabase.has_id in Hc;
      [ reflexivity
      | intros Hne; apply String.eqb_eq in Hc; contradiction ] ].
Qed.


(** X8.  The frame of assignCase.  Whatever the request, the storage
    answers and the outcome, assignCase leaves the call log and the
    employees alone, keeps the rows of customer_cases in place, changes no
    row with another id, and on the rows with the given id changes at most
    telecaller_id, assigned_employee_id, status and updated_at: never the
    amounts, the team or case_status.  When it rejects, no row has changed
    at all. *)
Theorem assignCase_frame
    (case_id : string) (assignment : CaseAssignment) (db db' : Db)
    (outcome : settled string unit) :
  customerCaseService.assignCase case_id assignment db = (outcome, db') ->
  case_call_logs db' = case_call_logs db
  /\ employees db' = employees db
  /\ Forall2
       (fun c c' =>
          assignment_columns_only c c'
          /\ (CustomerCase.id c <> case_id -> c' = c))
       (customer_cases db) (customer_cases db')
  /\ (forall e, outcome = Rejected e ->
                customer_cases db' = customer_cases db).
Proof. apply assignCase_changes. Qed.

Lemma assignCase_frame_witness :
  exists db',
    customerCaseService.assignCase "c1" (assign_to "c1" "u2")
      (store [case_1000_800; closed_case] []) = (Resolved tt, db')
    /\ case_call_logs db' = []
    /\ CustomerCase.total_collected_amount <$> customer_cases db'
       = [Some (800 # 1); Some (1000 # 1)]
    /\ CustomerCase.telecaller_id <$> customer_cases db'
       = [Some "u2"; Some "u1"].
Proof.
  eexists. split; [vm_compute; reflexivity|].
  destruct (assignCase_frame "c1" (assign_to "c1" "u2")
              (store [case_1000_800; closed_case] []) _ _ eq_refl)
    as (Hlogs & _ & _ & _).
  split; [exact Hlogs|]. split; reflexivity.
Defined.

(** X9.  assignCase with a telecaller that the employees table does not
    hold exactly once rejects before it touches the case: no table has
    changed. *)
Theorem assignCase_unknown_telecaller
    (case_id tel_id : string) (assignment : CaseAssignment) (db : Db) :
  telecallerId assignment = Some tel_id ->
  tel_id <> "" ->
  (forall tel, employees_with_id tel_id db <> [tel]) ->
  exists e db',
    customerCaseService.assignCase case_id assignment db = (Rejected e, db')
    /\ same_tables db db'.
Proof.
  intros Hid Hne Hnone. unfold employees_with_id in Hnone.
  unfold customerCaseService.assignCase. rewrite Hid.
  apply String.eqb_neq in Hne. rewrite Hne. simpl negb. cbv iota.
  service_cbv. store_simpl.
  destruct (default Accept (head (faults db))); store_simpl.
  - destruct (filter _ (employees db)) as [|tel [|tel' rest]] eqn:Hf.
    + do 2 eexists. split; [reflexivity|]. split; reflexivity.
    + destruct (Hnone tel eq_refl).
    + do 2 eexists. split; [reflexivity|]. split; reflexivity.
  - do 2 eexists. split; [reflexivity|]. split; reflexivity.
  - do 2 eexists. split; [reflexivity|]. split; reflexivity.
Qed.

Lemma assignCase_unknown_telecaller_witness :
  exists e db',
    customerCaseService.assignCase "c1" (assign_to "c1" "u7")
      (store [case_1000_800] []) = (Rejected e, db')
    /\ same_tables (store [case_1000_800] []) db'.
Proof.
  apply (assignCase_unknown_telecaller "c1" "u7").
  - reflexivity.
  - discriminate.
  - intros tel. vm_compute. discriminate.
Defined.

(** X10.  A case id that no row carries.  assignCase resolves as if it had
    assigned the case, although no table has changed, while updateCase
    with any payload rejects, also without a change. *)
Theorem unknown_case_assignCase_resolves_updateCase_rejects
    (case_id : string) (assignment : CaseAssignment) (updates : Partial.t)
    (db : Db) :
  rows_with_id case_id db = [] ->
  accepts 2 db ->
  (forall tel_id, telecallerId assignment = Some tel_id ->
                  exists tel, employees_with_id tel_id db = [tel]) ->
  (exists db',
      customerCaseService.assignCase case_id assignment db = (Resolved tt, db')
      /\ same_tables db db')
  /\ (exists e db',
         customerCaseService.updateCase case_id updates db = (Rejected e, db')
         /\ same_tables db db').
Proof.
  intros Hrows Hacc Htel.
  destruct (accepts_next _ _ Hacc) as [H1 Hacc1].
  destruct (accepts_next _ _ Hacc1) as [H2 _]. store_simpl_in_all.
  unfold rows_with_id, employees_with_id in *.
  split.
  - unfold customerCaseService.assignCase.
    destruct (telecallerId assignment) as [tel_id|] eqn:Hid.
    + destruct (Htel tel_id eq_refl) as [tel Hfound].
      destruct (String.eqb tel_id "") eqn:Hempty; simpl negb; cbv iota.
      * service_cbv. store_simpl. rewrite H1. store_simpl.
        eexists. split; [reflexivity|]. split; store_simpl; [|reflexivity].
        now apply update_rows_none.
      * service_cbv.
        repeat (store_simpl; first [rewrite H1 | rewrite H2 | rewrite Hfound]).
        eexists. split; [reflexivity|]. split; store_simpl; [|reflexivity].
        now apply update_rows_none.
    + service_cbv. store_simpl. rewrite H1. store_simpl.
      eexists. split; [reflexivity|]. split; store_simpl; [|reflexivity].
      now apply update_rows_none.
  - unfold customerCaseService.updateCase. service_cbv. store_simpl.
    rewrite H1. store_simpl. rewrite Hrows.
    do 2 eexists. split; [reflexivity|]. split; reflexivity.
Qed.

Lemma unknown_case_assignCase_resolves_updateCase_rejects_witness :
  (exists db',
      customerCaseService.assignCase "c9" (assign_to "c9" "u2")
        (store [case_1000_800] []) = (Resolved tt, db')
      /\ same_tables (store [case_1000_800] []) db')
  /\ (exists e db',
         customerCaseService.updateCase "c9"
           (Partial.set_status CustomerCase.in_progress Partial.empty)
           (store [case_1000_800] []) = (Rejected e, db')
         /\ same_tables (store [case_1000_800] []) db').
Proof.
  apply unknown_case_assignCase_resolves_updateCase_rejects.
  - reflexivity.
  - constructor.
  - intros tel_id Hid. injection Hid as <-. eexists. vm_compute. reflexivity.
Defined.

Section AssignThenList.

(** What a resolved assignCase has written. *)
Lemma assignCase_resolved (case_id : string) (assignment : CaseAssignment)
    (db db' : Db) :
  customerCaseService.assignCase case_id assignment db = (Resolved tt, db') ->
  exists o,
    customer_cases db' = supabase.update_rows case_id o (customer_cases db)
    /\ Partial.telecaller_id o = Some (telecallerId assignment)
    /\ Partial.status o
       = Some (Some (if is_assignment assignment then CustomerCase.assigned
                     else CustomerCase.new))
    /\ (is_assignment assignment = false ->
        Partial.assigned_employee_id o = Some None)
    /\ Partial.tenant_id o = None
    /\ Partial.team_id o = None.
Proof.
  intros H. unfold customerCaseService.assignCase in H.
  unfold is_assignment. service_cbv_in H.
  repeat (case_match; try discriminate); simplify_eq; store_simpl_in_all.
  all: eexists; split; [reflexivity|]; simpl; repeat split.
  all: discriminate.
Qed.

Lemma update_rows_elem (caseId : string) (o : Partial.t)
    (rows : list CustomerCase.t) (c : CustomerCase.t) :
  c ∈ supabase.update_rows caseId o rows ->
  CustomerCase.id c = caseId ->
  exists c0, c0 ∈ rows /\ c = Partial.apply o c0.
Proof.
  unfold supabase.update_rows. intros Hin Hid.
  apply list_elem_of_fmap in Hin as (c0 & -> & Hc0).
  exists c0. split; [assumption|].
  destruct (supabase.has_id caseId c0) eqn:Hc; [reflexivity|].
  unfold supabase.has_id in Hc. apply String.eqb_neq in Hc. contradiction.
Qed.

Lemma update_rows_elem_of (caseId : string) (o : Partial.t)
    (rows : list CustomerCase.t) (c : CustomerCase.t) :
  c ∈ rows -> CustomerCase.id c = caseId ->
  Partial.apply o c ∈ supabase.update_rows caseId o rows.
Proof.
  unfold supabase.update_rows. intros Hin Hid.
  apply list_elem_of_fmap. exists c. split; [|assumption].
  unfold supabase.has_id. rewrite Hid, String.eqb_refl. reflexivity.
Qed.

Lemma getUnassignedTeamCases_resolved (tenantId teamId : string)
    (db db' : Db) (r : list CustomerCase.t) :
  caseQueries.getUnassignedTeamCases tenantId teamId db = (Resolved r, db') ->
  r = rev (filter
             (fun c => String.eqb (CustomerCase.tenant_id c) tenantId
                       && caseQueries.eq_opt (CustomerCase.team_id c) teamId
                       && bool_decide (CustomerCase.telecaller_id c = None))
             (customer_cases db)).
Proof.
  intros H.
  unfold caseQueries.getUnassignedTeamCases,
    caseQueries.select_cases_newest_first in H.
  service_cbv_in H.
  repeat (case_match; try discriminate); simplify_eq; store_simpl_in_all.
  reflexivity.
Qed.

End AssignThenList.

(** X11.  getUnassignedTeamCases after assignCase.  When assignCase has
    resolved and the list of unassigned cases of a team is read next: after
    an assignment to a telecaller no case with the given id is in the list;
    after an unassignment (telecallerId null) every case with that id that
    belongs to the tenant and the team is in it, with working status new
    and no assigned employee. *)
Theorem getUnassignedTeamCases_after_assignCase
    (tenantId teamId case_id : string) (assignment : CaseAssignment)
    (db db1 db2 : Db) (r : list CustomerCase.t) :
  customerCaseService.assignCase case_id assignment db = (Resolved tt, db1) ->
  caseQueries.getUnassignedTeamCases tenantId teamId db1 = (Resolved r, db2) ->
  (is_assignment assignment = true ->
   Forall (fun c => CustomerCase.id c <> case_id) r)
  /\ (telecallerId assignment = None ->
      forall c,
        c ∈ customer_cases db ->
        CustomerCase.id c = case_id ->
        CustomerCase.tenant_id c = tenantId ->
        CustomerCase.team_id c = Some teamId ->
        exists c',
          c' ∈ r
          /\ CustomerCase.id c' = case_id
          /\ CustomerCase.status c' = Some CustomerCase.new
          /\ CustomerCase.assigned_employee_id c' = None).
Proof.
  intros Hassign Hlist.
  apply assignCase_resolved in Hassign
    as (o & Hrows & Htel & Hstatus & Hemp & Htenant & Hteam).
  apply getUnassignedTeamCases_resolved in Hlist. subst r. rewrite Hrows.
  split.
  - intros Hproper. apply Forall_rev_filter. intros c Hc Hp Hid.
    apply update_rows_elem in Hc as (c0 & _ & ->); [|assumption].
    apply andb_prop in Hp as [_ Hnone]. apply bool_decide_eq_true in Hnone.
    simpl in Hnone. rewrite Htel in Hnone. simpl in Hnone.
    unfold is_assignment in Hproper. rewrite Hnone in Hproper.
    discriminate.
  - intros Hnone c Hc Hid Hten Hteam'.
    assert (Hun : is_assignment assignment = false)
      by (unfold is_assignment; now rewrite Hnone).
    exists (Partial.apply o c). split.
    + apply list_elem_of_In, in_rev, list_elem_of_In.
      rewrite rev_involutive.
      apply list_elem_of_filter. split.
      * simpl. rewrite Htenant, Hteam, Htel, Hnone. simpl.
        rewrite Hten, Hteam'. simpl. rewrite !String.eqb_refl. exact I.
      * now apply update_rows_elem_of.
    + split; [exact Hid|]. simpl. rewrite Hstatus, (Hemp Hun), Hun.
      split; reflexivity.
Qed.

Lemma getUnassignedTeamCases_after_assignCase_witness :
  exists db1 db2 r,
    customerCaseService.assignCase "c1" (unassign "c1")
      (store [case_1000_800; closed_case] []) = (Resolved tt, db1)
    /\ caseQueries.getUnassignedTeamCases "t1" "team1" db1 = (Resolved r, db2)
    /\ exists c',
         c' ∈ r /\ CustomerCase.id c' = "c1"
         /\ CustomerCase.status c' = Some CustomerCase.new
         /\ CustomerCase.assigned_employee_id c' = None.
Proof.
  do 3 eexists. split; [vm_compute; reflexivity|].
  split; [vm_compute; reflexivity|].
  eapply (getUnassignedTeamCases_after_assignCase "t1" "team1" "c1"
            (unassign "c1") (store [case_1000_800; closed_case] [])).
  - vm_compute. reflexivity.
  - vm_compute. reflexivity.
  - reflexivity.
  - left.
  - reflexivity.
  - reflexivity.
  - reflexivity.
Defined.

Section Delete.

Lemma filter_negb_none {A} (p : A -> bool) (l : list A) :
  filter (fun x => p x) (filter (fun x => negb (p x)) l) = [].
Proof.
  induction l as [|x l IH]; [reflexivity|].
  destruct (p x) eqn:Hp.
  - rewrite (filter_cons_False _ x l) by (rewrite Hp; simpl; tauto).
    exact IH.
  - rewrite (filter_cons_True _ x l) by now rewrite Hp.
    rewrite filter_cons_False by (rewrite Hp; simpl; tauto).
    exact IH.
Qed.

Lemma filter_negb_elem {A} (p : A -> bool) (l : list A) (x : A) :
  p x = false -> x ∈ filter (fun y => negb (p y)) l <-> x ∈ l.
Proof.
  intros Hp. rewrite list_elem_of_filter, Hp. simpl. tauto.
Qed.

Lemma deleteCase_resolved (case_id : string) (db db' : Db) :
  caseQueries.deleteCase case_id db = (Resolved tt, db') ->
  customer_cases db'
  = filter (fun c => negb (supabase.has_id case_id c)) (customer_cases db)
  /\ case_call_logs db'
     = filter (fun l => negb (String.eqb (CallLog.case_id l) case_id))
         (case_call_logs db).
Proof.
  intros H. unfold caseQueries.deleteCase in H. service_cbv_in H.
  repeat (case_match; try discriminate); simplify_eq; store_simpl_in_all.
  split; reflexivity.
Qed.

End Delete.

(** X12.  deleteCase, when it resolves, leaves no row with the given id and
    no call-log entry of that case (the call log refers to the case ON
    DELETE CASCADE), and keeps every other row and entry.  A payment
    recorded on the deleted case afterwards is rejected, whatever the
    storage answers, and writes nothing: no call-log entry is left for a
    case that does not exist. *)
Theorem deleteCase_removes_case_and_logs (case_id : string) (db db' : Db) :
  caseQueries.deleteCase case_id db = (Resolved tt, db') ->
  rows_with_id case_id db' = []
  /\ logs_of_case case_id db' = []
  /\ (forall c, CustomerCase.id c <> case_id ->
                c ∈ customer_cases db' <-> c ∈ customer_cases db)
  /\ (forall l, CallLog.case_id l <> case_id ->
                l ∈ case_call_logs db' <-> l ∈ case_call_logs db)
  /\ (forall employeeId amount notes,
        exists e db'',
          customerCaseService.recordPayment case_id employeeId amount notes db'
          = (Rejected e, db'')
          /\ same_tables db' db'').
Proof.
  intros H. apply deleteCase_resolved in H as [Hrows Hlogs].
  assert (Hnone : rows_with_id case_id db' = []).
  { unfold rows_with_id. rewrite Hrows.
    apply (filter_negb_none (supabase.has_id case_id)). }
  split; [exact Hnone|]. split; [|split; [|split]].
  - unfold logs_of_case. rewrite Hlogs.
    apply (filter_negb_none
             (fun l => String.eqb (CallLog.case_id l) case_id)).
  - intros c Hc. rewrite Hrows.
    apply (filter_negb_elem (supabase.has_id case_id)).
    unfold supabase.has_id. now apply String.eqb_neq.
  - intros l Hl. rewrite Hlogs.
    apply (filter_negb_elem
             (fun l => String.eqb (CallLog.case_id l) case_id)).
    now apply String.eqb_neq.
  - intros employeeId amount notes. unfold rows_with_id in Hnone.
    unfold customerCaseService.recordPayment. service_cbv. store_simpl.
    destruct (default Accept (head (faults db'))); store_simpl.
    + rewrite Hnone. do 2 eexists. split; [reflexivity|]. split; reflexivity.
    + do 2 eexists. split; [reflexivity|]. split; reflexivity.
    + do 2 eexists. split; [reflexivity|]. split; reflexivity.
Qed.

Lemma deleteCase_removes_case_and_logs_witness :
  exists db',
    caseQueries.deleteCase "c1" store_with_call_logs = (Resolved tt, db')
    /\ rows_with_id "c1" db' = []
    /\ logs_of_case "c1" db' = []
    /\ case_call_logs db'
       = [payment_entry "c9" "u2" (JS.Fin (5 # 1)) "other case"].
Proof.
  eexists. split; [vm_compute; reflexivity|].
  destruct (deleteCase_removes_case_and_logs "c1" store_with_call_logs _
              eq_refl) as (Hrows & Hlogs & _).
  split; [exact Hrows|]. split; [exact Hlogs|]. reflexivity.
Defined.

Section Ledger.

Import customerCaseService.







End Ledger.



Section LogCallOutcomes.

(** The two ways handleStatusUpdateSubmit ends: with an error notification
    and no row changed, or with the success notification after both
    writes. *)
Lemma handleStatusUpdateSubmit_outcomes
    (caseData : option CustomerCase.t) (user_id : option string)
    (form : CaseDetailsModal.Form) (db : Db) :
  exists n db',
    CaseDetailsModal.handleStatusUpdateSubmit caseData user_id form db
    = (Resolved n, db')
    /\ ((exists title message,
           n = CaseDetailsModal.error_notification title message
           /\ customer_cases db' = customer_cases db
           /\ (case_call_logs db' = case_call_logs db
               \/ exists entry,
                    case_call_logs db' = case_call_logs db ++ [entry]))
        \/ (exists title message case_ uid entry c,
              n = CaseDetailsModal.success_notification title message
              /\ caseData = Some case_ /\ user_id = Some uid
              /\ case_call_logs db' = case_call_logs db ++ [entry]
              /\ CallLog.case_id entry = CustomerCase.id case_
              /\ CallLog.employee_id entry = uid
              /\ CallLog.call_status entry = CaseDetailsModal.callStatus form
              /\ rows_with_id (CustomerCase.id case_) db = [c]
              /\ customer_cases db'
                 = supabase.update_rows (CustomerCase.id case_)
                     (Partial.set_updated_at (now db)
                        (Partial.set_status CustomerCase.in_progress
                           Partial.empty))
                     (customer_cases db))).
Proof.
  destruct (CaseDetailsModal.handleStatusUpdateSubmit caseData user_id form db)
    as [outcome db'] eqn:H.
  unfold CaseDetailsModal.handleStatusUpdateSubmit,
    CaseDetailsModal.fetchCallLogs,
    CaseDetailsModal.getCallLogsWithEmployeeDetails,
    customerCaseService.addCallLog, customerCaseService.updateCase in H.
  service_cbv_in H. unfold rows_with_id.
  repeat (case_match; try discriminate); simplify_eq; store_simpl_in_all.
  all: do 2 eexists; split; [reflexivity|].
  all: first
    [ left; do 2 eexists; split; [reflexivity|]; split; [reflexivity|];
      first [left; reflexivity | right; eexists; reflexivity]
    | right; do 6 eexists; split; [reflexivity|]; split; [reflexivity|];
      split; [reflexivity|]; split; [reflexivity|]; split; [reflexivity|];
      split; [reflexivity|]; split; [reflexivity|];
      split; [eassumption|reflexivity] ].
Qed.

End LogCallOutcomes.

Section Lifecycle.

Lemma case_kept_refl (c : CustomerCase.t) : case_kept c c.
Proof. unfold case_kept. repeat split. now left. Qed.

Lemma case_kept_trans (c1 c2 c3 : CustomerCase.t) :
  case_kept c1 c2 -> case_kept c2 c3 -> case_kept c1 c3.
Proof.
  unfold case_kept.
  intros (H1 & H2 & H3 & H4 & H5 & H6 & H7 & H8)
         (K1 & K2 & K3 & K4 & K5 & K6 & K7 & K8).
  repeat split; try congruence.
  destruct K8 as [K8|K8]; [|now right].
  destruct H8 as [H8|H8]; [left|right]; congruence.
Qed.

Lemma rows_kept_refl (rows : list CustomerCase.t) :
  Forall2 case_kept rows rows.
Proof. apply Forall2_same, case_kept_refl. Qed.

Lemma rows_kept_trans (r1 r2 r3 : list CustomerCase.t) :
  Forall2 case_kept r1 r2 -> Forall2 case_kept r2 r3 ->
  Forall2 case_kept r1 r3.
Proof.
  intros H12. revert r3.
  induction H12 as [|c1 c2 r1 r2 Hc _ IH]; intros r3 H23;
    inversion H23; subst; constructor.
  - eapply case_kept_trans; eassumption.
  - now apply IH.
Qed.

Lemma recordPayment_kept (caseId employeeId : string) (amount : JS.number)
    (notes : string) (db : Db) :
  Forall2 case_kept (customer_cases db)
    (customer_cases
       (snd (customerCaseService.recordPayment caseId employeeId amount notes
               db))).
Proof.
  destruct (customerCaseService.recordPayment caseId employeeId amount notes db)
    as [[c'|e] db'] eqn:Hrun; simpl.
  - destruct (recordPayment_resolved _ _ _ _ _ _ _ Hrun)
      as (c & _ & _ & -> & _).
    apply update_rows_Forall2; intros r _; [apply case_kept_refl|].
    unfold case_kept, payment_update.
    destruct (JS.le _ _); simpl; repeat split; auto.
  - destruct (recordPayment_rejected _ _ _ _ _ _ _ Hrun) as [-> _].
    apply rows_kept_refl.
Qed.

Lemma assignCase_kept (caseId : string) (assignment : CaseAssignment)
    (db : Db) :
  Forall2 case_kept (customer_cases db)
    (customer_cases (snd (customerCaseService.assignCase caseId assignment db))).
Proof.
  destruct (customerCaseService.assignCase caseId assignment db)
    as [outcome db'] eqn:H; simpl.
  apply assignCase_changes in H as (_ & _ & H & _).
  eapply Forall2_impl; [exact H|].
  intros c c' [(H1 & H2 & H3 & H4 & H5 & H6 & H7 & H8 & _) _].
  unfold case_kept. repeat split; try assumption. now left.
Qed.

Lemma handleStatusUpdateSubmit_kept (caseData : option CustomerCase.t)
    (user_id : option string) (form : CaseDetailsModal.Form) (db : Db) :
  Forall2 case_kept (customer_cases db)
    (customer_cases
       (snd (CaseDetailsModal.handleStatusUpdateSubmit caseData user_id form
               db))).
Proof.
  destruct (handleStatusUpdateSubmit_outcomes caseData user_id form db)
    as (n & db' & Hrun & [(title & message & _ & Hcases & _)
                         |(title & message & case_ & uid & entry & c & _ & _
                           & _ & _ & _ & _ & _ & _ & Hcases)]);
    rewrite Hrun; simpl; rewrite Hcases.
  - apply rows_kept_refl.
  - apply update_rows_Forall2; intros r _; [apply case_kept_refl|].
    unfold case_kept; simpl; repeat split; auto.
Qed.

End Lifecycle.

(** X14.  case_status closed is final.  Along any sequence of payments,
    assignments, unassignments and logged calls, whatever their arguments,
    the storage answers and their outcomes, every stored case stays in
    place with its identity, key, customer, outstanding amount, data and
    team, and its case_status is either what it was or closed: none of
    these operations reopens case_status or moves it to another value. *)
Theorem case_status_changes_only_to_closed (ops : list Operation) (db : Db) :
  Forall2 case_kept (customer_cases db) (customer_cases (perform_all ops db)).
Proof.
  revert db. induction ops as [|op ops IH]; intros db.
  - apply rows_kept_refl.
  - unfold perform_all in *. simpl foldl.
    eapply rows_kept_trans; [|apply IH].
    destruct op; simpl.
    + apply recordPayment_kept.
    + apply assignCase_kept.
    + apply handleStatusUpdateSubmit_kept.
Qed.

(** X15.  A log-call form that fails the checks of the modal never reaches
    the storage service: handleStatusUpdateSubmit answers with an error
    notification and the store, the schedule of its calls included, is
    exactly what it was. *)
Theorem handleStatusUpdateSubmit_invalid_form
    (caseData : option CustomerCase.t) (user_id : option string)
    (form : CaseDetailsModal.Form) (db : Db) :
  ~ form_is_valid form ->
  exists title message,
    CaseDetailsModal.handleStatusUpdateSubmit caseData user_id form db
    = (Resolved (CaseDetailsModal.error_notification title message), db).
Proof.
  intros Hinvalid. unfold CaseDetailsModal.handleStatusUpdateSubmit.
  destruct caseData as [case_|]; [|do 2 eexists; reflexivity].
  destruct user_id as [uid|]; [|do 2 eexists; reflexivity].
  destruct (negb (CaseDetailsModal.non_empty (CustomerCase.id case_))
            || negb (CaseDetailsModal.non_empty uid));
    [do 2 eexists; reflexivity|].
  unfold CaseDetailsModal.non_empty.
  destruct (String.eqb (CaseDetailsModal.callStatus form) "") eqn:Hstatus;
    [do 2 eexists; reflexivity|].
  destruct (String.eqb (JS.trim (CaseDetailsModal.remarks form)) "")
    eqn:Hremarks; [do 2 eexists; reflexivity|].
  destruct (String.eqb (CaseDetailsModal.ptpDate form) "") eqn:Hdate.
  - destruct (String.eqb (CaseDetailsModal.callStatus form) "PTP"
              || String.eqb (CaseDetailsModal.callStatus form) "FUTURE_PTP")
      eqn:Hptp; [do 2 eexists; reflexivity|].
    exfalso. apply Hinvalid. apply String.eqb_neq in Hstatus, Hremarks.
    repeat split; try assumption.
    apply orb_false_elim in Hptp as [H1 H2].
    apply String.eqb_neq in H1, H2. intros [H|H]; contradiction.
  - exfalso. apply Hinvalid. apply String.eqb_neq in Hstatus, Hremarks, Hdate.
    repeat split; try assumption. intros _. assumption.
Qed.

Lemma handleStatusUpdateSubmit_invalid_form_witness :
  exists title message,
    CaseDetailsModal.handleStatusUpdateSubmit (Some assigned_case) (Some "u1")
      {| CaseDetailsModal.callStatus := "PTP";
         CaseDetailsModal.ptpDate := "";
         CaseDetailsModal.ptpTime := "10:30";
         CaseDetailsModal.remarks := "will pay on Friday" |}
      (store [assigned_case] [])
    = (Resolved (CaseDetailsModal.error_notification title message),
       store [assigned_case] []).
Proof.
  apply handleStatusUpdateSubmit_invalid_form.
  intros (_ & _ & Hdate). apply Hdate; [now left|reflexivity].
Defined.


(** X16.  handleStatusUpdateSubmit never rejects: every failure ends in a
    notification.  Whatever happens, the call log grows by at most one
    entry, and earlier entries stay as they are.  The success notification
    is only given when both writes were made: the entry of the call was
    appended for the case and the user, and the row with the case's id has
    working status in_progress. *)
Theorem handleStatusUpdateSubmit_success_means_saved
    (caseData : option CustomerCase.t) (user_id : option string)
    (form : CaseDetailsModal.Form) (db : Db) :
  exists n db',
    CaseDetailsModal.handleStatusUpdateSubmit caseData user_id form db
    = (Resolved n, db')
    /\ (case_call_logs db' = case_call_logs db
        \/ exists entry, case_call_logs db' = case_call_logs db ++ [entry])
    /\ (forall title message,
          n = CaseDetailsModal.success_notification title message ->
          exists case_ uid entry c',
            caseData = Some case_ /\ user_id = Some uid
            /\ case_call_logs db' = case_call_logs db ++ [entry]
            /\ CallLog.case_id entry = CustomerCase.id case_
            /\ CallLog.employee_id entry = uid
            /\ CallLog.call_status entry = CaseDetailsModal.callStatus form
            /\ rows_with_id (CustomerCase.id case_) db' = [c']
            /\ CustomerCase.status c' = Some CustomerCase.in_progress).
Proof.
  destruct (handleStatusUpdateSubmit_outcomes caseData user_id form db)
    as (n & db' & Hrun & [(title & message & -> & _ & Hlogs)
                         |(title & message & case_ & uid & entry & c & -> & ->
                           & -> & Hlogs & Hcase & Huid & Hstatus & Hrows
                           & Hcases)]).
  - exists (CaseDetailsModal.error_notification title message), db'.
    split; [exact Hrun|]. split; [exact Hlogs|]. intros ? ? Hn.
    discriminate Hn.
  - exists (CaseDetailsModal.success_notification title message), db'.
    split; [exact Hrun|]. split; [right; now exists entry|]. intros _ _ _.
    exists case_, uid, entry. eexists.
    repeat (split; [first [reflexivity | assumption]|]).
    unfold rows_with_id in *. rewrite Hcases, filter_update_rows, Hrows.
    split; reflexivity.
Qed.

Section UploadAccounting.

Import customerCaseService.

Lemma upsert_ids (p : CustomerCase.t -> bool) (o : Partial.t)
    (rows : list CustomerCase.t) :
  CustomerCase.id <$> ((fun c => if p c then Partial.apply o c else c) <$> rows)
  = CustomerCase.id <$> rows.
Proof.
  induction rows as [|c rows IH]; csimpl; [reflexivity|].
  rewrite IH. now destruct (p c).
Qed.

(** One iteration: it resolves, touches neither the call log nor the
    employees, keeps the stored rows in place, and either counts the row as
    uploaded, adding at most one row, or reports it under its row number
    and stores nothing. *)
Lemma process_row_frame (m : gmap string string) (i : nat)
    (row0 : Partial.t) (acc : CaseUploadResult) (db : Db) :
  exists acc' db',
    process_row m i row0 acc db = (Resolved acc', db')
    /\ case_call_logs db' = case_call_logs db
    /\ employees db' = employees db
    /\ ((errors acc' = errors acc
         /\ totalUploaded acc' = S (totalUploaded acc)
         /\ exists new_ids,
              CustomerCase.id <$> customer_cases db'
              = (CustomerCase.id <$> customer_cases db) ++ new_ids
              /\ (length new_ids <= 1)%nat)
        \/ (exists e,
              errors acc' = errors acc ++ [e] /\ row e = S i
              /\ totalUploaded acc' = totalUploaded acc
              /\ customer_cases db' = customer_cases db)).
Proof.
  unfold process_row.
  destruct (auto_assign m row0) as [caseData assigned].
  unfold supabase.upsert_case. service_cbv.
  repeat case_match; simplify_eq; store_simpl_in_all.
  all: do 2 eexists; split; [reflexivity|]; store_simpl.
  all: split; [reflexivity|]; split; [reflexivity|].
  all: first
    [ right; eexists; simpl; repeat split; reflexivity
    | left; simpl; split; [reflexivity|]; split; [reflexivity|];
      first
        [ exists []; rewrite upsert_ids, app_nil_r; split; [reflexivity|];
          simpl; lia
        | eexists [_]; rewrite fmap_app; split; [reflexivity|]; simpl; lia ] ].
Qed.

Lemma process_rows_frame (m : gmap string string) (cases : list Partial.t)
    (i : nat) (acc : CaseUploadResult) (db : Db) :
  exists acc' db' new new_ids,
    process_rows m i cases acc db = (Resolved acc', db')
    /\ case_call_logs db' = case_call_logs db
    /\ employees db' = employees db
    /\ errors acc' = errors acc ++ new
    /\ StronglySorted lt (row <$> new)
    /\ Forall (fun e => (i < row e <= i + length cases)%nat) new
    /\ CustomerCase.id <$> customer_cases db'
       = (CustomerCase.id <$> customer_cases db) ++ new_ids
    /\ (totalUploaded acc + length new_ids <= totalUploaded acc')%nat.
Proof.
  revert i acc db. induction cases as [|row0 cases IH]; intros i acc db.
  - exists acc, db, [], []. simpl. rewrite !app_nil_r.
    repeat split; try reflexivity; try constructor. lia.
  - destruct (process_row_frame m i row0 acc db)
      as (acc1 & db1 & Hrow & Hlogs1 & Hemp1 & Hstep).
    destruct (IH (S i) acc1 db1)
      as (acc' & db' & new & new_ids & Hrows & Hlogs & Hemp & Herr & Hsorted
          & Hrange & Hids & Hcount).
    assert (Hrange' : Forall (fun e => (i < row e <= i + S (length cases))%nat)
                        new).
    { eapply Forall_impl; [exact Hrange|]. simpl. intros e He. lia. }
    destruct Hstep as [(Herr1 & Hup1 & ids1 & Hids1 & Hlen1)
                      |(e & Herr1 & He & Hup1 & Hcases1)].
    + exists acc', db', new, (ids1 ++ new_ids).
      simpl. unfold bind at 1. rewrite Hrow.
      split; [exact Hrows|]. split; [congruence|]. split; [congruence|].
      split; [congruence|]. split; [exact Hsorted|]. split; [exact Hrange'|].
      split; [rewrite Hids, Hids1; now rewrite app_assoc|].
      rewrite length_app. lia.
    + exists acc', db', (e :: new), new_ids.
      simpl. unfold bind at 1. rewrite Hrow.
      split; [exact Hrows|]. split; [congruence|]. split; [congruence|].
      split; [rewrite Herr, Herr1, <- app_assoc; reflexivity|].
      split.
      { csimpl. constructor; [exact Hsorted|].
        apply Forall_fmap. eapply Forall_impl; [exact Hrange|].
        simpl. intros e' He'. lia. }
      split; [constructor; [lia|exact Hrange']|].
      split; [now rewrite Hids, Hcases1|]. lia.
Qed.

End UploadAccounting.

(** X17.  The account createBulkCases gives of an upload that resolves.
    The errors are reported in the order of the sheet: their row numbers
    are strictly increasing and lie between 1 and the number of rows.  The
    upload touches neither the call log nor the employees; it removes no
    stored case and moves none: the ids stored before are a prefix of the
    ids stored after, and the cases added are no more than totalUploaded. *)
Theorem createBulkCases_errors_and_rows
    (cases : list Partial.t) (db db' : Db) (r : CaseUploadResult) :
  customerCaseService.createBulkCases cases db = (Resolved r, db') ->
  StronglySorted lt (row <$> errors r)
  /\ Forall (fun e => (1 <= row e <= length cases)%nat) (errors r)
  /\ case_call_logs db' = case_call_logs db
  /\ employees db' = employees db
  /\ exists new_ids,
       CustomerCase.id <$> customer_cases db'
       = (CustomerCase.id <$> customer_cases db) ++ new_ids
       /\ (length new_ids <= totalUploaded r)%nat.
Proof.
  unfold customerCaseService.createBulkCases. unfold bind at 1.
  destruct (supabase.select_telecallers _ db) as [[resp|e] db1] eqn:Hroster;
    [|discriminate].
  assert (Hsame : customer_cases db1 = customer_cases db
                  /\ case_call_logs db1 = case_call_logs db
                  /\ employees db1 = employees db).
  { unfold supabase.select_telecallers in Hroster. service_cbv_in Hroster.
    repeat (case_match; try discriminate); simplify_eq; store_simpl;
      repeat split. }
  destruct Hsame as (Hcases1 & Hlogs1 & Hemp1).
  destruct (process_rows_frame
              (customerCaseService.build_telecallerMap (data resp)) cases 0
              empty_result db1)
    as (acc' & db2 & new & new_ids & Hrun & Hlogs & Hemp & Herr & Hsorted
        & Hrange & Hids & Hcount).
  unfold empty_result in Hrun. rewrite Hrun. intros [= <- <-].
  simpl in Herr, Hcount. rewrite Herr.
  split; [exact Hsorted|]. split.
  { eapply Forall_impl; [exact Hrange|]. simpl. intros e He. lia. }
  split; [congruence|]. split; [congruence|].
  exists new_ids. rewrite Hids, Hcases1. split; [reflexivity|lia].
Qed.

Lemma createBulkCases_errors_and_rows_witness :
  exists r db',
    customerCaseService.createBulkCases
      [upload_row (Some "LN1") (JS.Str "E1"); upload_row None (JS.Str "E1");
       upload_row (Some "LN3") (JS.Str "E9"); upload_row (Some "LN4") JS.Null]
      (store [case_1000_800] [Accept; Accept; Accept; Accept; Refuse "timeout"])
    = (Resolved r, db')
    /\ row <$> errors r = [2%nat; 4%nat]
    /\ StronglySorted lt (row <$> errors r)
    /\ length (customer_cases db') = 3%nat.
Proof.
  do 2 eexists. split; [vm_compute; reflexivity|]. split; [reflexivity|].
  split; [|reflexivity].
  eapply (createBulkCases_errors_and_rows
            [upload_row (Some "LN1") (JS.Str "E1"); upload_row None (JS.Str "E1");
             upload_row (Some "LN3") (JS.Str "E9");
             upload_row (Some "LN4") JS.Null]
            (store [case_1000_800]
               [Accept; Accept; Accept; Accept; Refuse "timeout"])).
  vm_compute. reflexivity.
Defined.

Section UploadWithoutRoster.

Import customerCaseService.

Lemma auto_assign_empty (row0 : Partial.t) :
  auto_assign ∅ row0
  = (Partial.set_status CustomerCase.new
       (Partial.set_assigned_employee_id None
          (Partial.set_telecaller_id None row0)), false).
Proof.
  unfold auto_assign. rewrite lookup_empty. now destruct (JS.truthy _).
Qed.

Lemma process_row_without_roster (old : list CustomerCase.t) (i : nat)
    (row0 : Partial.t) (acc : CaseUploadResult) (db : Db) :
  Forall (fun c => c ∈ old \/ left_unassigned c) (customer_cases db) ->
  exists acc' db',
    process_row ∅ i row0 acc db = (Resolved acc', db')
    /\ autoAssigned acc' = autoAssigned acc
    /\ unassigned acc' = S (unassigned acc)
    /\ Forall (fun c => c ∈ old \/ left_unassigned c) (customer_cases db').
Proof.
  intros Hold. unfold process_row. rewrite auto_assign_empty.
  unfold supabase.upsert_case. service_cbv.
  repeat case_match; simplify_eq; store_simpl_in_all.
  all: do 2 eexists; split; [reflexivity|]; store_simpl.
  all: split; [reflexivity|]; split; [reflexivity|]; try exact Hold.
  - apply Forall_fmap. eapply Forall_impl; [exact Hold|].
    intros c Hc. simpl. destruct (supabase.same_key _ _ c); [|exact Hc].
    right. repeat split.
  - apply Forall_app. split; [exact Hold|].
    constructor; [|constructor]. right. repeat split.
Qed.

Lemma process_rows_without_roster (old : list CustomerCase.t)
    (cases : list Partial.t) (i : nat) (acc : CaseUploadResult) (db : Db) :
  Forall (fun c => c ∈ old \/ left_unassigned c) (customer_cases db) ->
  exists acc' db',
    process_rows ∅ i cases acc db = (Resolved acc', db')
    /\ autoAssigned acc' = autoAssigned acc
    /\ unassigned acc' = (unassigned acc + length cases)%nat
    /\ Forall (fun c => c ∈ old \/ left_unassigned c) (customer_cases db').
Proof.
  revert i acc db. induction cases as [|row0 cases IH]; intros i acc db Hold.
  - exists acc, db. simpl. repeat split; try assumption. lia.
  - destruct (process_row_without_roster old i row0 acc db Hold)
      as (acc1 & db1 & Hrow & Hauto1 & Hun1 & Hold1).
    destruct (IH (S i) acc1 db1 Hold1)
      as (acc' & db' & Hrows & Hauto & Hun & Hold').
    exists acc', db'. simpl. unfold bind at 1. rewrite Hrow.
    split; [exact Hrows|]. split; [congruence|]. split; [lia|exact Hold'].
Qed.

End UploadWithoutRoster.

(** X18.  createBulkCases does not look at the error of the roster fetch.
    When the storage service refuses that fetch, the upload goes on with an
    empty roster and resolves: no row is auto-assigned, every row is
    counted as unassigned, and every stored case is either exactly as it
    was or carries no assignment (no telecaller, no assigned employee,
    working status new), also when its EMPID names an active telecaller. *)
Theorem createBulkCases_roster_refused
    (cases : list Partial.t) (db : Db) (message : string) :
  head (faults db) = Some (Refuse message) ->
  exists r db',
    customerCaseService.createBulkCases cases db = (Resolved r, db')
    /\ autoAssigned r = 0%nat
    /\ unassigned r = length cases
    /\ Forall (fun c => c ∈ customer_cases db \/ left_unassigned c)
         (customer_cases db').
Proof.
  intros Hrefused.
  unfold customerCaseService.createBulkCases, supabase.select_telecallers.
  service_cbv. rewrite Hrefused. store_simpl. cbn [default]. unfold id.
  cbv beta iota. unfold customerCaseService.build_telecallerMap.
  cbv beta iota.
  match goal with
  | |- context [customerCaseService.process_rows ∅ 0 cases ?acc ?d] =>
      destruct (process_rows_without_roster (customer_cases db) cases 0 acc d)
        as (acc' & db' & Hrun & Hauto & Hun & Hold)
  end.
  { store_simpl. apply Forall_forall. intros c Hc. now left. }
  exists acc', db'. split; [exact Hrun|]. simpl in Hauto, Hun.
  split; [exact Hauto|]. split; [exact Hun|exact Hold].
Qed.

Lemma createBulkCases_roster_refused_witness :
  exists r db',
    customerCaseService.createBulkCases
      [upload_row (Some "LN-c1") (JS.Str "E1");
       upload_row (Some "LN7") (JS.Str "E2")]
      (store [case_1000_800] [Refuse "timeout"])
    = (Resolved r, db')
    /\ autoAssigned r = 0%nat
    /\ unassigned r = 2%nat
    /\ CustomerCase.telecaller_id <$> customer_cases db' = [None; None].
Proof.
  destruct (createBulkCases_roster_refused
              [upload_row (Some "LN-c1") (JS.Str "E1");
               upload_row (Some "LN7") (JS.Str "E2")]
              (store [case_1000_800] [Refuse "timeout"]) "timeout" eq_refl)
    as (r & db' & Hrun & Hauto & Hun & _).
  exists r, db'. split; [exact Hrun|]. split; [exact Hauto|].
  split; [exact Hun|].
  vm_compute in Hrun. injection Hrun as <- <-. reflexivity.
Defined.

Section TeamCases.

Lemma foldl_insert_lookup {A} (key : A -> string) (l : list A)
    (m : gmap string A) (k : string) (v : A) :
  foldl (fun m t => <[key t := t]> m) m l !! k = Some v ->
  (v ∈ l /\ key v = k) \/ m !! k = Some v.
Proof.
  revert m. induction l as [|t l IH]; intros m H; simpl in H; [now right|].
  apply IH in H as [[Hin Hk]|H].
  - left. split; [now apply list_elem_of_further|assumption].
  - destruct (decide (key t = k)) as [Heq|Hne].
    + rewrite <- Heq, lookup_insert_eq in H. injection H as <-.
      left. split; [apply list_elem_of_here|assumption].
    + rewrite lookup_insert_ne in H by assumption. now right.
Qed.

End TeamCases.

(** What getTeamCases returns when it resolves. *)
Lemma getTeamCases_resolved
    (tenantId teamId : string) (db db' : Db)
    (r : list (CustomerCase.t * option TelecallerInfo.t)) :
  caseQueries.getTeamCases tenantId teamId db = (Resolved r, db') ->
  fst <$> r = rev (cases_of_team tenantId teamId db)
  /\ Forall (telecaller_of tenantId db) r
  /\ same_tables db db'.
Proof.
  intros H. unfold cases_of_team.
  unfold caseQueries.getTeamCases, caseQueries.select_cases_newest_first in H.
  service_cbv_in H.
  repeat (case_match; try discriminate); simplify_eq; store_simpl_in_all.
  all: repeat match goal with
         | Heq : rev _ = _ |- _ => rewrite Heq
         end.
  all: split; [|split; [|split; reflexivity]].
  all: try reflexivity; try (constructor; fail).
  all: try (simpl; f_equal; apply fst_paired).
  all: apply Forall_cons; split;
    [|apply Forall_fmap, Forall_forall; intros c _].
  all: intros info Hinfo; cbn [fst snd] in *; try discriminate Hinfo.
  all: match type of Hinfo with
       | match CustomerCase.telecaller_id ?c with _ => _ end = _ =>
           destruct (CustomerCase.telecaller_id c) as [tel_id|];
           [|discriminate Hinfo]
       end.
  all: destruct (negb (String.eqb tel_id "")); [|discriminate Hinfo].
  all: apply (foldl_insert_lookup TelecallerInfo.id) in Hinfo
         as [[Hin Hk]|Hempty];
    [|rewrite lookup_empty in Hempty; discriminate Hempty].
  all: cbn [default] in Hin; unfold id in Hin.
  all: apply list_elem_of_fmap in Hin as (e & -> & He).
  all: apply list_elem_of_filter in He as [Hp He].
  all: apply Is_true_true, andb_prop in Hp as [Htenant _].
  all: apply String.eqb_eq in Htenant.
  all: simpl in Hk; subst tel_id.
  all: split; [reflexivity|].
  all: exists e; repeat split; assumption.
Qed.

(** X19.  getTeamCases, when it resolves, returns exactly the cases of the
    team in the tenant, the most recent first, and changes no table.  The
    telecaller details it attaches to a case, if any, are those of an
    employee of the tenant whose id is the telecaller_id of that case. *)
Theorem getTeamCases_cases_and_telecallers
    (tenantId teamId : string) (db db' : Db)
    (r : list (CustomerCase.t * option TelecallerInfo.t)) :
  caseQueries.getTeamCases tenantId teamId db = (Resolved r, db') ->
  fst <$> r = rev (cases_of_team tenantId teamId db)
  /\ Forall (telecaller_of tenantId db) r
  /\ same_tables db db'.
Proof. apply getTeamCases_resolved. Qed.

Lemma getTeamCases_cases_and_telecallers_witness :
  exists r db',
    caseQueries.getTeamCases "t1" "team1"
      (store [case_1000_800; closed_case] []) = (Resolved r, db')
    /\ fst <$> r = [closed_case; case_1000_800]
    /\ Forall (telecaller_of "t1" (store [case_1000_800; closed_case] [])) r.
Proof.
  do 2 eexists. split; [vm_compute; reflexivity|]. split; [reflexivity|].
  eapply (getTeamCases_cases_and_telecallers "t1" "team1"
            (store [case_1000_800; closed_case] [])).
  vm_compute. reflexivity.
Defined.

Section BulkAssignment.

Import AssignCasesModal.

Lemma administrative_change_refl (c : CustomerCase.t) :
  administrative_change c c.
Proof. unfold administrative_change. repeat split. Qed.

(** Reading the cases of a team changes no table, whatever it returns. *)
Lemma getTeamCases_tables (tenantId teamId : string) (db db' : Db)
    (outcome : settled string
                 (list (CustomerCase.t * option TelecallerInfo.t))) :
  caseQueries.getTeamCases tenantId teamId db = (outcome, db') ->
  customer_cases db' = customer_cases db
  /\ case_call_logs db' = case_call_logs db
  /\ employees db' = employees db.
Proof.
  intros H.
  unfold caseQueries.getTeamCases, caseQueries.select_cases_newest_first in H.
  service_cbv_in H.
  repeat (case_match; try discriminate); simplify_eq; store_simpl_in_all.
  all: repeat split.
Qed.

(** loadTeamCases never rejects; it shows nothing but errors and changes no
    table. *)
Lemma loadTeamCases_resolves (st : State) (teamId : string) (db : Db) :
  exists shown db',
    loadTeamCases st teamId db = (Resolved shown, db')
    /\ Forall (fun n => is_success n = false /\ is_warning n = false) shown
    /\ customer_cases db' = customer_cases db
    /\ case_call_logs db' = case_call_logs db
    /\ employees db' = employees db.
Proof.
  unfold loadTeamCases.
  destruct (tenantId st) as [tenant|];
    [|exists [], db; repeat split; constructor].
  destruct (String.eqb tenant "");
    [exists [], db; repeat split; constructor|].
  unfold try_catch, bind.
  destruct (caseQueries.getTeamCases tenant teamId db) as [[r|e] db1] eqn:H;
    apply getTeamCases_tables in H as (Hc & Hl & He); simpl.
  - exists [], db1. unfold ret. repeat split; try assumption. constructor.
  - eexists _, db1. unfold ret. split; [reflexivity|].
    repeat split; try assumption. repeat constructor.
Qed.

(** What one action of the loop may change, whatever its outcome. *)
Lemma apply_action_changes (st : State) (case_id : string) (db db' : Db)
    (outcome : settled string unit) :
  apply_action st case_id db = (outcome, db') ->
  case_call_logs db' = case_call_logs db
  /\ employees db' = employees db
  /\ Forall2
       (fun c c' =>
          administrative_change c c'
          /\ (CustomerCase.id c <> case_id -> c' = c))
       (customer_cases db) (customer_cases db').
Proof.
  unfold apply_action. intros H.
  assert (Hweaker : forall c c',
             assignment_columns_only c c'
             /\ (CustomerCase.id c <> case_id -> c' = c) ->
             administrative_change c c'
             /\ (CustomerCase.id c <> case_id -> c' = c)).
  { intros c c' [(H1 & H2 & H3 & H4 & H5 & H6 & _ & H8 & H9) Hother].
    split; [|exact Hother]. unfold administrative_change.
    repeat split; assumption. }
  destruct (actionType st).
  - apply assignCase_changes in H as (Hl & He & Hrows & _).
    split; [exact Hl|]. split; [exact He|].
    eapply Forall2_impl; [exact Hrows|exact Hweaker].
  - apply assignCase_changes in H as (Hl & He & Hrows & _).
    split; [exact Hl|]. split; [exact He|].
    eapply Forall2_impl; [exact Hrows|exact Hweaker].
  - unfold customerCaseService.updateCase in H. service_cbv_in H.
    repeat (case_match; try discriminate); simplify_eq; store_simpl_in_all.
    all: split; [reflexivity|]; split; [reflexivity|].
    all: first
      [ apply Forall2_same; intros c; split;
        [apply administrative_change_refl|reflexivity]
      | apply update_rows_Forall2; intros c Hc;
        (split; [unfold administrative_change; repeat split|]);
        unfold supabase.has_id in Hc;
        [ reflexivity
        | intros Hne; apply String.eqb_eq in Hc; contradiction ] ].
Qed.

(** The loop: it resolves, counts every selected case once, as a success
    or as an error with its detail, and changes the rows of the selected
    cases only. *)
Lemma run_cases_counts (st : State) (ids : list string)
    (successCount errorCount : nat) (errors : list ErrorDetail.t) (db : Db) :
  exists successCount' errorCount' added db',
    run_cases st ids successCount errorCount errors db
    = (Resolved (successCount', errorCount', errors ++ added), db')
    /\ (successCount' + errorCount'
        = successCount + errorCount + length ids)%nat
    /\ (errorCount' = errorCount + length added)%nat
    /\ Forall (fun d => (String.length (ErrorDetail.caseId d) <= 8)%nat) added
    /\ case_call_logs db' = case_call_logs db
    /\ employees db' = employees db
    /\ Forall2
         (fun c c' =>
            administrative_change c c'
            /\ (CustomerCase.id c ∉ ids -> c' = c))
         (customer_cases db) (customer_cases db').
Proof.
  revert successCount errorCount errors db.
  induction ids as [|case_id ids IH]; intros successCount errorCount errors db.
  - exists successCount, errorCount, [], db. simpl. rewrite app_nil_r.
    split; [reflexivity|]. split; [lia|]. split; [lia|].
    split; [constructor|]. split; [reflexivity|]. split; [reflexivity|].
    apply Forall2_same. intros c. split;
      [apply administrative_change_refl|reflexivity].
  - simpl. unfold bind at 1. unfold try_catch, bind at 1.
    destruct (apply_action st case_id db) as [[[]|message] db1] eqn:Hact;
      apply apply_action_changes in Hact as (Hl1 & He1 & Hrows1).
    + unfold ret at 1.
      destruct (IH (S successCount) errorCount errors db1)
        as (s' & e' & added & db' & Hrun & Hsum & Herr & Hshort & Hl & He
            & Hrows).
      exists s', e', added, db'. split; [exact Hrun|].
      split; [lia|]. split; [exact Herr|]. split; [exact Hshort|].
      split; [congruence|]. split; [congruence|].
      eapply Forall2_trans; [|exact Hrows1|exact Hrows].
      intros c1 c2 c3 [Ha1 Ho1] [Ha2 Ho2]. split.
      * unfold administrative_change in *.
        destruct Ha1 as (?&?&?&?&?&?&?&?), Ha2 as (?&?&?&?&?&?&?&?).
        repeat split; congruence.
      * intros Hnot. apply not_elem_of_cons in Hnot as [Hne Hnot].
        rewrite (Ho1 Hne) in *. now apply Ho2.
    + unfold ret at 1.
      destruct (IH successCount (S errorCount)
                  (errors ++ [ {| ErrorDetail.caseId :=
                                    String.substring 0 8 case_id;
                                  ErrorDetail.error := message |} ]) db1)
        as (s' & e' & added & db' & Hrun & Hsum & Herr & Hshort & Hl & He
            & Hrows).
      eexists s', e', (_ :: added), db'.
      split; [rewrite Hrun, <- app_assoc; reflexivity|].
      split; [lia|]. split; [simpl; lia|].
      split; [constructor; [|exact Hshort]|].
      { simpl. clear. generalize 8%nat as n. revert case_id.
        induction case_id as [|a s IHs]; intros [|n]; simpl; try lia.
        specialize (IHs n). lia. }
      split; [congruence|]. split; [congruence|].
      eapply Forall2_trans; [|exact Hrows1|exact Hrows].
      intros c1 c2 c3 [Ha1 Ho1] [Ha2 Ho2]. split.
      * unfold administrative_change in *.
        destruct Ha1 as (?&?&?&?&?&?&?&?), Ha2 as (?&?&?&?&?&?&?&?).
        repeat split; congruence.
      * intros Hnot. apply not_elem_of_cons in Hnot as [Hne Hnot].
        rewrite (Ho1 Hne) in *. now apply Ho2.
Qed.

(** A bulk operation that passes the checks. *)
Lemma handleBulkAssignment_run (st : State) (db : Db) :
  missing_data st = None ->
  exists successCount errorCount details shown db',
    handleBulkAssignment st db
    = (Resolved
         (shown,
          Some {| AssignmentResult.total := length (selectedCases st);
                  AssignmentResult.success := successCount;
                  AssignmentResult.errors := errorCount;
                  AssignmentResult.errorDetails := details;
                  AssignmentResult.action := action_name (actionType st) |}),
       db')
    /\ (successCount + errorCount = length (selectedCases st))%nat
    /\ length details = errorCount
    /\ existsb is_success shown = (0 <? successCount)%nat
    /\ existsb is_warning shown = (0 <? errorCount)%nat
    /\ case_call_logs db' = case_call_logs db
    /\ employees db' = employees db
    /\ Forall2
         (fun c c' =>
            administrative_change c c'
            /\ (CustomerCase.id c ∉ selectedCases st -> c' = c))
         (customer_cases db) (customer_cases db').
Proof.
  intros Hchecked. unfold handleBulkAssignment. rewrite Hchecked.
  destruct (run_cases_counts st (selectedCases st) 0 0 [] db)
    as (s' & e' & added & db1 & Hrun & Hsum & Herr & _ & Hl1 & He1 & Hrows).
  simpl in Hrun, Hsum, Herr.
  unfold try_catch, bind at 1. rewrite Hrun. cbv beta iota.
  exists s', e', added.
  assert (Hwarned : forall shown,
             Forall (fun n => is_success n = false /\ is_warning n = false)
               shown ->
             existsb is_warning shown = false
             /\ existsb is_success shown = false).
  { intros shown Hshown. induction Hshown as [|n shown [Hs Hw] _ [IHw IHs]];
      [split; reflexivity|].
    simpl. rewrite Hs, Hw. auto. }
  destruct (0 <? s')%nat eqn:Hsuccess.
  - destruct (loadTeamCases_resolves st (selectedTeam st) db1)
      as (reload & db2 & Hload & Hquiet & Hc2 & Hl2 & He2).
    unfold bind. rewrite Hload. unfold ret.
    destruct (Hwarned reload Hquiet) as [Hw Hs].
    eexists _, db2. split; [reflexivity|].
    split; [exact Hsum|]. split; [symmetry; exact Herr|].
    split; [reflexivity|].
    split.
    { rewrite existsb_app. cbn [existsb is_warning]. rewrite Hw.
      destruct (0 <? e')%nat; reflexivity. }
    split; [congruence|]. split; [congruence|]. now rewrite Hc2.
  - unfold bind, ret.
    eexists _, db1. split; [reflexivity|].
    split; [exact Hsum|]. split; [symmetry; exact Herr|].
    split; [destruct (0 <? e')%nat; reflexivity|].
    split; [destruct (0 <? e')%nat; reflexivity|].
    split; [exact Hl1|]. split; [exact He1|exact Hrows].
Qed.

End BulkAssignment.

(** X20.  The account handleBulkAssignment gives of a bulk operation that
    passes its checks.  It never rejects; every selected case is counted
    once, as a success or as an error with one detail; the notification of
    success is shown exactly when at least one case succeeded and the
    warning exactly when at least one failed, both after a partial
    failure. *)
Theorem handleBulkAssignment_result (st : AssignCasesModal.State) (db : Db) :
  AssignCasesModal.missing_data st = None ->
  exists shown r db',
    AssignCasesModal.handleBulkAssignment st db
    = (Resolved (shown, Some r), db')
    /\ AssignmentResult.total r = length (AssignCasesModal.selectedCases st)
    /\ (AssignmentResult.success r + AssignmentResult.errors r
        = AssignmentResult.total r)%nat
    /\ length (AssignmentResult.errorDetails r) = AssignmentResult.errors r
    /\ existsb is_success shown = (0 <? AssignmentResult.success r)%nat
    /\ existsb is_warning shown = (0 <? AssignmentResult.errors r)%nat.
Proof.
  intros Hchecked.
  destruct (handleBulkAssignment_run st db Hchecked)
    as (s' & e' & details & shown & db' & Hrun & Hsum & Hlen & Hs & Hw & _).
  eexists shown, _, db'. split; [exact Hrun|]. simpl.
  repeat split; assumption.
Qed.

Lemma handleBulkAssignment_result_witness :
  exists shown r db',
    AssignCasesModal.handleBulkAssignment bulk_unassign_two
      (store [case_1000_800; closed_case] [Accept; Refuse "timeout"])
    = (Resolved (shown, Some r), db')
    /\ AssignmentResult.success r = 1%nat
    /\ AssignmentResult.errors r = 1%nat
    /\ existsb is_success shown = true
    /\ existsb is_warning shown = true.
Proof.
  destruct (handleBulkAssignment_result bulk_unassign_two
              (store [case_1000_800; closed_case] [Accept; Refuse "timeout"])
              eq_refl)
    as (shown & r & db' & Hrun & _ & _ & _ & Hs & Hw).
  exists shown, r, db'. split; [exact Hrun|].
  vm_compute in Hrun. injection Hrun as <- <- <-.
  repeat split.
Defined.

(** X21.  The frame of handleBulkAssignment.  It never rejects.  Whatever
    the action, the selection and the storage answers, it leaves the call
    log and the employees alone, keeps every stored case in place, changes
    no case that is not selected, and on the selected cases changes at most
    the team, the telecaller, the assigned employee, the working status and
    the time of update: never the amounts or case_status.  When a check
    fails, no result is set and the store is exactly what it was. *)
Theorem handleBulkAssignment_frame (st : AssignCasesModal.State) (db : Db) :
  exists shown result db',
    AssignCasesModal.handleBulkAssignment st db
    = (Resolved (shown, result), db')
    /\ case_call_logs db' = case_call_logs db
    /\ employees db' = employees db
    /\ Forall2
         (fun c c' =>
            administrative_change c c'
            /\ (CustomerCase.id c ∉ AssignCasesModal.selectedCases st ->
                c' = c))
         (customer_cases db) (customer_cases db')
    /\ (result = None -> db' = db).
Proof.
  destruct (AssignCasesModal.missing_data st) as [n|] eqn:Hchecked.
  - exists [n], None, db.
    unfold AssignCasesModal.handleBulkAssignment. rewrite Hchecked.
    split; [reflexivity|]. split; [reflexivity|]. split; [reflexivity|].
    split; [|reflexivity].
    apply Forall2_same. intros c. split;
      [apply administrative_change_refl|reflexivity].
  - destruct (handleBulkAssignment_run st db Hchecked)
      as (s' & e' & details & shown & db' & Hrun & _ & _ & _ & _ & Hl & He
          & Hrows).
    eexists shown, _, db'. split; [exact Hrun|].
    split; [exact Hl|]. split; [exact He|]. split; [exact Hrows|].
    intros Hnone. discriminate Hnone.
Qed.

Section CaseLists.

Lemma filter_sublist_impl {A} (p q : A -> bool) (l : list A) :
  (forall x, q x = true -> p x = true) ->
  filter (fun x => q x) l `sublist_of` filter (fun x => p x) l.
Proof.
  intros Himpl. induction l as [|x l IH]; [constructor|].
  destruct (q x) eqn:Hq.
  - rewrite (filter_cons_True (fun x => q x)) by now rewrite Hq.
    rewrite (filter_cons_True (fun x => p x)) by now rewrite (Himpl x Hq).
    now constructor.
  - rewrite (filter_cons_False (fun x => q x)) by now rewrite Hq.
    destruct (p x) eqn:Hp.
    + rewrite (filter_cons_True (fun x => p x)) by now rewrite Hp.
      now constructor.
    + rewrite (filter_cons_False (fun x => p x)) by now rewrite Hp.
      exact IH.
Qed.

Lemma sublist_rev {A} (l1 l2 : list A) :
  l1 `sublist_of` l2 -> rev l1 `sublist_of` rev l2.
Proof.
  induction 1 as [|x l1 l2 _ IH|x l1 l2 _ IH]; simpl.
  - constructor.
  - now apply sublist_app.
  - rewrite <- (app_nil_r (rev l1)). apply sublist_app; [exact IH|].
    apply sublist_nil_l.
Qed.

Lemma getAllCases_resolved (tenantId : string) (db db' : Db)
    (r : list CustomerCase.t) :
  caseQueries.getAllCases tenantId db = (Resolved r, db') ->
  r = rev (filter
             (fun c => String.eqb (CustomerCase.tenant_id c) tenantId)
             (customer_cases db)).
Proof.
  intros H.
  unfold caseQueries.getAllCases, caseQueries.select_cases_newest_first in H.
  service_cbv_in H.
  repeat (case_match; try discriminate); simplify_eq; store_simpl_in_all.
  reflexivity.
Qed.

Lemma getCasesByEmployee_resolved (tenantId employeeId : string)
    (db db' : Db) (r : list CustomerCase.t) :
  caseQueries.getCasesByEmployee tenantId employeeId db = (Resolved r, db') ->
  r = rev (filter
             (fun c => String.eqb (CustomerCase.tenant_id c) tenantId
                       && caseQueries.eq_opt
                            (CustomerCase.assigned_employee_id c) employeeId)
             (customer_cases db)).
Proof.
  intros H.
  unfold caseQueries.getCasesByEmployee,
    caseQueries.select_cases_newest_first in H.
  service_cbv_in H.
  repeat (case_match; try discriminate); simplify_eq; store_simpl_in_all.
  reflexivity.
Qed.

End CaseLists.

(** X22.  The lists of cases are parts of one another.  Read from the same
    store, the cases getCasesByEmployee returns for an employee and the
    cases getTeamCases returns for a team are sublists of what getAllCases
    returns for the tenant, in the same order, and the unassigned cases of
    the team are a sublist of the team's cases; nothing any of them returns
    belongs to another tenant. *)
Theorem case_lists_are_parts_of_the_tenant_list
    (tenantId employeeId teamId : string) (db db0 db1 db2 db3 : Db)
    (all mine unassigned : list CustomerCase.t)
    (team : list (CustomerCase.t * option TelecallerInfo.t)) :
  caseQueries.getAllCases tenantId db = (Resolved all, db0) ->
  caseQueries.getCasesByEmployee tenantId employeeId db
  = (Resolved mine, db1) ->
  caseQueries.getTeamCases tenantId teamId db = (Resolved team, db2) ->
  caseQueries.getUnassignedTeamCases tenantId teamId db
  = (Resolved unassigned, db3) ->
  mine `sublist_of` all
  /\ (fst <$> team) `sublist_of` all
  /\ unassigned `sublist_of` (fst <$> team)
  /\ Forall (fun c => CustomerCase.tenant_id c = tenantId) all.
Proof.
  intros Hall Hmine Hteam Hun.
  apply getAllCases_resolved in Hall.
  apply getCasesByEmployee_resolved in Hmine.
  apply getTeamCases_resolved in Hteam as (Hteam & _).
  apply getUnassignedTeamCases_resolved in Hun.
  rewrite Hteam. unfold cases_of_team. subst all mine unassigned.
  split; [|split; [|split]].
  - apply sublist_rev, filter_sublist_impl.
    intros c Hc. now apply andb_prop in Hc as [Hc _].
  - apply sublist_rev, filter_sublist_impl.
    intros c Hc. now apply andb_prop in Hc as [Hc _].
  - apply sublist_rev, filter_sublist_impl.
    intros c Hc. now apply andb_prop in Hc as [Hc _].
  - apply Forall_rev_filter. intros c _ Hc. now apply String.eqb_eq.
Qed.

Lemma case_lists_are_parts_of_the_tenant_list_witness :
  exists (all mine unassigned : list CustomerCase.t)
         (team : list (CustomerCase.t * option TelecallerInfo.t)),
    all = [closed_case; case_1000_800]
    /\ mine `sublist_of` all
    /\ (fst <$> team) `sublist_of` all
    /\ unassigned `sublist_of` (fst <$> team).
Proof.
  destruct (case_lists_are_parts_of_the_tenant_list "t1" "E1" "team1"
              (store [case_1000_800; closed_case] []) _ _ _ _ _ _ _ _
              eq_refl eq_refl eq_refl eq_refl)
    as (Hmine & Hteam & Hun & _).
  do 4 eexists. split; [reflexivity|]. split; [exact Hmine|].
  split; [exact Hteam|exact Hun].
Defined.

(** X23.  An assigned case reaches its telecaller.  When a case of a
    tenant is assigned to the one active telecaller of that tenant with a
    given employee id, and the storage service accepts the calls, the case
    is in the list getCasesByTelecaller returns for that tenant and
    employee id, with working status assigned and the telecaller's id. *)
Theorem assigned_case_reaches_telecaller
    (tenantId empId case_id tel_id : string) (c : CustomerCase.t)
    (tel : Employee.t) (db : Db) :
  rows_with_id case_id db = [c] ->
  CustomerCase.tenant_id c = tenantId ->
  tel_id <> "" ->
  employees_with_id tel_id db = [tel] ->
  filter (fun e => active_telecaller tenantId empId e) (employees db) = [tel] ->
  accepts 4 db ->
  exists db1 r db2 c',
    customerCaseService.assignCase case_id (assign_to case_id tel_id) db
    = (Resolved tt, db1)
    /\ caseQueries.getCasesByTelecaller tenantId empId db1 = (Resolved r, db2)
    /\ c' ∈ r
    /\ CustomerCase.id c' = case_id
    /\ CustomerCase.telecaller_id c' = Some tel_id
    /\ CustomerCase.status c' = Some CustomerCase.assigned.
Proof.
  intros Hrows Htenant Hne Hfound Hactive Hacc.
  destruct (accepts_next _ _ Hacc) as [H1 Hacc1].
  destruct (accepts_next _ _ Hacc1) as [H2 Hacc2].
  destruct (accepts_next _ _ Hacc2) as [H3 Hacc3].
  destruct (accepts_next _ _ Hacc3) as [H4 _]. store_simpl_in_all.
  assert (Hid : Employee.id tel = tel_id).
  { unfold employees_with_id in Hfound.
    apply filter_singleton in Hfound as [_ Hid]. now apply String.eqb_eq. }
  assert (Hc : c ∈ customer_cases db /\ CustomerCase.id c = case_id).
  { unfold rows_with_id in Hrows.
    apply filter_singleton in Hrows as [Hin Hid'].
    split; [assumption|]. now apply String.eqb_eq. }
  destruct Hc as [Hin Hcid].
  unfold employees_with_id, active_telecaller in *.
  apply String.eqb_neq in Hne.
  set (o := Partial.set_status CustomerCase.assigned
              (Partial.set_assigned_employee_id
                 (if String.eqb (Employee.emp_id tel) "" then None
                  else Some (Employee.emp_id tel))
                 (Partial.set_updated_at (now db)
                    (Partial.set_telecaller_id (Some tel_id)
                       Partial.empty)))).
  assert (Hmine : Partial.apply o c
                  ∈ filter
                      (fun c0 =>
                         String.eqb (CustomerCase.tenant_id c0) tenantId
                         && caseQueries.eq_opt (CustomerCase.telecaller_id c0)
                              (Employee.id tel))
                      (supabase.update_rows case_id o (customer_cases db))).
  { apply list_elem_of_filter. split.
    - simpl. rewrite Htenant, Hid, !String.eqb_refl. exact I.
    - now apply update_rows_elem_of. }
  exists (with_faults (tail (tail (faults db)))
            (with_customer_cases
               (supabase.update_rows case_id o (customer_cases db)) db)).
  unfold customerCaseService.assignCase, assign_to. cbn [telecallerId].
  rewrite Hne. simpl negb. cbv iota.
  unfold caseQueries.getCasesByTelecaller,
    caseQueries.select_cases_newest_first, caseQueries.maybeSingle.
  service_cbv.
  repeat (store_simpl;
          first [rewrite H1 | rewrite H2 | rewrite H3 | rewrite H4
                | rewrite Hfound | rewrite Hactive]).
  store_simpl. fold o.
  apply list_elem_of_In, in_rev in Hmine.
  match goal with
  | |- context [rev ?l] =>
      assert (Hmine' : In (Partial.apply o c) (rev l)) by exact Hmine;
      clear Hmine; destruct (rev l) as [|c0 rest] eqn:Hlist
  end.
  - destruct Hmine'.
  - do 2 eexists. exists (Partial.apply o c).
    split; [reflexivity|]. split; [reflexivity|].
    split.
    + now apply list_elem_of_In.
    + repeat split. exact Hcid.
Qed.

Lemma assigned_case_reaches_telecaller_witness :
  exists db1 r db2 c',
    customerCaseService.assignCase "c1" (assign_to "c1" "u2")
      (store [case_1000_800; closed_case] []) = (Resolved tt, db1)
    /\ caseQueries.getCasesByTelecaller "t1" "E2" db1 = (Resolved r, db2)
    /\ c' ∈ r
    /\ CustomerCase.id c' = "c1"
    /\ CustomerCase.telecaller_id c' = Some "u2"
    /\ CustomerCase.status c' = Some CustomerCase.assigned.
Proof.
  apply (assigned_case_reaches_telecaller "t1" "E2" "c1" "u2" case_1000_800
           (telecaller "u2" "E2")).
  - reflexivity.
  - reflexivity.
  - discriminate.
  - reflexivity.
  - reflexivity.
  - constructor.
Defined.

(** X24.  handleDeleteCase never rejects.  It either shows Case Deleted
    first, and then no row with the given id and no call-log entry of that
    case is left (also when no case had the id), or it shows Delete Failed
    only, and no table has changed. *)
Theorem handleDeleteCase_outcomes
    (st : AssignCasesModal.State) (case_id : string) (db : Db) :
  exists shown db',
    AssignCasesModal.handleDeleteCase st case_id db = (Resolved shown, db')
    /\ ((head shown
         = Some (AssignCasesModal.success_notification "Case Deleted"
                   "Case has been successfully deleted")
         /\ rows_with_id case_id db' = []
         /\ logs_of_case case_id db' = [])
        \/ (exists message,
              shown = [AssignCasesModal.error_notification "Delete Failed"
                         message]
              /\ same_tables db db')).
Proof.
  unfold AssignCasesModal.handleDeleteCase. unfold try_catch, bind at 1.
  destruct (caseQueries.deleteCase case_id db) as [[[]|message] db1] eqn:Hdel.
  - apply deleteCase_resolved in Hdel as [Hrows Hlogs].
    destruct (loadTeamCases_resolves st (AssignCasesModal.selectedTeam st) db1)
      as (reload & db2 & Hload & _ & Hc2 & Hl2 & _).
    unfold bind. rewrite Hload. unfold ret.
    do 2 eexists. split; [reflexivity|]. left. split; [reflexivity|].
    unfold rows_with_id, logs_of_case. rewrite Hc2, Hl2, Hrows, Hlogs.
    split.
    + apply (filter_negb_none (supabase.has_id case_id)).
    + apply (filter_negb_none
               (fun l => String.eqb (CallLog.case_id l) case_id)).
  - unfold ret. do 2 eexists. split; [reflexivity|]. right.
    eexists. split; [reflexivity|].
    unfold caseQueries.deleteCase in Hdel. service_cbv_in Hdel.
    repeat (case_match; try discriminate); simplify_eq; store_simpl_in_all;
      split; reflexivity.
Qed.

(** X25.  handleReassignCase never rejects.  It either shows Case
    Reassigned first, and then every row with the given id carries the new
    telecaller, or it shows Reassignment Failed only, and no table has
    changed. *)
Theorem handleReassignCase_outcomes
    (st : AssignCasesModal.State) (case_id newTelecallerId : string)
    (db : Db) :
  exists shown db',
    AssignCasesModal.handleReassignCase st case_id newTelecallerId db
    = (Resolved shown, db')
    /\ ((head shown
         = Some (AssignCasesModal.success_notification "Case Reassigned"
                   "Case has been reassigned successfully")
         /\ Forall (fun c => CustomerCase.telecaller_id c
                             = Some newTelecallerId)
              (rows_with_id case_id db'))
        \/ (exists message,
              shown = [AssignCasesModal.error_notification
                         "Reassignment Failed" message]
              /\ same_tables db db')).
Proof.
  unfold AssignCasesModal.handleReassignCase. unfold try_catch, bind at 1.
  destruct (customerCaseService.assignCase case_id _ db)
    as [[[]|message] db1] eqn:Hassign.
  - apply assignCase_resolved in Hassign as (o & Hrows & Htel & _).
    destruct (loadTeamCases_resolves st (AssignCasesModal.selectedTeam st) db1)
      as (reload & db2 & Hload & _ & Hc2 & _).
    unfold bind. rewrite Hload. unfold ret.
    do 2 eexists. split; [reflexivity|]. left. split; [reflexivity|].
    unfold rows_with_id. rewrite Hc2, Hrows, filter_update_rows.
    apply Forall_fmap, Forall_forall. intros c _. simpl. now rewrite Htel.
  - unfold ret. do 2 eexists. split; [reflexivity|]. right.
    eexists. split; [reflexivity|].
    apply assignCase_changes in Hassign as (Hlogs & _ & _ & Hcases).
    split; [now apply (Hcases message)|exact Hlogs].
Qed.

Section ParsedRowChecks.

Import excelUtils.




End ParsedRowChecks.



(** X27.  fetchCallLogs never rejects and changes no table.  What it
    hands to the modal is at most five entries, the five most recent
    call-log entries of the case in the order newest first; when the read
    fails it hands over nothing and the list of the modal stays as it
    was. *)
Theorem fetchCallLogs_latest_five (case_id : string) (db : Db) :
  exists shown db',
    CaseDetailsModal.fetchCallLogs case_id db = (Resolved shown, db')
    /\ same_tables db db'
    /\ forall logs,
         shown = Some logs ->
         (length logs <= 5)%nat
         /\ fst <$> logs = take 5 (rev (logs_of_case case_id db)).
Proof.
  destruct (fetchCallLogs_tables case_id db)
    as (shown & db' & Hrun & Hcases & Hlogs).
  exists shown, db'. split; [exact Hrun|]. split; [split; assumption|].
  intros logs ->. unfold CaseDetailsModal.fetchCallLogs in Hrun.
  unfold try_catch, bind in Hrun.
  destruct (CaseDetailsModal.getCallLogsWithEmployeeDetails case_id db)
    as [[r|e] db1] eqn:Hread; [|discriminate Hrun].
  apply getCallLogsWithEmployeeDetails_resolved in Hread as (Hr & _).
  unfold ret in Hrun. injection Hrun as <- <-.
  split.
  - rewrite length_take. lia.
  - now rewrite fmap_take, Hr.
Qed.
